(** * c2cli: conversion between COCO, YOLO and Pascal VOC annotations

    A shallow embedding of the Python package [c2cli] (models.py,
    formats/coco.py, formats/yolo.py, formats/pascal_voc.py, converter.py)
    and the properties of its specification.

    Conventions of the embedding.
    - A Python [float] is a binary64 number: Rocq's primitive [float], whose
      operations are the IEEE 754 ones.
    - A Python [int] is a [Z].
    - A Python [str] is a [string]; a character is a code point below 256.
    - A raised exception is the [Raise] case of [result]; statements that
      mutate an object thread the object through a state monad. *)

From Stdlib Require Import ZArith QArith Qcanon Floats String Ascii List Lia.
From Stdlib Require Import DecimalString Permutation Sorting.Sorted.
From stdpp Require Import base tactics option list sorting gmap strings.

Set Default Proof Using "Type".
Set Warnings "-inexact-float,-register-all,-clear-no-such-hyp".

Open Scope Z_scope.

(** ** Exceptions and fallible computations *)

Inductive exn_class :=
  | ValueError
  | IndexError
  | KeyError
  | ZeroDivisionError
  | OverflowError
  | ImportError
  | TypeError
  | ParseError.

(** An exception is its class and, when the program itself wrote the
    [raise] statement, its message. *)
Record exn := Exn { exn_type : exn_class; exn_msg : option string }.

Inductive result (A : Type) :=
  | Ok (a : A)
  | Raise (e : exn).
Arguments Ok {A} a.
Arguments Raise {A} e.

Definition builtin_error {A} (c : exn_class) : result A := Raise (Exn c None).

Global Instance result_ret : MRet result := @Ok.
Global Instance result_bind : MBind result := λ A B f m,
  match m with
  | Ok a => f a
  | Raise e => Raise e
  end.
Global Instance result_fmap : FMap result := λ A B f m,
  match m with
  | Ok a => Ok (f a)
  | Raise e => Raise e
  end.

Definition is_Ok {A} (r : result A) : bool :=
  match r with Ok _ => true | Raise _ => false end.

Definition raises {A} (r : result A) (c : exn_class) : Prop :=
  ∃ msg, r = Raise (Exn c msg).

(** A loop whose body may raise: the accumulator is the loop's state. *)
Fixpoint foldM {A B} (body : B → A → result B) (l : list A) (acc : B) : result B :=
  match l with
  | [] => Ok acc
  | x :: l' => acc' ← body acc x; foldM body l' acc'
  end.

(** ** Python strings *)

Module Str.

Definition code (c : ascii) : Z := Z.of_N (N_of_ascii c).

(** [str.isspace] on the code points below 256. *)
Definition isspace (c : ascii) : bool :=
  let n := code c in
  ((9 <=? n) && (n <=? 13)) || ((28 <=? n) && (n <=? 32))
  || (n =? 133) || (n =? 160).

Definition isdigit (c : ascii) : bool :=
  let n := code c in (48 <=? n) && (n <=? 57).

Definition digit_value (c : ascii) : Z := code c - 48.

Fixpoint lstrip (s : string) : string :=
  match s with
  | EmptyString => EmptyString
  | String c s' => if isspace c then lstrip s' else s
  end.

Fixpoint rstrip (s : string) : string :=
  match s with
  | EmptyString => EmptyString
  | String c s' =>
      match rstrip s' with
      | EmptyString => if isspace c then EmptyString else String c EmptyString
      | r => String c r
      end
  end.

(** [s.strip()] *)
Definition strip (s : string) : string := rstrip (lstrip s).

(** [s.split()]: the maximal runs of characters that are not white space. *)
Fixpoint split (s : string) : list string :=
  match s with
  | EmptyString => []
  | String c s' =>
      if isspace c then split s'
      else
        match s' with
        | EmptyString => [String c EmptyString]
        | String d _ =>
            if isspace d then String c EmptyString :: split s'
            else
              match split s' with
              | t :: ts => String c t :: ts
              | [] => [String c EmptyString]
              end
        end
  end.

Definition lower (c : ascii) : ascii :=
  let n := code c in
  if (65 <=? n) && (n <=? 90) then ascii_of_N (Z.to_N (n + 32)) else c.

Fixpoint lowercase (s : string) : string :=
  match s with
  | EmptyString => EmptyString
  | String c s' => String (lower c) (lowercase s')
  end.

(** The decimal text of an int: what [str(n)] returns when it returns
    (see [Builtins.str_of_int] for the limit on its length). *)
Definition of_Z (n : Z) : string := NilZero.string_of_int (Z.to_int n).

(** [t in s] for strings. *)
Definition contains (s t : string) : Prop := ∃ pre post, s = (pre ++ t ++ post)%string.

End Str.

(** ** The builtins [int(s)] and [float(s)] *)

Module Builtins.

Inductive scan := AtStart | AfterDigit | AfterUnderscore.

(** Decimal digits, single underscores allowed between two digits. *)
Fixpoint digits (s : string) (prev : scan) (acc : Z) : option Z :=
  match s with
  | EmptyString => match prev with AfterDigit => Some acc | _ => None end
  | String c s' =>
      if Str.isdigit c then digits s' AfterDigit (10 * acc + Str.digit_value c)
      else if Ascii.eqb c "_" then
        match prev with
        | AfterDigit => digits s' AfterUnderscore acc
        | _ => None
        end
      else None
  end.

Definition split_sign (s : string) : bool * string :=
  match s with
  | String "-" s' => (true, s')
  | String "+" s' => (false, s')
  | _ => (false, s)
  end.

(** The interpreter refuses an integer literal of more digits than this
    (the default of [sys.set_int_max_str_digits]). *)
Definition max_str_digits : Z := 4300.

Fixpoint count_digits (s : string) : Z :=
  match s with
  | EmptyString => 0
  | String c s' => (if Str.isdigit c then 1 else 0) + count_digits s'
  end.

(** [int(s)], base 10; [None] stands for the ValueError. *)
Definition int_literal (s : string) : option Z :=
  let '(neg, body) := split_sign (Str.strip s) in
  if max_str_digits <? count_digits body then None
  else
    n ← digits body AtStart 0;
    Some (if neg then - n else n).

Definition py_int (s : string) : result Z :=
  match int_literal s with
  | Some n => Ok n
  | None => builtin_error ValueError
  end.

(** [str(n)] for an int, and [n] in an f-string: the interpreter refuses to
    make a text of more digits than the limit, as it refuses to read one. *)
Definition str_of_int (n : Z) : result string :=
  let s := Str.of_Z n in
  if max_str_digits <? count_digits s then builtin_error ValueError else Ok s.

(** *** Decimal literals of [float(s)] *)

(** Underscores are dropped when each stands between two digits. *)
Fixpoint drop_underscores (s : string) (prev : option ascii) : option string :=
  match s with
  | EmptyString =>
      match prev with
      | Some "_"%char => None
      | _ => Some EmptyString
      end
  | String c s' =>
      if Ascii.eqb c "_" then
        match prev with
        | Some p => if Str.isdigit p then drop_underscores s' (Some c) else None
        | None => None
        end
      else
        match prev with
        | Some "_"%char =>
            if Str.isdigit c then String c <$> drop_underscores s' (Some c) else None
        | _ => String c <$> drop_underscores s' (Some c)
        end
  end.

(** The longest prefix of digits: its value, its length, and the rest. *)
Fixpoint take_digits (s : string) (acc : Z) (n : Z) : Z * Z * string :=
  match s with
  | String c s' =>
      if Str.isdigit c then take_digits s' (10 * acc + Str.digit_value c) (n + 1)
      else (acc, n, s)
  | EmptyString => (acc, n, s)
  end.

(** The exponent part [e[+-]digits], which must end the literal. *)
Definition exponent (s : string) : option Z :=
  match s with
  | EmptyString => Some 0
  | String c s' =>
      if Ascii.eqb (Str.lower c) "e" then
        let '(neg, ds) := split_sign s' in
        match take_digits ds 0 0 with
        | (v, n, EmptyString) => if 0 <? n then Some (if neg then - v else v) else None
        | _ => None
        end
      else None
  end.

(** A decimal literal [digits [. digits] [exponent]] with a digit before or
    after the point: the pair (m, e) stands for m * 10^e. *)
Definition decimal (s : string) : option (Z * Z) :=
  let '(ip, ni, r1) := take_digits s 0 0 in
  let '(m, nf, r2) :=
    match r1 with
    | String "." r => let '(m, nf, r2) := take_digits r ip 0 in (m, nf, r2)
    | _ => (ip, 0, r1)
    end in
  if 0 <? ni + nf then e ← exponent r2; Some (m, e - nf) else None.

(** The binary64 number nearest to (-1)^neg * m * 10^e, ties to even. *)
Definition round_decimal (neg : bool) (m e : Z) : spec_float :=
  match m with
  | Zpos p =>
      if 0 <=? e then binary_round prec emax neg (p * Z.to_pos (10 ^ e)) 0
      else
        let d := 10 ^ (- e) in
        let s := Z.max 0 (Zdigits2 d - Zdigits2 m + prec + 1) in
        let '(q, r) := Z.div_eucl (Z.shiftl m s) d in
        binary_round_aux prec emax neg q (- s) (new_location d r)
  | _ => S754_zero neg
  end.

Definition float_literal (s : string) : option float :=
  body ← drop_underscores (Str.strip s) None;
  let '(neg, u) := split_sign body in
  let l := Str.lowercase u in
  if String.eqb l "inf" || String.eqb l "infinity" then
    Some (SF2Prim (S754_infinity neg))
  else if String.eqb l "nan" then Some nan
  else
    '(m, e) ← decimal u;
    Some (SF2Prim (round_decimal neg m e)).

(** [float(s)] *)
Definition py_float (s : string) : result float :=
  match float_literal s with
  | Some f => Ok f
  | None => builtin_error ValueError
  end.

(** [float(n)] for an int: nearest binary64, OverflowError beyond its range. *)
Definition float_of_int (n : Z) : result float :=
  match binary_normalize prec emax n 0 false with
  | S754_infinity _ => builtin_error OverflowError
  | sf => Ok (SF2Prim sf)
  end.

(** [int(x)] for a float: truncation towards zero. *)
Definition int_of_float (x : float) : result Z :=
  match Prim2SF x with
  | S754_zero _ => Ok 0
  | S754_finite s m e =>
      let a := if 0 <=? e then Z.shiftl (Zpos m) e else Z.shiftr (Zpos m) (- e) in
      Ok (if s then - a else a)
  | S754_infinity _ => builtin_error OverflowError
  | S754_nan => builtin_error ValueError
  end.

(** [l[i]] for a list, negative indices counting from the end. *)
Definition getitem {A} (l : list A) (i : Z) : result A :=
  let n := Z.of_nat (length l) in
  let j := if i <? 0 then i + n else i in
  if (0 <=? j) && (j <? n) then
    match l !! Z.to_nat j with
    | Some x => Ok x
    | None => builtin_error IndexError
    end
  else builtin_error IndexError.

End Builtins.

Import Builtins.

(** ** models.py: the geometry of bounding boxes *)

(** The arithmetic that [BBox] uses on its coordinates.  Python dispatches
    [+ - * /] on the run-time type of the operands; an int operand (the image
    size, the literal 2) is converted to the type of the coordinate. *)
Class PyNumber (A : Type) := {
  num_add : A → A → A;
  num_sub : A → A → A;
  num_mul : A → A → A;
  num_truediv : A → A → result A;
  num_of_int : Z → result A;
}.

(** [float]: IEEE 754 binary64; [/] raises on a zero divisor. *)
Definition float_truediv (x y : float) : result float :=
  if PrimFloat.eqb y 0 then builtin_error ZeroDivisionError
  else Ok (PrimFloat.div x y).

Global Instance float_number : PyNumber float := {|
  num_add := PrimFloat.add;
  num_sub := PrimFloat.sub;
  num_mul := PrimFloat.mul;
  num_truediv := float_truediv;
  num_of_int := float_of_int;
|}.

(** [fractions.Fraction]: exact rational arithmetic. *)
Definition Qc_truediv (x y : Qc) : result Qc :=
  if decide (y = 0%Qc) then builtin_error ZeroDivisionError
  else Ok (x / y)%Qc.

Global Instance fraction_number : PyNumber Qc := {|
  num_add := Qcplus;
  num_sub := Qcminus;
  num_mul := Qcmult;
  num_truediv := Qc_truediv;
  num_of_int := λ n, Ok (Qc_of_Z n);
|}.

Record BBox (A : Type) := mkBBox {
  x_min : A;
  y_min : A;
  x_max : A;
  y_max : A;
}.
Arguments mkBBox {A} _ _ _ _.
Arguments x_min {A} _.
Arguments y_min {A} _.
Arguments x_max {A} _.
Arguments y_max {A} _.

Section Geometry.
Context {A : Type} `{PyNumber A}.

Definition to_xywh (self : BBox A) : A * A * A * A :=
  (x_min self,
   y_min self,
   num_sub (x_max self) (x_min self),
   num_sub (y_max self) (y_min self)).

Definition to_yolo (self : BBox A) (img_width img_height : Z)
  : result (A * A * A * A) :=
  let width := num_sub (x_max self) (x_min self) in
  let height := num_sub (y_max self) (y_min self) in
  two ← num_of_int 2;
  half_width ← num_truediv width two;
  let x_center := num_add (x_min self) half_width in
  half_height ← num_truediv height two;
  let y_center := num_add (y_min self) half_height in
  iw ← num_of_int img_width;
  xc ← num_truediv x_center iw;
  ih ← num_of_int img_height;
  yc ← num_truediv y_center ih;
  wn ← num_truediv width iw;
  hn ← num_truediv height ih;
  Ok (xc, yc, wn, hn).

Definition from_xywh (x y w h : A) : BBox A :=
  mkBBox x y (num_add x w) (num_add y h).

Definition from_yolo (x_center y_center width height : A)
    (img_width img_height : Z) : result (BBox A) :=
  iw ← num_of_int img_width;
  let w := num_mul width iw in
  ih ← num_of_int img_height;
  let h := num_mul height ih in
  two ← num_of_int 2;
  half_w ← num_truediv w two;
  let x := num_sub (num_mul x_center iw) half_w in
  half_h ← num_truediv h two;
  let y := num_sub (num_mul y_center ih) half_h in
  Ok (mkBBox x y (num_add x w) (num_add y h)).

End Geometry.

(** ** models.py: annotations, images, categories, datasets *)

Record Annotation := mkAnnotation {
  bbox : BBox float;
  category_id : Z;
  category_name : string;
  difficult : bool;
  truncated : bool;
  area : option float;
  iscrowd : Z;
}.

(** [__post_init__] *)
Definition Annotation_post_init (self : Annotation) : Annotation :=
  match area self with
  | None =>
      let '(x, y, w, h) := to_xywh (bbox self) in
      mkAnnotation (bbox self) (category_id self) (category_name self)
        (difficult self) (truncated self) (Some (w * h)%float) (iscrowd self)
  | Some _ => self
  end.

(** The constructor [Annotation(bbox, category_id, category_name,
    difficult=False, truncated=False, area=None, iscrowd=0)]: an argument
    that the caller leaves out is [None] here and takes its default. *)
Definition Annotation_new (bbox : BBox float) (category_id : Z)
    (category_name : string) (difficult truncated : option bool)
    (area : option float) (iscrowd : option Z) : Annotation :=
  Annotation_post_init
    (mkAnnotation bbox category_id category_name
       (default false difficult) (default false truncated)
       area (default 0 iscrowd)).

Record Image := mkImage {
  file_name : string;
  width : Z;
  height : Z;
  annotations : list Annotation;
  image_id : option Z;
}.

Definition add_annotation (self : Image) (annotation : Annotation) : Image :=
  mkImage (file_name self) (width self) (height self)
    (annotations self ++ [annotation]) (image_id self).

Definition set_image_id (self : Image) (v : Z) : Image :=
  mkImage (file_name self) (width self) (height self)
    (annotations self) (Some v).

Record Category := mkCategory {
  id : Z;
  name : string;
  supercategory : option string;
}.

(** JSON values: the [info] mapping of a dataset and the COCO output. *)
Inductive json :=
  | JNull
  | JBool (b : bool)
  | JInt (n : Z)
  | JFloat (x : float)
  | JString (s : string)
  | JList (items : list json)
  | JObject (fields : list (string * json)).

Record Dataset := mkDataset {
  images : list Image;
  categories : list Category;
  info : json;
}.

(** [Dataset()] *)
Definition Dataset_new : Dataset := mkDataset [] [] (JObject []).

Definition add_image (self : Dataset) (image : Image) : Dataset :=
  mkDataset (images self ++ [image]) (categories self) (info self).

Definition add_category (self : Dataset) (category : Category) : Dataset :=
  mkDataset (images self) (categories self ++ [category]) (info self).

Definition get_category_by_id (self : Dataset) (cat_id : Z) : option Category :=
  find (λ cat, id cat =? cat_id) (categories self).

Definition get_category_by_name (self : Dataset) (n : string) : option Category :=
  find (λ cat, String.eqb (name cat) n) (categories self).

(** ** Writers: computations over the dataset they are given

    A writer receives the [Dataset] object and may assign to its attributes;
    the state of the monad is that object, the result is what is written.
    A dataset owns its images and an image its annotations: the items of
    [dataset.images] are distinct objects, so an assignment to one image is
    an update at its position. *)

Record State (S A : Type) := mkState { run : S → result A * S }.
Arguments mkState {S A} _.
Arguments run {S A} _ _.

Global Instance state_ret {S} : MRet (State S) := λ A a, mkState (λ s, (Ok a, s)).
Global Instance state_bind {S} : MBind (State S) := λ A B f m,
  mkState (λ s,
    match run m s with
    | (Ok a, s') => run (f a) s'
    | (Raise e, s') => (Raise e, s')
    end).

Definition get {S} : State S S := mkState (λ s, (Ok s, s)).
Definition modify {S} (f : S → S) : State S unit := mkState (λ s, (Ok (), f s)).
Definition lift {S A} (r : result A) : State S A := mkState (λ s, (r, s)).

(** A [for] loop with local variables [acc] over the items of [l]. *)
Fixpoint for_each {S A B} (body : B → A → State S B) (l : list A) (acc : B)
  : State S B :=
  match l with
  | [] => mret acc
  | x :: l' => acc' ← body acc x; for_each body l' acc'
  end.

(** [enumerate(l, start)] *)
Fixpoint enumerate {A} (start : Z) (l : list A) : list (Z * A) :=
  match l with
  | [] => []
  | x :: l' => (start, x) :: enumerate (start + 1) l'
  end.

(** [sorted(l, key=...)] with integer keys: a stable sort. *)
Fixpoint insert_by_key {A} (key : A → Z) (x : A) (l : list A) : list A :=
  match l with
  | [] => [x]
  | y :: l' => if key x <=? key y then x :: l else y :: insert_by_key key x l'
  end.

Definition sorted_by_key {A} (key : A → Z) (l : list A) : list A :=
  foldr (insert_by_key key) [] l.

(** ** formats/coco.py: the writer *)

Module COCOWriter.

Definition json_of_int (n : option Z) : json :=
  match n with Some i => JInt i | None => JNull end.

Definition json_of_float (x : option float) : json :=
  match x with Some v => JFloat v | None => JNull end.

Definition cat_dict (category : Category) : json :=
  JObject
    ([("id", JInt (id category)); ("name", JString (name category))]
     ++ match supercategory category with
        | Some s => if String.eqb s "" then [] else [("supercategory", JString s)]
        | None => []
        end).

Definition img_dict (image : Image) : json :=
  JObject
    [("id", json_of_int (image_id image));
     ("file_name", JString (file_name image));
     ("width", JInt (width image));
     ("height", JInt (height image))].

Definition ann_dict (annotation_id : Z) (image : Image) (annotation : Annotation)
  : json :=
  let '(x, y, w, h) := to_xywh (bbox annotation) in
  JObject
    [("id", JInt annotation_id);
     ("image_id", json_of_int (image_id image));
     ("category_id", JInt (category_id annotation));
     ("bbox", JList [JFloat x; JFloat y; JFloat w; JFloat h]);
     ("area", json_of_float (area annotation));
     ("iscrowd", JInt (iscrowd annotation));
     ("segmentation", JList [])].

(** The assignment [image.image_id = idx] on the image at position [pos]
    of [dataset.images]. *)
Definition assign_image_id (pos : nat) (idx : Z) : State Dataset unit :=
  modify (λ d,
    mkDataset (alter (λ image, set_image_id image idx) pos (images d))
      (categories d) (info d)).

(** The locals of the loop: [annotation_id], [coco_data["images"]] and
    [coco_data["annotations"]]. *)
Abbreviation locals := (Z * list json * list json)%type.

Definition write_annotations (image : Image) (acc : Z * list json)
  : Z * list json :=
  fold_left
    (λ '(annotation_id, out) annotation,
       (annotation_id + 1, out ++ [ann_dict annotation_id image annotation]))
    (annotations image) acc.

Definition write_image (acc : locals) (item : Z * Image) : State Dataset locals :=
  let '(annotation_id, out_images, out_annotations) := acc in
  let '(idx, image) := item in
  image ←
    match image_id image with
    | None => assign_image_id (Z.to_nat (idx - 1)) idx;; mret (set_image_id image idx)
    | Some _ => mret image
    end;
  let '(annotation_id, out_annotations) :=
    write_annotations image (annotation_id, out_annotations) in
  mret (annotation_id, out_images ++ [img_dict image], out_annotations).

(** [COCOWriter.write(dataset, output_path)]: the value handed to
    [json.dump]. *)
Definition write : State Dataset json :=
  dataset ← get;
  let out_categories := cat_dict <$> categories dataset in
  '(_, out_images, out_annotations) ←
    for_each write_image (enumerate 1 (images dataset)) (1, [], []);
  mret (JObject
    [("info", info dataset);
     ("licenses", JList []);
     ("categories", JList out_categories);
     ("images", JList out_images);
     ("annotations", JList out_annotations)]).

End COCOWriter.

(** ** XML elements (xml.etree.ElementTree) *)

Inductive Element :=
  | mkElement (tag : string) (text : option string) (children : list Element).

Definition tag (e : Element) : string := let 'mkElement t _ _ := e in t.
Definition text (e : Element) : option string := let 'mkElement _ t _ := e in t.
Definition children (e : Element) : list Element := let 'mkElement _ _ c := e in c.

(** [e.find(t)] and [e.findall(t)] for a plain tag [t]: direct children. *)
Definition findall (e : Element) (t : string) : list Element :=
  filter (λ c, tag c = t) (children e).

Definition find_child (e : Element) (t : string) : option Element :=
  head (findall e t).

(** A leaf with text. *)
Definition leaf (t s : string) : Element := mkElement t (Some s) [].

(** ** formats/yolo.py: the writer *)

Module YOLOWriter.
Section with_formatting.
(** [Path(p).stem] and the format specification [.6f]. *)
Variable path_stem : string → string.
Variable format_6f : float → string.

Definition label_line (image : Image) (annotation : Annotation) : result string :=
  '(x_center, y_center, w, h) ← to_yolo (bbox annotation) (width image) (height image);
  class_id ← str_of_int (category_id annotation);
  Ok (class_id ++ " " ++ format_6f x_center ++ " "
      ++ format_6f y_center ++ " " ++ format_6f w ++ " " ++ format_6f h
      ++ String "010" "")%string.

Definition write_image (files : list (string * list string)) (image : Image)
  : State Dataset (list (string * list string)) :=
  let label_name := (path_stem (file_name image) ++ ".txt")%string in
  lines ← for_each (λ lines annotation,
             line ← lift (label_line image annotation); mret (lines ++ [line]))
           (annotations image) [];
  mret (files ++ [(label_name, lines)]).

(** [YOLOWriter.write]: the lines of the classes file and, per image, the
    name and lines of its label file. *)
Definition write : State Dataset (list string * list (string * list string)) :=
  dataset ← get;
  let sorted_categories := sorted_by_key id (categories dataset) in
  let classes := (λ category, name category ++ String "010" "")%string
                   <$> sorted_categories in
  files ← for_each write_image (images dataset) [];
  mret (classes, files).

End with_formatting.
End YOLOWriter.

(** ** formats/pascal_voc.py: the writer *)

Module PascalVOCWriter.
Section with_paths.
Variable path_stem : string → string.

Definition flag_text (b : bool) : string := if b then "1" else "0".

(** [str(int(x))] *)
Definition coordinate_text (x : float) : result string :=
  int_of_float x ≫= str_of_int.

Definition object_element (ann : Annotation) : result Element :=
  xmin ← coordinate_text (x_min (bbox ann));
  ymin ← coordinate_text (y_min (bbox ann));
  xmax ← coordinate_text (x_max (bbox ann));
  ymax ← coordinate_text (y_max (bbox ann));
  Ok (mkElement "object" None
    [leaf "name" (category_name ann);
     leaf "pose" "Unspecified";
     leaf "truncated" (flag_text (truncated ann));
     leaf "difficult" (flag_text (difficult ann));
     mkElement "bndbox" None
       [leaf "xmin" xmin;
        leaf "ymin" ymin;
        leaf "xmax" xmax;
        leaf "ymax" ymax]]).

Definition write_image (files : list (string * Element)) (image : Image)
  : State Dataset (list (string * Element)) :=
  width_text ← lift (str_of_int (width image));
  height_text ← lift (str_of_int (height image));
  let header :=
    [leaf "folder" "images";
     leaf "filename" (file_name image);
     leaf "path" (file_name image);
     mkElement "source" None [leaf "database" "Unknown"];
     mkElement "size" None
       [leaf "width" width_text;
        leaf "height" height_text;
        leaf "depth" "3"];
     leaf "segmented" "0"] in
  objects ← for_each (λ objs ann,
               obj ← lift (object_element ann); mret (objs ++ [obj]))
             (annotations image) [];
  let xml_filename := (path_stem (file_name image) ++ ".xml")%string in
  mret (files ++ [(xml_filename, mkElement "annotation" None (header ++ objects))]).

(** [PascalVOCWriter.write]: per image, the name and the tree of its file,
    before [ET.indent] adds the white space of the layout. *)
Definition write : State Dataset (list (string * Element)) :=
  dataset ← get;
  for_each write_image (images dataset) [].

End with_paths.
End PascalVOCWriter.


(** ** formats/pascal_voc.py: the reader

    The directory is the list of the parsed files ([ET.parse(f).getroot()])
    in the order in which [glob] enumerates them. *)

Module PascalVOCReader.

Definition child_text (e : Element) (t : string) : option string :=
  c ← find_child e t; text c.

(** First pass: the set of the names of all objects. *)
Definition add_object_name (categories_set : gset string) (obj : Element)
  : gset string :=
  match child_text obj "name" with
  | Some n => {[n]} ∪ categories_set
  | None => categories_set
  end.

Definition add_names (categories_set : gset string) (root : Element) : gset string :=
  fold_left add_object_name (findall root "object") categories_set.

Definition collect_names (xml_files : list Element) : gset string :=
  fold_left add_names xml_files ∅.

(** [sorted(categories_set)] *)
Definition sorted_names (categories_set : gset string) : list string :=
  merge_sort String.le (elements categories_set).

(** The categories and [category_map], in the order of [enumerate]. *)
Definition add_category_entry (acc : list Category * gmap string Z)
    (item : Z * string) : list Category * gmap string Z :=
  let '(cats, category_map) := acc in
  let '(idx, n) := item in
  (cats ++ [mkCategory idx n None], <[n := idx]> category_map).

Definition make_categories (names : list string) : list Category * gmap string Z :=
  fold_left add_category_entry (enumerate 0 names) ([], ∅).

Definition flag (e : Element) (t : string) : result Z :=
  match child_text e t with
  | Some s => py_int s
  | None => Ok 0
  end.

Definition read_object (category_map : gmap string Z) (image : Image)
    (obj : Element) : result Image :=
  match child_text obj "name" with
  | None => Ok image
  | Some n =>
      difficult ← flag obj "difficult";
      truncated ← flag obj "truncated";
      match find_child obj "bndbox" with
      | None => Ok image
      | Some bndbox =>
          match child_text bndbox "xmin", child_text bndbox "ymin",
                child_text bndbox "xmax", child_text bndbox "ymax" with
          | Some a, Some b, Some c, Some d =>
              xmin ← py_float a;
              ymin ← py_float b;
              xmax ← py_float c;
              ymax ← py_float d;
              cid ← match category_map !! n with
                    | Some i => Ok i
                    | None => builtin_error KeyError
                    end;
              Ok (add_annotation image
                    (Annotation_new (mkBBox xmin ymin xmax ymax) cid n
                       (Some (negb (difficult =? 0))) (Some (negb (truncated =? 0)))
                       None None))
          | _, _, _, _ => Ok image
          end
      end
  end.

(** Second pass, one file. *)
Definition read_file (category_map : gmap string Z) (images : list Image)
    (root : Element) : result (list Image) :=
  match child_text root "filename" with
  | None => Ok images
  | Some filename =>
      match find_child root "size" with
      | None => Ok images
      | Some size =>
          match child_text size "width", child_text size "height" with
          | Some wt, Some ht =>
              w ← py_int wt;
              h ← py_int ht;
              image ← foldM (read_object category_map) (findall root "object")
                        (mkImage filename w h [] None);
              Ok (images ++ [image])
          | _, _ => Ok images
          end
      end
  end.

Definition read (xml_files : list Element) : result Dataset :=
  let categories_set := collect_names xml_files in
  let '(cats, category_map) := make_categories (sorted_names categories_set) in
  imgs ← foldM (read_file category_map) xml_files [];
  Ok (mkDataset imgs cats (JObject [])).

End PascalVOCReader.

(** ** formats/yolo.py: the reader

    A label file is its stem and its lines; the label files come sorted by
    name.  The image directory and PIL are collaborators. *)

Module YOLOReader.
Section with_images.
(** [(images_dir / name).exists()] *)
Variable exists_image : string → bool.
(** [PILImage.open(images_dir / name).size]; ImportError without PIL. *)
Variable image_size : string → result (Z * Z).

Definition read_classes (lines : list string) : list string :=
  Str.strip <$> filter (λ line, Str.strip line ≠ EmptyString) lines.

Definition fallback_extensions : list string :=
  [".jpg"; ".jpeg"; ".png"; ".JPG"; ".JPEG"; ".PNG"].

Definition find_image (stem image_ext : string) : option string :=
  let image_name := (stem ++ image_ext)%string in
  if exists_image image_name then Some image_name
  else head (filter (λ n, exists_image n = true)
               ((λ ext, (stem ++ ext)%string) <$> fallback_extensions)).

(** [line.strip().split()] *)
Definition tokens (line : string) : list string := Str.split (Str.strip line).

(** The body of the loop over the lines of a label file, for an image of
    the given size: [None] when the body ends in [continue], otherwise the
    annotation that it adds to the image. *)
Definition read_line (class_names : list string) (width height : Z) (line : string)
  : result (option Annotation) :=
  let line := Str.strip line in
  if decide (line = EmptyString) then Ok None
  else
    match Str.split line with
    | [p0; p1; p2; p3; p4] =>
        class_id ← py_int p0;
        x_center ← py_float p1;
        y_center ← py_float p2;
        w ← py_float p3;
        h ← py_float p4;
        box ← from_yolo x_center y_center w h width height;
        cname ← (if class_id <? Z.of_nat (length class_names)
                 then getitem class_names class_id
                 else Ok "unknown");
        Ok (Some (Annotation_new box class_id cname None None None None))
    | _ => Ok None
    end.

Definition read_lines (class_names : list string) (image : Image)
    (lines : list string) : result Image :=
  foldM
    (λ image line,
       r ← read_line class_names (width image) (height image) line;
       Ok (match r with
           | Some annotation => add_annotation image annotation
           | None => image
           end))
    lines image.

Definition read_label_file (class_names : list string) (image_ext : string)
    (images : list Image) (label_file : string * list string)
  : result (list Image) :=
  let '(stem, lines) := label_file in
  match find_image stem image_ext with
  | None => Ok images
  | Some image_name =>
      match image_size image_name with
      | Raise (Exn ImportError _) => Ok images
      | Raise e => Raise e
      | Ok (w, h) =>
          image ← read_lines class_names (mkImage image_name w h [] None) lines;
          Ok (images ++ [image])
      end
  end.

Definition read (label_files : list (string * list string))
    (classes_lines : list string) (image_ext : string) : result Dataset :=
  let class_names := read_classes classes_lines in
  let cats := (λ '(idx, n), mkCategory idx n None) <$> enumerate 0 class_names in
  imgs ← foldM (read_label_file class_names image_ext) label_files [];
  Ok (mkDataset imgs cats (JObject [])).

End with_images.
End YOLOReader.

(** ** converter.py

    The readers and writers of the orchestrator work on paths; what they do
    there is the business of the format modules.  The orchestrator is
    modelled up to these calls: a call is logged and its outcome taken from
    the environment. *)

Module Converter.

Inductive call :=
  | COCORead (annotation_path : string)
  | YOLORead (labels_dir images_dir classes_file image_ext : string)
  | VOCRead (annotations_dir : string)
  | COCOWrite (dataset : Dataset) (output_path : string)
  | YOLOWrite (dataset : Dataset) (output_labels_dir output_classes_file : string)
  | VOCWrite (dataset : Dataset) (output_dir : string).

Section with_io.
Variable reader_outcome : call → result Dataset.
(** What a writer returns ([None] or an exception) and the dataset object
    as the writer leaves it. *)
Variable writer_outcome : call → result unit * Dataset.
(** [Path(p).parent / "classes.txt"] *)
Variable default_classes_file : string → string.

Definition invoke_reader (c : call) : State (list call) Dataset :=
  mkState (λ log, (reader_outcome c, log ++ [c])).

Definition invoke_writer (c : call) : State (list call) Dataset :=
  mkState (λ log,
    let '(r, dataset) := writer_outcome c in
    ((λ _, dataset) <$> r, log ++ [c])).

Definition raise_ValueError {A} (msg : string) : State (list call) A :=
  lift (Raise (Exn ValueError (Some msg))).

(** The keys of [self.readers] and of [self.writers]. *)
Definition format_keys : list string := ["coco"; "yolo"; "voc"].

(** [str(list_of_str)] for keys that need no escaping. *)
Definition repr_keys (keys : list string) : string :=
  ("[" ++ String.concat ", " ((λ k, "'" ++ k ++ "'") <$> keys) ++ "]")%string.

Definition unsupported_message (format_type : string) : string :=
  ("Unsupported format: " ++ format_type ++ ". Supported formats: "
   ++ repr_keys format_keys)%string.

(** Truth value of [kwargs.get(k)]. *)
Definition truthy (v : option string) : bool :=
  match v with
  | Some s => negb (String.eqb s "")
  | None => false
  end.

Definition read (format_type source_path : string) (kwargs : gmap string string)
  : State (list call) Dataset :=
  if decide (format_type ∈ format_keys) then
    if String.eqb format_type "coco" then invoke_reader (COCORead source_path)
    else if String.eqb format_type "yolo" then
      let images_dir := kwargs !! "images_dir" in
      let classes_file := kwargs !! "classes_file" in
      let image_ext := default ".jpg" (kwargs !! "image_ext") in
      if negb (truthy images_dir) || negb (truthy classes_file) then
        raise_ValueError
          "YOLO format requires 'images_dir' and 'classes_file' parameters"
      else
        invoke_reader
          (YOLORead source_path (default "" images_dir) (default "" classes_file)
             image_ext)
    else if String.eqb format_type "voc" then invoke_reader (VOCRead source_path)
    else raise_ValueError ("Format " ++ format_type ++ " not implemented")
  else raise_ValueError (unsupported_message format_type).

(** The model of [write] returns the dataset object as it is after the
    call, for [convert] to return it. *)
Definition write (format_type : string) (dataset : Dataset) (target_path : string)
    (kwargs : gmap string string) : State (list call) Dataset :=
  if decide (format_type ∈ format_keys) then
    if String.eqb format_type "coco" then
      invoke_writer (COCOWrite dataset target_path)
    else if String.eqb format_type "yolo" then
      let output_classes_file :=
        match kwargs !! "output_classes_file" with
        | Some f => if String.eqb f "" then default_classes_file target_path else f
        | None => default_classes_file target_path
        end in
      invoke_writer (YOLOWrite dataset target_path output_classes_file)
    else if String.eqb format_type "voc" then
      invoke_writer (VOCWrite dataset target_path)
    else raise_ValueError ("Format " ++ format_type ++ " not implemented")
  else raise_ValueError (unsupported_message format_type).

(** A call [f(a, b, **kwargs)]: a key of [kwargs] that is the name of a
    parameter which the call fills by position is a TypeError (multiple
    values for the argument), raised before the body of [f] runs. *)
Definition call_with_kwargs {A} (positional : list string)
    (kwargs : gmap string string) (body : State (list call) A)
  : State (list call) A :=
  if bool_decide (Exists (λ p, is_Some (kwargs !! p)) positional)
  then lift (builtin_error TypeError)
  else body.

(** [self.read(source_format, source_path, **kwargs)] and
    [self.write(target_format, dataset, target_path, **kwargs)] fill the
    parameters [format_type], [source_path] and [format_type], [dataset],
    [target_path]; [source_path] and [target_path] are parameters of
    [convert] itself and so never keys of its [kwargs]. *)
Definition convert (source_format target_format source_path target_path : string)
    (kwargs : gmap string string) : State (list call) Dataset :=
  dataset ← call_with_kwargs ["format_type"] kwargs
               (read source_format source_path kwargs);
  dataset ← call_with_kwargs ["format_type"; "dataset"] kwargs
               (write target_format dataset target_path kwargs);
  mret dataset.

End with_io.
End Converter.

(** ** Vocabulary of the statements *)

(** Python's [==] on floats and on the 4-tuples of the geometry. *)
Definition tuple_eqb (a b : float * float * float * float) : bool :=
  let '(a1, a2, a3, a4) := a in
  let '(b1, b2, b3, b4) := b in
  PrimFloat.eqb a1 b1 && PrimFloat.eqb a2 b2
  && PrimFloat.eqb a3 b3 && PrimFloat.eqb a4 b4.

(** The image at position [k] once it has an id: its own, or [k + 1]. *)
Definition with_assigned_id (k : nat) (image : Image) : Image :=
  match image_id image with
  | None => set_image_id image (Z.of_nat k + 1)
  | Some _ => image
  end.

(** The annotations of all images in image order, each with the position of
    its image, counted from [n]. *)
Definition flatten_from (n : nat) (imgs : list Image) : list (nat * Image * Annotation) :=
  mjoin (imap (λ k image, (λ a, (n + k, image, a)%nat) <$> annotations image) imgs).

Definition flatten_annotations : list Image → list (nat * Image * Annotation) :=
  flatten_from 0.

(** A computation that assigns to nothing. *)
Definition read_only {S A} (m : State S A) : Prop := ∀ s, (run m s).2 = s.

(** [n] is the name of an object of one of the files. *)
Definition declared (xml_files : list Element) (n : string) : Prop :=
  ∃ root obj, root ∈ xml_files ∧ obj ∈ findall root "object"
              ∧ PascalVOCReader.child_text obj "name" = Some n.

(** The image with further annotations appended. *)
Definition with_annotations (image : Image) (anns : list Annotation) : Image :=
  mkImage (file_name image) (width image) (height image)
    (annotations image ++ anns) (image_id image).

(** [abs(a - b) <= 1e-4] on floats. *)
Definition within_tolerance (a b : float) : bool :=
  PrimFloat.leb (PrimFloat.abs (a - b)) 1e-4%float.

(** The corners of two boxes differ by at most 1e-4 each. *)
Definition corners_within_tolerance (a b : BBox float) : bool :=
  within_tolerance (x_min a) (x_min b) && within_tolerance (y_min a) (y_min b)
  && within_tolerance (x_max a) (x_max b) && within_tolerance (y_max a) (y_max b).

(** [to_yolo] followed by [from_yolo], for the same image size. *)
Definition yolo_round_trip {A} `{PyNumber A} (b : BBox A) (img_width img_height : Z)
  : result (BBox A) :=
  '(xc, yc, w, h) ← to_yolo b img_width img_height;
  from_yolo xc yc w h img_width img_height.

(** The value of a finite binary64 number in units of 2^-1074, the least
    positive number of the format: an integer. *)
Definition SF_units (x : spec_float) : option Z :=
  match x with
  | S754_zero _ => Some 0
  | S754_finite s m e => Some (cond_Zopp s (Zpos m * 2 ^ (e + 1074)))
  | _ => None
  end.

Definition float_units (x : float) : option Z := SF_units (Prim2SF x).

(** [x + w] is computed without rounding: the sum of two finite numbers is
    a finite number and its value is the sum of their values. *)
Definition exact_sum (x w : float) : Prop :=
  ∃ ux uw, float_units x = Some ux ∧ float_units w = Some uw
           ∧ float_units (x + w) = Some (ux + uw).

(** A coordinate in the range of this development's error analysis: a
    finite number of magnitude at most 2^30. *)
Definition coordinate_in_range (x : float) : Prop :=
  ∃ a, float_units x = Some a ∧ Z.abs a ≤ 2 ^ 30 * 2 ^ 1074.

(** The values of two finite numbers differ by at most 1e-4 (the decimal
    number, not its binary64 neighbour): 10^4 |a - b| <= 1. *)
Definition values_within_1e_4 (x y : float) : Prop :=
  ∃ a b, float_units x = Some a ∧ float_units y = Some b
         ∧ 10 ^ 4 * Z.abs (a - b) ≤ 2 ^ 1074.

(** ** Example inputs *)

Module Examples.

(** A label file with a four-token line and a blank line among two
    well-formed lines, for a 100 x 200 image and the classes cat, dog. *)
Definition class_names : list string := ["cat"; "dog"].
Definition image : Image := mkImage "img1.jpg" 100 200 [] None.
Definition label_lines : list string :=
  ["0 0.5 0.5 0.2 0.2"; "1 0.1 0.1 0.1"; ""; "1 0.25 0.25 0.5 0.5"].

Definition label_annotations : list Annotation :=
  Eval vm_compute in
    omap (λ line,
            match YOLOReader.read_line class_names 100 200 line with
            | Ok r => r
            | Raise _ => None
            end) label_lines.

(** The box of the line "-1 0.5 0.5 0.2 0.2" on that image. *)
Definition centre_box : BBox float :=
  Eval vm_compute in
    match from_yolo 0.5 0.5 0.2 0.2 100 200 with
    | Ok b => b
    | Raise _ => mkBBox 0 0 0 0
    end%float.

(** A directory of three XML files: one declares a dog, two a cat. *)
Definition xml_object (n : string) : Element :=
  mkElement "object" None
    [leaf "name" n;
     leaf "difficult" "0";
     mkElement "bndbox" None
       [leaf "xmin" "10"; leaf "ymin" "20"; leaf "xmax" "50"; leaf "ymax" "80"]].

Definition xml_file (fname n : string) : Element :=
  mkElement "annotation" None
    [leaf "filename" fname;
     mkElement "size" None [leaf "width" "100"; leaf "height" "200"];
     xml_object n].

Definition xml_files : list Element :=
  [xml_file "1.jpg" "dog"; xml_file "2.jpg" "cat"; xml_file "3.jpg" "cat"].

Definition xml_dataset : Dataset :=
  Eval vm_compute in
    match PascalVOCReader.read xml_files with
    | Ok ds => ds
    | Raise _ => Dataset_new
    end.

(** A box 1e15 pixels wide, on an image 7 pixels wide. *)
Definition wide_box : BBox float := (mkBBox 0 0 1e15 1)%float.

(** The box of the specification's example: the corners (10, 20) and
    (50, 80) on an image of 100 x 200 pixels. *)
Definition spec_box : BBox float := (mkBBox 10 20 50 80)%float.

End Examples.
From Stdlib Require DecimalPos DecimalZ.

(** ** formats/coco.py: the reader

    The reader works on the value that [json.load] returns.  A Python
    object holds values of any type in its attributes; the records of this
    development hold an int, a float or a string where the format has one.
    A JSON number is an int or a float, and a box and an area take either:
    the reader computes with the numbers as Python does, by the types of
    the operands, and an attribute that is declared [float] holds an int
    result as the float of the same value.  [Untyped] is the outcome of the
    reader for a document with a member of another type than the attribute
    it goes to, or with an int result that no float has as its value: the
    embedding says nothing about such a document.  A dict is the list of
    its items. *)

Inductive outcome (A : Type) :=
  | Returns (a : A)
  | Raises (e : exn)
  | Untyped.
Arguments Returns {A} a.
Arguments Raises {A} e.
Arguments Untyped {A}.

Global Instance outcome_ret : MRet outcome := @Returns.
Global Instance outcome_bind : MBind outcome := λ A B f m,
  match m with
  | Returns a => f a
  | Raises e => Raises e
  | Untyped => Untyped
  end.

(** A computation of Python's own, which returns or raises. *)
Definition raised {A} (r : result A) : outcome A :=
  match r with
  | Ok a => Returns a
  | Raise e => Raises e
  end.

(** A loop whose body may raise or leave the typed documents. *)
Fixpoint fold_outcome {A B} (body : B → A → outcome B) (l : list A) (acc : B)
  : outcome B :=
  match l with
  | [] => Returns acc
  | x :: l' => acc' ← body acc x; fold_outcome body l' acc'
  end.

(** *** Numbers: int or float *)

Inductive number :=
  | Int (n : Z)
  | Float (x : float).

(** The conversion of an operand to float: OverflowError for an int beyond
    the range of the floats. *)
Definition to_float (v : number) : result float :=
  match v with
  | Int n => float_of_int n
  | Float x => Ok x
  end.

(** [a + b], [a - b], [a * b]: exact on two ints, in binary64 once one of
    the operands is a float. *)
Definition number_op (int_op : Z → Z → Z) (float_op : float → float → float)
    (a b : number) : result number :=
  match a, b with
  | Int m, Int n => Ok (Int (int_op m n))
  | _, _ => x ← to_float a; y ← to_float b; Ok (Float (float_op x y))
  end.

Definition number_add : number → number → result number :=
  number_op Z.add PrimFloat.add.
Definition number_sub : number → number → result number :=
  number_op Z.sub PrimFloat.sub.
Definition number_mul : number → number → result number :=
  number_op Z.mul PrimFloat.mul.

(** [BBox.from_xywh(x, y, w, h)] on numbers. *)
Definition from_xywh_numbers (x y w h : number) : result (BBox number) :=
  x_max ← number_add x w;
  y_max ← number_add y h;
  Ok (mkBBox x y x_max y_max).

(** The area that [Annotation.__post_init__] computes: width times height
    of [bbox.to_xywh()]. *)
Definition area_of_box (box : BBox number) : result number :=
  w ← number_sub (x_max box) (x_min box);
  h ← number_sub (y_max box) (y_min box);
  number_mul w h.

(** A number in an attribute that the records type as float: a float is
    itself, an int is the float of the same value when there is one. *)
Definition held (v : number) : outcome float :=
  match v with
  | Float x => Returns x
  | Int n =>
      match float_of_int n with
      | Ok x => if decide (float_units x = Some (n * 2 ^ 1074)) then Returns x
                else Untyped
      | Raise _ => Untyped
      end
  end.

Definition held_box (box : BBox number) : outcome (BBox float) :=
  a ← held (x_min box);
  b ← held (y_min box);
  c ← held (x_max box);
  d ← held (y_max box);
  Returns (mkBBox a b c d).

Module COCOReader.

(** [d.get(k)] *)
Definition dict_get (d : list (string * json)) (k : string) : option json :=
  snd <$> find (λ item, String.eqb item.1 k) d.

(** [d[k]] *)
Definition subscript (d : list (string * json)) (k : string) : outcome json :=
  match dict_get d k with
  | Some v => Returns v
  | None => Raises (Exn KeyError None)
  end.

Definition as_dict (v : json) : outcome (list (string * json)) :=
  match v with JObject d => Returns d | _ => Untyped end.

Definition as_int (v : json) : outcome Z :=
  match v with JInt n => Returns n | _ => Untyped end.

Definition as_number (v : json) : outcome number :=
  match v with
  | JInt n => Returns (Int n)
  | JFloat x => Returns (Float x)
  | _ => Untyped
  end.

Definition as_str (v : json) : outcome string :=
  match v with JString s => Returns s | _ => Untyped end.

(** The items of [coco_data.get(k, [])], for the [for] loop over them. *)
Definition items (coco_data : list (string * json)) (k : string) : outcome (list json) :=
  match dict_get coco_data k with
  | None => Returns []
  | Some (JList l) => Returns l
  | Some _ => Untyped
  end.

(** The loop over the categories: [dataset.categories] and [category_map]. *)
Definition read_category (acc : list Category * gmap Z string) (cat : json)
  : outcome (list Category * gmap Z string) :=
  let '(cats, category_map) := acc in
  cat ← as_dict cat;
  cat_id ← subscript cat "id" ≫= as_int;
  cat_name ← subscript cat "name" ≫= as_str;
  supercategory ←
    match dict_get cat "supercategory" with
    | None | Some JNull => Returns None
    | Some (JString s) => Returns (Some s)
    | Some _ => Untyped
    end;
  Returns (cats ++ [mkCategory cat_id cat_name supercategory],
           <[cat_id := cat_name]> category_map).

(** The loop over the images: [dataset.images] and [image_map].  The map
    holds the image objects themselves, which are items of
    [dataset.images]: here, their positions in that list. *)
Definition read_image (acc : list Image * gmap Z nat) (img : json)
  : outcome (list Image * gmap Z nat) :=
  let '(imgs, image_map) := acc in
  img ← as_dict img;
  img_file_name ← subscript img "file_name" ≫= as_str;
  img_width ← subscript img "width" ≫= as_int;
  img_height ← subscript img "height" ≫= as_int;
  img_id ← subscript img "id" ≫= as_int;
  Returns (imgs ++ [mkImage img_file_name img_width img_height [] (Some img_id)],
           <[img_id := length imgs]> image_map).

(** [x, y, w, h = ann["bbox"]] *)
Definition unpack_bbox (v : json) : outcome (number * number * number * number) :=
  match v with
  | JList [x; y; w; h] =>
      x ← as_number x; y ← as_number y; w ← as_number w; h ← as_number h;
      Returns (x, y, w, h)
  | JList _ => Raises (Exn ValueError None)
  | _ => Untyped
  end.

(** The loop over the annotations: [add_annotation] on an image of
    [image_map] is an update of [dataset.images] at its position.  The
    numbers of the annotation go into the records when the body has run. *)
Definition read_annotation (category_map : gmap Z string) (image_map : gmap Z nat)
    (imgs : list Image) (ann : json) : outcome (list Image) :=
  ann ← as_dict ann;
  '(x, y, w, h) ← subscript ann "bbox" ≫= unpack_bbox;
  box ← raised (from_xywh_numbers x y w h);
  ann_category_id ← subscript ann "category_id" ≫= as_int;
  let ann_category_name := default "unknown"%string (category_map !! ann_category_id) in
  ann_area ←
    match dict_get ann "area" with
    | None | Some JNull => Returns None
    | Some v => a ← as_number v; Returns (Some a)
    end;
  ann_iscrowd ←
    match dict_get ann "iscrowd" with
    | None => Returns 0
    | Some (JInt n) => Returns n
    | Some _ => Untyped
    end;
  ann_area ←
    match ann_area with
    | Some a => Returns a
    | None => raised (area_of_box box)
    end;
  ann_image_id ← subscript ann "image_id" ≫= as_int;
  box ← held_box box;
  ann_area ← held ann_area;
  let annotation :=
    Annotation_new box ann_category_id ann_category_name None None
      (Some ann_area) (Some ann_iscrowd) in
  Returns (match image_map !! ann_image_id with
           | Some pos => alter (λ image, add_annotation image annotation) pos imgs
           | None => imgs
           end).

(** [COCOReader.read], from the value of [json.load(f)] on. *)
Definition read (coco_data : json) : outcome Dataset :=
  coco_data ← as_dict coco_data;
  let dataset_info := default (JObject []) (dict_get coco_data "info") in
  cats ← items coco_data "categories";
  '(dataset_categories, category_map) ← fold_outcome read_category cats ([], ∅);
  imgs ← items coco_data "images";
  '(dataset_images, image_map) ← fold_outcome read_image imgs ([], ∅);
  anns ← items coco_data "annotations";
  dataset_images ←
    fold_outcome (read_annotation category_map image_map) anns dataset_images;
  Returns (mkDataset dataset_images dataset_categories dataset_info).

End COCOReader.

(** ** Vocabulary of the further properties *)

(** A call of one of the three readers. *)
Definition is_reader_call (c : Converter.call) : Prop :=
  match c with
  | Converter.COCORead _ | Converter.YOLORead _ _ _ _ | Converter.VOCRead _ => True
  | _ => False
  end.

(** A call of one of the three writers, on the dataset [ds]. *)
Definition is_writer_call_on (ds : Dataset) (c : Converter.call) : Prop :=
  match c with
  | Converter.COCOWrite d _ | Converter.YOLOWrite d _ _ | Converter.VOCWrite d _ => d = ds
  | _ => False
  end.

(** The element that the Pascal VOC writer builds for an annotation whose
    coordinates, as ints, are given, and the tree that it builds for an
    image whose object elements are given. *)
Definition voc_object (ann : Annotation) (xmin ymin xmax ymax : Z) : Element :=
  mkElement "object" None
    [leaf "name" (category_name ann);
     leaf "pose" "Unspecified";
     leaf "truncated" (PascalVOCWriter.flag_text (truncated ann));
     leaf "difficult" (PascalVOCWriter.flag_text (difficult ann));
     mkElement "bndbox" None
       [leaf "xmin" (Str.of_Z xmin);
        leaf "ymin" (Str.of_Z ymin);
        leaf "xmax" (Str.of_Z xmax);
        leaf "ymax" (Str.of_Z ymax)]].

Definition voc_tree (image : Image) (objects : list Element) : Element :=
  mkElement "annotation" None
    ([leaf "folder" "images";
      leaf "filename" (file_name image);
      leaf "path" (file_name image);
      mkElement "source" None [leaf "database" "Unknown"];
      mkElement "size" None
        [leaf "width" (Str.of_Z (width image));
         leaf "height" (Str.of_Z (height image));
         leaf "depth" "3"];
      leaf "segmented" "0"] ++ objects).

(** One turn of the loop of the Pascal VOC writer: the name and the tree of
    the file of an image. *)
Definition written_file (path_stem : string → string) (image : Image)
  : result (string * Element) :=
  width_text ← str_of_int (width image);
  height_text ← str_of_int (height image);
  objects ← mapM PascalVOCWriter.object_element (annotations image);
  Ok ((path_stem (file_name image) ++ ".xml")%string,
      mkElement "annotation" None
        ([leaf "folder" "images";
          leaf "filename" (file_name image);
          leaf "path" (file_name image);
          mkElement "source" None [leaf "database" "Unknown"];
          mkElement "size" None
            [leaf "width" width_text;
             leaf "height" height_text;
             leaf "depth" "3"];
          leaf "segmented" "0"] ++ objects)).

(** [PascalVOCReader.read] from the files of the directory on.  [ET.parse]
    raises for a file that is not well-formed XML (ParseError, or what
    opening the file raises); [parsed] is its outcome for each file, in the
    order of [glob].  The first pass parses every file before anything is
    looked up, so the first file that does not parse ends the call; the
    second pass parses the same files again. *)
Definition read_directory (parsed : list (result Element)) : result Dataset :=
  xml_files ← mapM (λ parse, parse) parsed;
  PascalVOCReader.read xml_files.

(** A finite number, and the number without its fraction. *)
Definition finite (x : float) : Prop := ∃ u, float_units x = Some u.

Definition finite_box (b : BBox float) : Prop :=
  finite (x_min b) ∧ finite (y_min b) ∧ finite (x_max b) ∧ finite (y_max b).

Definition truncation (x x' : float) : Prop :=
  ∃ u, float_units x = Some u
       ∧ float_units x' = Some (Z.quot u (2 ^ 1074) * 2 ^ 1074).

(** An annotation and an image as the Pascal VOC reader gets them back
    from what the Pascal VOC writer made of them. *)
Definition read_back_annotation (a a' : Annotation) : Prop :=
  category_name a' = category_name a
  ∧ difficult a' = difficult a
  ∧ truncated a' = truncated a
  ∧ truncation (x_min (bbox a)) (x_min (bbox a'))
  ∧ truncation (y_min (bbox a)) (y_min (bbox a'))
  ∧ truncation (x_max (bbox a)) (x_max (bbox a'))
  ∧ truncation (y_max (bbox a)) (y_max (bbox a'))
  ∧ iscrowd a' = 0.

Definition read_back_image (image image' : Image) : Prop :=
  file_name image' = file_name image
  ∧ width image' = width image
  ∧ height image' = height image
  ∧ image_id image' = None
  ∧ Forall2 read_back_annotation (annotations image) (annotations image').

(** An annotation and the element that the writer makes of it. *)
Definition written_object (ann : Annotation) (obj : Element) : Prop :=
  ∃ a b c d,
    float_units (x_min (bbox ann)) = Some a ∧ float_units (y_min (bbox ann)) = Some b
    ∧ float_units (x_max (bbox ann)) = Some c ∧ float_units (y_max (bbox ann)) = Some d
    ∧ Z.abs a ≤ 2 ^ 30 * 2 ^ 1074 ∧ Z.abs b ≤ 2 ^ 30 * 2 ^ 1074
    ∧ Z.abs c ≤ 2 ^ 30 * 2 ^ 1074 ∧ Z.abs d ≤ 2 ^ 30 * 2 ^ 1074
    ∧ obj = voc_object ann (Z.quot a (2 ^ 1074)) (Z.quot b (2 ^ 1074))
              (Z.quot c (2 ^ 1074)) (Z.quot d (2 ^ 1074)).

(** An image and the tree that the writer makes of it. *)
Definition written_tree (image : Image) (root : Element) : Prop :=
  Z.abs (width image) < 10 ^ max_str_digits
  ∧ Z.abs (height image) < 10 ^ max_str_digits
  ∧ ∃ objs, root = voc_tree image objs
            ∧ Forall2 written_object (annotations image) objs.

(** The entries of a COCO document under a key, and what the reader
    makes of an entry. *)
Definition entries (d : list (string * json)) (k : string) : list json :=
  match COCOReader.dict_get d k with
  | Some (JList l) => l
  | _ => []
  end.

Definition category_of_item (item : json) (c : Category) : Prop :=
  ∃ f, item = JObject f
       ∧ COCOReader.dict_get f "id" = Some (JInt (id c))
       ∧ COCOReader.dict_get f "name" = Some (JString (name c))
       ∧ supercategory c = match COCOReader.dict_get f "supercategory" with
                           | Some (JString s) => Some s
                           | _ => None
                           end.

Definition image_of_item (item : json) (image : Image) : Prop :=
  ∃ f i, item = JObject f
         ∧ COCOReader.dict_get f "file_name" = Some (JString (file_name image))
         ∧ COCOReader.dict_get f "width" = Some (JInt (width image))
         ∧ COCOReader.dict_get f "height" = Some (JInt (height image))
         ∧ COCOReader.dict_get f "id" = Some (JInt i)
         ∧ image_id image = Some i.

Definition item_image_id (item : json) : option Z :=
  match item with
  | JObject f =>
      match COCOReader.dict_get f "image_id" with
      | Some (JInt i) => Some i
      | _ => None
      end
  | _ => None
  end.

(** The float [x] is the number [v]: that float, or the float whose value
    is that int. *)
Definition is_number (x : float) (v : number) : Prop :=
  match v with
  | Float y => x = y
  | Int n => float_of_int n = Ok x ∧ float_units x = Some (n * 2 ^ 1074)
  end.

Definition json_of_number (v : number) : json :=
  match v with
  | Int n => JInt n
  | Float x => JFloat x
  end.

(** [r] is the result of Python's operator on [a] and [b]: the operation
    of the ints on two ints, and otherwise the operation of the floats,
    on an int operand converted as [float] converts it. *)
Definition python_arith (int_op : Z → Z → Z) (float_op : float → float → float)
    (a b r : number) : Prop :=
  match a, b with
  | Int m, Int n => r = Int (int_op m n)
  | Int m, Float y => ∃ x, float_of_int m = Ok x ∧ r = Float (float_op x y)
  | Float x, Int n => ∃ y, float_of_int n = Ok y ∧ r = Float (float_op x y)
  | Float x, Float y => r = Float (float_op x y)
  end.

(** The annotation that the reader makes of an entry with the box
    [x, y, w, h]: the box from (x, y) to (x + w, y + h), and the area of the
    entry or else, by [__post_init__], (x + w - x) * (y + h - y). *)
Definition annotation_of_item (item : json) (a : Annotation) : Prop :=
  ∃ f x y w h xw yh,
    item = JObject f
    ∧ COCOReader.dict_get f "bbox"
      = Some (JList [json_of_number x; json_of_number y;
                     json_of_number w; json_of_number h])
    ∧ python_arith Z.add PrimFloat.add x w xw
    ∧ python_arith Z.add PrimFloat.add y h yh
    ∧ is_number (x_min (bbox a)) x ∧ is_number (y_min (bbox a)) y
    ∧ is_number (x_max (bbox a)) xw ∧ is_number (y_max (bbox a)) yh
    ∧ COCOReader.dict_get f "category_id" = Some (JInt (category_id a))
    ∧ iscrowd a = match COCOReader.dict_get f "iscrowd" with
                  | Some (JInt n) => n
                  | _ => 0
                  end
    ∧ (∃ ar v, area a = Some ar ∧ is_number ar v
               ∧ match COCOReader.dict_get f "area" with
                 | None | Some JNull =>
                     ∃ dw dh, python_arith Z.sub PrimFloat.sub xw x dw
                              ∧ python_arith Z.sub PrimFloat.sub yh y dh
                              ∧ python_arith Z.mul PrimFloat.mul dw dh v
                 | Some j => j = json_of_number v
                 end)
    ∧ difficult a = false ∧ truncated a = false.

(** An entry of "annotations" with the keys that the reader subscripts; its
    box, when it is a list, has four items. *)
Definition complete_entry (item : json) : Prop :=
  ∃ f b, item = JObject f
         ∧ COCOReader.dict_get f "bbox" = Some b
         ∧ (∀ l, b = JList l → length l = 4%nat)
         ∧ is_Some (COCOReader.dict_get f "category_id")
         ∧ is_Some (COCOReader.dict_get f "image_id").

(** An int that [float] refuses. *)
Definition beyond_floats (v : number) : Prop :=
  ∃ n, v = Int n ∧ float_of_int n = builtin_error OverflowError.

(** The exceptions of a missing key, of a box that has not four items and
    of an int that is beyond the floats where a float is added to it. *)
Definition reader_error (e : exn) : Prop :=
  e = Exn KeyError None ∨ e = Exn ValueError None ∨ e = Exn OverflowError None.

(** Two images that differ in their annotations only. *)
Definition same_header (image image' : Image) : Prop :=
  file_name image' = file_name image
  ∧ width image' = width image
  ∧ height image' = height image
  ∧ image_id image' = image_id image.

(** The name that the COCO reader gives an annotation: the name of the
    last category of its id, "unknown" if there is none. *)
Definition last_category_name (cats : list Category) (cat_id : Z) : string :=
  default "unknown"%string (name <$> last (filter (λ c, id c = cat_id) cats)).

(** What the COCO reader gets back of a dataset that the COCO writer has
    written: the ids that the writer has assigned, the boxes by way of
    (x, y, width, height), the names by way of the category ids, no flags. *)
Definition coco_category (c : Category) : Category :=
  mkCategory (id c) (name c)
    match supercategory c with
    | Some s => if String.eqb s "" then None else Some s
    | None => None
    end.

Definition coco_annotation (category_name_of : Z → string) (a : Annotation)
  : Annotation :=
  let '(x, y, w, h) := to_xywh (bbox a) in
  Annotation_new (from_xywh x y w h) (category_id a) (category_name_of (category_id a))
    None None (area a) (Some (iscrowd a)).

Definition coco_image (category_name_of : Z → string) (k : nat) (image : Image)
  : Image :=
  mkImage (file_name image) (width image) (height image)
    (coco_annotation category_name_of <$> annotations image)
    (image_id (with_assigned_id k image)).

Definition coco_dataset_of (ds : Dataset) : Dataset :=
  let cats := coco_category <$> categories ds in
  mkDataset (imap (coco_image (last_category_name cats)) (images ds)) cats (info ds).

(** The image that the COCO reader makes of an entry of the writer's images
    list, before the annotations are read. *)
Definition coco_header (k : nat) (image : Image) : Image :=
  mkImage (file_name image) (width image) (height image) []
    (image_id (with_assigned_id k image)).

(** The reader's step on the entry that the writer makes of the annotation
    [item.2] of the image at position [item.1.1]. *)
Definition place (category_name_of : Z → string) (imgs : list Image)
    (item : nat * Image * Annotation) : list Image :=
  alter (λ image, add_annotation image (coco_annotation category_name_of item.2))
    item.1.1 imgs.

(** ** Further example inputs *)

Module Samples.

(** The box of [Examples.spec_box], a dog. *)
Definition dog_annotation : Annotation :=
  Annotation_new Examples.spec_box 1 "dog" None None None None.

(** One image with one annotation; the categories are not in the order of
    their ids. *)
Definition shuffled : Dataset :=
  mkDataset [mkImage "a.jpg" 100 200 [dog_annotation] None]
    [mkCategory 1 "dog" None; mkCategory 0 "cat" None] (JObject []).

(** The image of [shuffled] and an image of no size without annotations. *)
Definition with_empty : Dataset :=
  mkDataset [mkImage "a.jpg" 100 200 [dog_annotation] None;
             mkImage "c.jpg" 0 0 [] None]
    [mkCategory 1 "dog" None; mkCategory 0 "cat" None] (JObject []).

(** An image of width 0 with an annotation. *)
Definition flat : Dataset :=
  mkDataset [mkImage "b.jpg" 0 200 [dog_annotation] None] [] (JObject []).


(** An XML file whose width is no integer. *)
Definition bad_size_file : Element :=
  mkElement "annotation" None
    [leaf "filename" "4.jpg";
     mkElement "size" None [leaf "width" "100.5"; leaf "height" "200"]].

(** A directory whose second file is not well-formed. *)
Definition broken_directory : list (result Element) :=
  [Ok bad_size_file; Raise (Exn ParseError None); Ok bad_size_file].

(** An XML file without a file name, which declares a bird. *)
Definition bad_name_file : Element :=
  mkElement "annotation" None
    [mkElement "size" None [leaf "width" "100"; leaf "height" "200"];
     Examples.xml_object "bird"].

(** What the Pascal VOC reader returns for that file and the three files
    of [Examples.xml_files]. *)
Definition xml_dataset' : Dataset :=
  Eval vm_compute in
    match PascalVOCReader.read (bad_name_file :: Examples.xml_files) with
    | Ok ds => ds
    | Raise _ => Dataset_new
    end.

(** A YOLO directory: two label files, of which only the first has an
    image, img1.png of 100 x 200 pixels; the classes file has a blank line
    and a padded name. *)
Definition image_exists (n : string) : bool := String.eqb n "img1.png".
Definition size_of (n : string) : result (Z * Z) := Ok (100, 200).
Definition label_files : list (string * list string) :=
  [("img1"%string, Examples.label_lines); ("img2"%string, ["0 0.5 0.5 0.2 0.2"%string])].
Definition classes_lines : list string := ["cat"; ""; "  dog "]%string.

Definition yolo_dataset : Dataset :=
  Eval vm_compute in
    match YOLOReader.read image_exists size_of label_files classes_lines ".jpg" with
    | Ok ds => ds
    | Raise _ => Dataset_new
    end.

(** A box with fractions, one of them negative. *)
Definition fraction_box : BBox float := (mkBBox 10.5 (-0.5) 50.75 80)%float.
Definition fraction_annotation : Annotation :=
  Annotation_new fraction_box 0 "cat" (Some true) None None None.

(** A box without an upper bound on the right. *)
Definition open_box : BBox float := (mkBBox 10 20 infinity 80)%float.
Definition open_dataset : Dataset :=
  mkDataset
    [mkImage "c.jpg" 100 200
       [Annotation_new open_box 0 "cat" None None None None] None]
    [mkCategory 0 "cat" None] (JObject []).

(** A COCO document: two categories, two images, and three annotations:
    the first with the box and the area of the specification's example, in
    ints, the second with ints and floats, the last for an image that is not
    there. *)
Definition coco_fields : list (string * json) :=
    [("images", JList
        [JObject [("id", JInt 7); ("file_name", JString "a.jpg");
                  ("width", JInt 100); ("height", JInt 200)];
         JObject [("id", JInt 8); ("file_name", JString "b.jpg");
                  ("width", JInt 100); ("height", JInt 200)]]);
     ("categories", JList
        [JObject [("id", JInt 1); ("name", JString "cat")];
         JObject [("id", JInt 2); ("name", JString "dog");
                  ("supercategory", JString "animal")]]);
     ("annotations", JList
        [JObject [("id", JInt 1); ("image_id", JInt 8); ("category_id", JInt 2);
                  ("bbox", JList [JInt 10; JInt 20; JInt 40; JInt 60]);
                  ("area", JInt 2400); ("iscrowd", JInt 0)];
         JObject [("id", JInt 2); ("image_id", JInt 7); ("category_id", JInt 5);
                  ("bbox", JList [JInt 10; JFloat 20.5; JFloat 40.25; JInt 60])];
         JObject [("id", JInt 3); ("image_id", JInt 9); ("category_id", JInt 1);
                  ("bbox", JList [JFloat 10; JFloat 20; JFloat 40; JFloat 60])]])].

Definition coco_dataset : Dataset :=
  Eval vm_compute in
    match COCOReader.read (JObject coco_fields) with
    | Returns ds => ds
    | _ => Dataset_new
    end.

(** A document with an annotation that has no box. *)
Definition coco_no_bbox : json :=
  JObject [("annotations", JList [JObject [("image_id", JInt 1); ("category_id", JInt 1)]])].

(** A document with an annotation whose box has a float next to an int
    that is beyond the floats. *)
Definition coco_beyond_floats : json :=
  JObject [("annotations",
            JList [JObject [("bbox", JList [JFloat 1.5; JInt 0; JInt (10 ^ 400); JInt 1]);
                            ("image_id", JInt 1); ("category_id", JInt 1)]])].

(** Two images, the second one with an id of its own, and a category whose
    supercategory is the empty string. *)
Definition two_images : Dataset :=
  mkDataset
    [mkImage "a.jpg" 100 200 [dog_annotation] None;
     mkImage "b.jpg" 50 60 [fraction_annotation; dog_annotation] (Some 7)]
    [mkCategory 1 "dog" (Some ""); mkCategory 0 "cat" None] (JObject []).

End Samples.

(** What the Pascal VOC reader needs of a file to make an image of it: the
    texts of [filename], [size/width] and [size/height]. *)
Definition image_header (root : Element) : option (string * string * string) :=
  filename ← PascalVOCReader.child_text root "filename";
  size ← find_child root "size";
  width_text ← PascalVOCReader.child_text size "width";
  height_text ← PascalVOCReader.child_text size "height";
  Some (filename, width_text, height_text).

(** The annotation carries the id that [category_map] gives its name. *)
Definition mapped (category_map : gmap string Z) (a : Annotation) : Prop :=
  category_map !! category_name a = Some (category_id a).

(** The image that the reader makes of a file with the header [h]. *)
Definition image_of_header (category_map : gmap string Z)
    (h : string * string * string) (image : Image) : Prop :=
  file_name image = h.1.1
  ∧ py_int h.1.2 = Ok (width image)
  ∧ py_int h.2 = Ok (height image)
  ∧ image_id image = None
  ∧ Forall (mapped category_map) (annotations image).

(** The name that the YOLO reader gives an annotation of class [class_id]:
    the entry of the classes file at that index, or "unknown" from the
    length of the file on. *)
Definition named_by (class_names : list string) (a : Annotation) : Prop :=
  if category_id a <? Z.of_nat (length class_names)
  then getitem class_names (category_id a) = Ok (category_name a)
  else category_name a = "unknown"%string.


(** * Properties *)

(** ** Monad laws used below *)

Lemma run_bind {S A B} (m : State S A) (f : A → State S B) s :
  run (m ≫= f) s =
  match run m s with
  | (Ok a, s') => run (f a) s'
  | (Raise e, s') => (Raise e, s')
  end.
Proof. reflexivity. Qed.

Lemma run_ret {S A} (a : A) (s : S) : run (mret a) s = (Ok a, s).
Proof. reflexivity. Qed.

Lemma read_only_ret {S A} (a : A) : read_only (S := S) (mret a).
Proof. by intros s. Qed.

Lemma read_only_lift {S A} (r : result A) : read_only (S := S) (lift r).
Proof. by intros s. Qed.

Lemma read_only_get {S} : read_only (S := S) get.
Proof. by intros s. Qed.

Lemma read_only_bind {S A B} (m : State S A) (f : A → State S B) :
  read_only m → (∀ a, read_only (f a)) → read_only (m ≫= f).
Proof.
  intros Hm Hf s. rewrite run_bind. specialize (Hm s).
  destruct (run m s) as [[a|e] s']; simpl in *; subst; [apply Hf | done].
Qed.

Lemma read_only_for_each {S A B} (body : B → A → State S B) l acc :
  (∀ b x, read_only (body b x)) → read_only (for_each body l acc).
Proof.
  intros Hbody. revert acc.
  induction l as [|x l IH]; intros acc; simpl.
  - apply read_only_ret.
  - apply read_only_bind; auto.
Qed.

(** ** Annotation *)

(** C8: an annotation built without an area gets the area of its box,
    (x_max - x_min) * (y_max - y_min); a given area is kept; no annotation
    leaves the constructor without an area; [iscrowd] defaults to 0. *)
Theorem Annotation_new_area (box : BBox float) (cid : Z) (cname : string)
    (d t : option bool) (a : option float) (ic : option Z) :
  area (Annotation_new box cid cname d t None ic)
    = Some ((x_max box - x_min box) * (y_max box - y_min box))%float
  ∧ (∀ v, area (Annotation_new box cid cname d t (Some v) ic) = Some v)
  ∧ area (Annotation_new box cid cname d t a ic) ≠ None
  ∧ iscrowd (Annotation_new box cid cname d t a None) = 0
  ∧ (∀ i, iscrowd (Annotation_new box cid cname d t a (Some i)) = i).
Proof.
  repeat split; try done.
  - by destruct a.
  - by destruct a.
  - intros i. by destruct a.
Qed.

(** ** The COCO writer *)

Section coco_writer.
Import COCOWriter.

Lemma write_annotations_spec image l annotation_id out :
  fold_left
    (λ '(annotation_id, out) annotation,
       (annotation_id + 1, out ++ [ann_dict annotation_id image annotation]))
    l (annotation_id, out)
  = (annotation_id + Z.of_nat (length l),
     out ++ imap (λ j a, ann_dict (annotation_id + Z.of_nat j) image a) l).
Proof.
  revert annotation_id out.
  induction l as [|a l IH]; intros annotation_id out; simpl.
  - by rewrite Z.add_0_r, app_nil_r.
  - rewrite IH. f_equal; [lia|].
    rewrite <- app_assoc. simpl. rewrite Z.add_0_r. do 2 f_equal.
    apply imap_ext. intros j x _. simpl. f_equal. lia.
Qed.

Lemma flatten_from_cons n image imgs :
  flatten_from n (image :: imgs)
  = ((λ a, (n, image, a)) <$> annotations image) ++ flatten_from (S n) imgs.
Proof.
  unfold flatten_from. simpl. rewrite Nat.add_0_r. do 2 f_equal.
  apply imap_ext. intros k x _. simpl.
  apply list_fmap_ext. intros _ a _. do 2 f_equal. lia.
Qed.

Lemma length_flatten_from_cons n image imgs :
  length (flatten_from n (image :: imgs))
  = (length (annotations image) + length (flatten_from (S n) imgs))%nat.
Proof. by rewrite flatten_from_cons, length_app, length_fmap. Qed.

(** The loop over the images, started anywhere in the list. *)
Lemma for_each_write_image imgs : ∀ pre annotation_id out_images out_annotations cats inf,
  run (for_each write_image (enumerate (Z.of_nat (length pre) + 1) imgs)
         (annotation_id, out_images, out_annotations))
      (mkDataset (pre ++ imgs) cats inf)
  = (Ok (annotation_id + Z.of_nat (length (flatten_from (length pre) imgs)),
         out_images
           ++ imap (λ k image, img_dict (with_assigned_id (length pre + k) image)) imgs,
         out_annotations
           ++ imap (λ j '(k, image, a),
                      ann_dict (annotation_id + Z.of_nat j)
                        (with_assigned_id k image) a)
                (flatten_from (length pre) imgs)),
     mkDataset (pre ++ imap (λ k, with_assigned_id (length pre + k)) imgs) cats inf).
Proof.
  induction imgs as [|image imgs IH]; intros pre annotation_id out_images out_annotations cats inf.
  - simpl. unfold flatten_from. simpl. by rewrite Z.add_0_r, !app_nil_r.
  - cbn [enumerate for_each]. rewrite run_bind.
    assert (Hstep :
      run (write_image (annotation_id, out_images, out_annotations)
             (Z.of_nat (length pre) + 1, image))
          (mkDataset (pre ++ image :: imgs) cats inf)
      = (Ok (annotation_id + Z.of_nat (length (annotations image)),
             out_images ++ [img_dict (with_assigned_id (length pre) image)],
             out_annotations
               ++ imap (λ j a, ann_dict (annotation_id + Z.of_nat j)
                                 (with_assigned_id (length pre) image) a)
                    (annotations image)),
         mkDataset ((pre ++ [with_assigned_id (length pre) image]) ++ imgs) cats inf)).
    { unfold write_image, with_assigned_id, write_annotations.
      destruct (image_id image) as [i|] eqn:Hid.
      - rewrite run_bind, run_ret. rewrite write_annotations_spec.
        rewrite run_ret. by rewrite <- app_assoc.
      - rewrite run_bind. simpl.
        replace (annotations image)
          with (annotations (set_image_id image (Z.of_nat (length pre) + 1))) at 1 2 by done.
        rewrite write_annotations_spec. simpl. do 2 f_equal.
        replace (Z.to_nat (Z.of_nat (length pre) + 1 - 1)) with (length pre + 0)%nat by lia.
        rewrite alter_app_r. simpl. by rewrite <- app_assoc. }
    rewrite Hstep.
    replace (Z.of_nat (length pre) + 1 + 1)
      with (Z.of_nat (length (pre ++ [with_assigned_id (length pre) image])) + 1)
      by (rewrite length_app; simpl; lia).
    rewrite IH. rewrite length_app. simpl.
    replace (length pre + 1)%nat with (S (length pre)) by lia.
    rewrite length_flatten_from_cons, flatten_from_cons.
    f_equal; [f_equal; f_equal; [f_equal|]|].
    + lia.
    + rewrite <- app_assoc. simpl. rewrite Nat.add_0_r. do 2 f_equal.
      apply imap_ext. intros k x _. simpl. f_equal. f_equal. lia.
    + rewrite <- app_assoc. f_equal. rewrite imap_app. f_equal.
      * rewrite imap_fmap. by apply imap_ext.
      * rewrite length_fmap. apply imap_ext. intros j [[k x] a] _. simpl.
        f_equal. lia.
    + rewrite <- app_assoc. simpl. rewrite Nat.add_0_r. do 3 f_equal.
      apply imap_ext. intros k x _. simpl. f_equal. lia.
Qed.

Lemma run_write (ds : Dataset) :
  run write ds
  = (Ok (JObject
      [("info", info ds);
       ("licenses", JList []);
       ("categories", JList (cat_dict <$> categories ds));
       ("images", JList (imap (λ k image, img_dict (with_assigned_id k image)) (images ds)));
       ("annotations",
        JList (imap (λ j '(k, image, a),
                       ann_dict (Z.of_nat j + 1) (with_assigned_id k image) a)
                 (flatten_annotations (images ds))))]),
     mkDataset (imap with_assigned_id (images ds)) (categories ds) (info ds)).
Proof.
  pose proof (for_each_write_image (images ds) [] 1 [] [] (categories ds) (info ds)) as H.
  change (Z.of_nat (length (@nil Image)) + 1) with 1 in H.
  destruct ds as [imgs cats inf]. simpl in H.
  unfold write. rewrite run_bind. simpl. rewrite H. simpl.
  do 10 f_equal.
  apply imap_ext. intros j [[k x] a] _. simpl. f_equal. lia.
Qed.

End coco_writer.

(** C6: the COCO writer gives every image without an id its 1-based position
    in [dataset.images] as id and keeps the ids that are there, in the
    document that it writes and in the images of the dataset; the
    annotations of all images, in image order, are numbered 1, 2, 3, ... and
    each carries the id of its image, its category id, its box as
    [x, y, width, height], its area (null for an annotation whose area is
    None), its iscrowd flag and an empty segmentation list. *)
Theorem COCOWriter_write_assigns_ids (ds : Dataset) :
  image_id <$> images (run COCOWriter.write ds).2
  = imap (λ k image, Some (default (Z.of_nat k + 1) (image_id image))) (images ds)
  ∧ (run COCOWriter.write ds).1
  = Ok (JObject
      [("info", info ds);
       ("licenses", JList []);
       ("categories",
        JList ((λ category,
                  JObject
                    ([("id", JInt (id category)); ("name", JString (name category))]
                     ++ match supercategory category with
                        | Some s =>
                            if String.eqb s "" then []
                            else [("supercategory", JString s)]
                        | None => []
                        end))
                 <$> categories ds));
       ("images",
        JList (imap
          (λ k image,
             JObject
               [("id", JInt (default (Z.of_nat k + 1) (image_id image)));
                ("file_name", JString (file_name image));
                ("width", JInt (width image));
                ("height", JInt (height image))])
          (images ds)));
       ("annotations",
        JList (imap
          (λ j '(k, image, a),
             JObject
               [("id", JInt (Z.of_nat j + 1));
                ("image_id", JInt (default (Z.of_nat k + 1) (image_id image)));
                ("category_id", JInt (category_id a));
                ("bbox",
                 JList [JFloat (x_min (bbox a)); JFloat (y_min (bbox a));
                        JFloat (x_max (bbox a) - x_min (bbox a))%float;
                        JFloat (y_max (bbox a) - y_min (bbox a))%float]);
                ("area", match area a with Some v => JFloat v | None => JNull end);
                ("iscrowd", JInt (iscrowd a));
                ("segmentation", JList [])])
          (flatten_annotations (images ds))))]).
Proof.
  rewrite run_write. simpl. split.
  { apply list_eq. intros i. rewrite list_lookup_fmap, !list_lookup_imap.
    by destruct (images ds !! i) as [[f w h anns [j|]]|]. }
  rewrite (imap_ext _
    (λ k image, JObject
       [("id", JInt (default (Z.of_nat k + 1) (image_id image)));
        ("file_name", JString (file_name image));
        ("width", JInt (width image));
        ("height", JInt (height image))]) (images ds)).
  2:{ intros k image _. unfold COCOWriter.img_dict, with_assigned_id.
      by destruct image as [f w h anns [i|]]. }
  do 9 f_equal.
  apply imap_ext. intros j [[k image] a] _. simpl.
  unfold COCOWriter.ann_dict, with_assigned_id.
  by destruct image as [f w h anns [i|]].
Qed.

(** ** The writers and the dataset they are given *)

Section writers_frame.
Variable path_stem : string → string.
Variable format_6f : float → string.

Lemma YOLOWriter_read_only : read_only (YOLOWriter.write path_stem format_6f).
Proof.
  unfold YOLOWriter.write.
  apply read_only_bind; [apply read_only_get|]. intros ds.
  apply read_only_bind; [|intros; apply read_only_ret].
  apply read_only_for_each. intros files image. unfold YOLOWriter.write_image.
  apply read_only_bind; [|intros; apply read_only_ret].
  apply read_only_for_each. intros lines a.
  apply read_only_bind; [apply read_only_lift|intros; apply read_only_ret].
Qed.

Lemma PascalVOCWriter_read_only : read_only (PascalVOCWriter.write path_stem).
Proof.
  unfold PascalVOCWriter.write.
  apply read_only_bind; [apply read_only_get|]. intros ds.
  apply read_only_for_each. intros files image. unfold PascalVOCWriter.write_image.
  apply read_only_bind; [apply read_only_lift|]. intros width_text.
  apply read_only_bind; [apply read_only_lift|]. intros height_text.
  apply read_only_bind; [|intros; apply read_only_ret].
  apply read_only_for_each. intros objs a.
  apply read_only_bind; [apply read_only_lift|intros; apply read_only_ret].
Qed.

End writers_frame.

(** C3, as amended: the YOLO and the Pascal VOC writer leave the dataset
    as it is, whether they return or raise; the COCO writer changes one
    thing: an image without an id has its [image_id] set to its 1-based
    position.  Images with an id, file names, sizes, annotations, categories
    and info are what they were. *)
Theorem writers_frame (path_stem : string → string) (format_6f : float → string)
    (ds : Dataset) :
  (run (YOLOWriter.write path_stem format_6f) ds).2 = ds
  ∧ (run (PascalVOCWriter.write path_stem) ds).2 = ds
  ∧ (run COCOWriter.write ds).2
    = mkDataset
        (imap (λ k image,
                 mkImage (file_name image) (width image) (height image)
                   (annotations image)
                   (Some (default (Z.of_nat k + 1) (image_id image))))
           (images ds))
        (categories ds) (info ds).
Proof.
  split; [apply YOLOWriter_read_only|].
  split; [apply PascalVOCWriter_read_only|].
  rewrite run_write. simpl. f_equal.
  apply imap_ext. intros k [f w h anns [i|]] _; reflexivity.
Qed.

(** C3 fails as stated: the COCO writer stores the id it assigns in the
    image. *)
Lemma COCOWriter_write_mutates :
  let ds := mkDataset [mkImage "cat.jpg" 100 200 [] None] [] (JObject []) in
  (run COCOWriter.write ds).2 ≠ ds
  ∧ image_id <$> images (run COCOWriter.write ds).2 = [Some 1].
Proof. split; [|reflexivity]. vm_compute. intros H. discriminate H. Qed.

(** ** The orchestrator *)

Lemma string_app_assoc (s1 s2 s3 : string) :
  (s1 ++ s2 ++ s3 = (s1 ++ s2) ++ s3)%string.
Proof.
  induction s1 as [|c s1 IH]; [done|].
  change (String c (s1 ++ s2 ++ s3) = String c ((s1 ++ s2) ++ s3))%string.
  by rewrite IH.
Qed.

Lemma unsupported_message_contains format_type :
  Str.contains (Converter.unsupported_message format_type) format_type
  ∧ Forall (λ k, Str.contains (Converter.unsupported_message format_type)
                   ("'" ++ k ++ "'")%string)
      Converter.format_keys.
Proof.
  split.
  - by exists "Unsupported format: "%string,
              ". Supported formats: ['coco', 'yolo', 'voc']"%string.
  - repeat constructor.
    + exists ("Unsupported format: " ++ format_type ++ ". Supported formats: [")%string,
             ", 'yolo', 'voc']"%string.
      unfold Converter.unsupported_message. simpl.
      by rewrite <- !string_app_assoc.
    + exists ("Unsupported format: " ++ format_type
              ++ ". Supported formats: ['coco', ")%string, ", 'voc']"%string.
      unfold Converter.unsupported_message. simpl.
      by rewrite <- !string_app_assoc.
    + exists ("Unsupported format: " ++ format_type
              ++ ". Supported formats: ['coco', 'yolo', ")%string, "]"%string.
      unfold Converter.unsupported_message. simpl.
      by rewrite <- !string_app_assoc.
Qed.

(** C7: for a format identifier other than "coco", "yolo" and "voc",
    [Converter.read] and [Converter.write] raise a ValueError whose message
    contains the identifier and lists the valid ones, and no reader or
    writer has been called: the log of calls is what it was. *)
Theorem Converter_unsupported_format
    (reader_outcome : Converter.call → result Dataset)
    (writer_outcome : Converter.call → result unit * Dataset)
    (default_classes_file : string → string)
    (format_type path : string) (ds : Dataset) (kwargs : gmap string string)
    (log : list Converter.call) :
  format_type ≠ "coco" → format_type ≠ "yolo" → format_type ≠ "voc" →
  let msg := ("Unsupported format: " ++ format_type
              ++ ". Supported formats: ['coco', 'yolo', 'voc']")%string in
  run (Converter.read reader_outcome format_type path kwargs) log
    = (Raise (Exn ValueError (Some msg)), log)
  ∧ run (Converter.write writer_outcome default_classes_file format_type ds path kwargs) log
    = (Raise (Exn ValueError (Some msg)), log)
  ∧ Str.contains msg format_type
  ∧ Str.contains msg "'coco'" ∧ Str.contains msg "'yolo'" ∧ Str.contains msg "'voc'".
Proof.
  intros Hc Hy Hv msg.
  assert (Hnot : format_type ∉ Converter.format_keys).
  { unfold Converter.format_keys. rewrite !not_elem_of_cons. by repeat split; [..|apply not_elem_of_nil]. }
  unfold Converter.read, Converter.write.
  destruct (decide (format_type ∈ Converter.format_keys)) as [Hin|_]; [done|].
  pose proof (unsupported_message_contains format_type) as [Hm Hk].
  unfold Converter.format_keys in Hk.
  apply Forall_cons in Hk as [Hk1 Hk]. apply Forall_cons in Hk as [Hk2 Hk].
  apply Forall_cons in Hk as [Hk3 _].
  by repeat split.
Qed.

Lemma Converter_unsupported_format_witness :
  let msg := "Unsupported format: pascal. Supported formats: ['coco', 'yolo', 'voc']" in
  run (Converter.read (λ _, Ok Dataset_new) "pascal" "in" ∅) []
    = (Raise (Exn ValueError (Some msg)), [])
  ∧ run (Converter.write (λ _, (Ok (), Dataset_new)) (λ p, p) "pascal" Dataset_new "out" ∅) []
    = (Raise (Exn ValueError (Some msg)), [])
  ∧ Str.contains msg "pascal"
  ∧ Str.contains msg "'coco'" ∧ Str.contains msg "'yolo'" ∧ Str.contains msg "'voc'".
Proof.
  apply (Converter_unsupported_format (λ _, Ok Dataset_new)
           (λ _, (Ok (), Dataset_new)) (λ p, p) "pascal" "in" Dataset_new ∅ []);
    discriminate.
Defined.

(** ** The Pascal VOC reader *)

Section voc_reader.
Import PascalVOCReader.

Lemma elem_of_add_object_names objs (set : gset string) n :
  n ∈ fold_left add_object_name objs set
  ↔ n ∈ set ∨ ∃ obj, obj ∈ objs ∧ child_text obj "name" = Some n.
Proof.
  revert set. induction objs as [|obj objs IH]; intros set; simpl.
  - split; [by left|]. intros [H|(obj & H & _)]; [done|]. by apply elem_of_nil in H.
  - rewrite IH. unfold add_object_name. split.
    + intros [H|(o & Ho & Hn)].
      * destruct (child_text obj "name") as [m|] eqn:Hm; [|by left].
        apply elem_of_union in H as [H|H]; [|by left].
        apply elem_of_singleton in H as ->. right. exists obj. split; [left|done].
      * right. exists o. split; [by right|done].
    + intros [H|(o & Ho & Hn)].
      * left. destruct (child_text obj "name"); [|done]. apply elem_of_union. by right.
      * apply elem_of_cons in Ho as [->|Ho].
        -- left. rewrite Hn. apply elem_of_union. left. by apply elem_of_singleton.
        -- right. by exists o.
Qed.

Lemma elem_of_fold_add_names xml_files (set : gset string) n :
  n ∈ fold_left add_names xml_files set ↔ n ∈ set ∨ declared xml_files n.
Proof.
  revert set. induction xml_files as [|root files IH]; intros set; simpl.
  - split; [by left|]. intros [H|(r & o & H & _)]; [done|]. by apply elem_of_nil in H.
  - rewrite IH. unfold add_names. rewrite elem_of_add_object_names. split.
    + intros [[H|(o & Ho & Hn)]|(r & o & Hr & Ho & Hn)].
      * by left.
      * right. exists root, o. split; [left|done].
      * right. exists r, o. split; [by right|done].
    + intros [H|(r & o & Hr & Ho & Hn)].
      * by left; left.
      * apply elem_of_cons in Hr as [->|Hr].
        -- left; right. by exists o.
        -- right. by exists r, o.
Qed.

Lemma elem_of_collect_names xml_files n :
  n ∈ collect_names xml_files ↔ declared xml_files n.
Proof.
  unfold collect_names. rewrite elem_of_fold_add_names.
  split; [intros [H|H]; [by apply not_elem_of_empty in H|done]|by right].
Qed.

Lemma declared_Permutation files files' n :
  files ≡ₚ files' → declared files n → declared files' n.
Proof.
  intros Hp (r & o & Hr & Ho). exists r, o. by rewrite <- Hp.
Qed.

(** The set of names does not depend on the order of the files. *)
Lemma collect_names_Permutation files files' :
  files ≡ₚ files' → collect_names files = collect_names files'.
Proof.
  intros Hp. apply set_eq. intros n. rewrite !elem_of_collect_names.
  split; apply declared_Permutation; done.
Qed.

Lemma make_categories_fst names : ∀ start cats m,
  (fold_left add_category_entry (enumerate start names) (cats, m)).1
  = cats ++ imap (λ i n, mkCategory (start + Z.of_nat i) n None) names.
Proof.
  induction names as [|n names IH]; intros start cats m; simpl.
  - by rewrite app_nil_r.
  - rewrite IH, <- app_assoc. simpl. rewrite Z.add_0_r. do 2 f_equal.
    apply imap_ext. intros i x _. simpl. f_equal. lia.
Qed.

Lemma read_categories xml_files ds :
  read xml_files = Ok ds →
  categories ds
  = imap (λ i n, mkCategory (Z.of_nat i) n None)
      (sorted_names (collect_names xml_files)).
Proof.
  unfold read, make_categories. intros H.
  pose proof (make_categories_fst (sorted_names (collect_names xml_files)) 0 [] ∅) as Hc.
  destruct (fold_left _ _ _) as [cats category_map]. simpl in Hc. subst cats.
  destruct (foldM _ _ _) as [imgs|e]; simpl in H; [|done].
  by injection H as <-.
Qed.

Lemma sorted_names_spec (set : gset string) :
  StronglySorted String.le (sorted_names set)
  ∧ NoDup (sorted_names set)
  ∧ ∀ n, n ∈ sorted_names set ↔ n ∈ set.
Proof.
  unfold sorted_names. split; [|split].
  - apply StronglySorted_merge_sort; apply _.
  - rewrite merge_sort_Permutation. apply NoDup_elements.
  - intros n. rewrite merge_sort_Permutation. apply elem_of_elements.
Qed.

(** A sorted list without duplicates is determined by its elements. *)
Lemma sorted_names_unique (set : gset string) (l : list string) :
  StronglySorted String.le l → NoDup l → (∀ n, n ∈ l ↔ n ∈ set) →
  sorted_names set = l.
Proof.
  intros Hs Hn Hl. destruct (sorted_names_spec set) as (Hs' & Hn' & Hl').
  apply (StronglySorted_unique String.le); [done..|].
  apply NoDup_Permutation; [done..|]. intros n. by rewrite Hl, Hl'.
Qed.

Lemma fmap_name_imap (names : list string) :
  name <$> imap (λ i n, mkCategory (Z.of_nat i) n None) names = names.
Proof.
  rewrite fmap_imap.
  rewrite (imap_ext _ (const (λ n : string, n)) names) by done.
  rewrite imap_const. apply list_fmap_id.
Qed.

End voc_reader.

(** C4: the categories of a dataset read from a directory of XML files are
    the distinct names of the objects of all files, in ascending order of
    name, numbered 0, 1, 2, ...; they are the same for every order in which
    the files are enumerated.  When the names are "cat" and "dog", however
    many files declare each, the categories are cat = 0 and dog = 1. *)
Theorem PascalVOCReader_categories (xml_files : list Element) (ds : Dataset) :
  PascalVOCReader.read xml_files = Ok ds →
  let names := name <$> categories ds in
  categories ds = imap (λ i n, mkCategory (Z.of_nat i) n None) names
  ∧ (∀ n, n ∈ names ↔ declared xml_files n)
  ∧ NoDup names
  ∧ StronglySorted String.le names
  ∧ (∀ files' ds', files' ≡ₚ xml_files → PascalVOCReader.read files' = Ok ds' →
       categories ds' = categories ds)
  ∧ ((∀ n, declared xml_files n ↔ n = "cat" ∨ n = "dog") →
       categories ds = [mkCategory 0 "cat" None; mkCategory 1 "dog" None]).
Proof.
  intros Hread names. pose proof (read_categories _ _ Hread) as Hcats.
  assert (Hnames : names = PascalVOCReader.sorted_names
                             (PascalVOCReader.collect_names xml_files)).
  { unfold names. rewrite Hcats. apply fmap_name_imap. }
  destruct (sorted_names_spec (PascalVOCReader.collect_names xml_files))
    as (Hs & Hn & Hl).
  rewrite <- Hnames in Hs, Hn, Hl, Hcats.
  split; [done|]. split.
  { intros n. by rewrite Hl, elem_of_collect_names. }
  split; [done|]. split; [done|]. split.
  - intros files' ds' Hp Hread'.
    rewrite (read_categories _ _ Hread'), Hcats, Hnames.
    by rewrite (collect_names_Permutation _ _ Hp).
  - intros Hcd. rewrite Hcats, Hnames.
    rewrite (sorted_names_unique _ ["cat"; "dog"]); [done|..].
    + repeat constructor.
    + repeat constructor; set_solver.
    + intros n. rewrite elem_of_collect_names, Hcd. set_solver.
Qed.

(** ** The YOLO reader *)

Lemma foldM_app {A B} (body : B → A → result B) l1 l2 acc :
  foldM body (l1 ++ l2) acc = foldM body l1 acc ≫= foldM body l2.
Proof.
  revert acc. induction l1 as [|x l1 IH]; intros acc; simpl; [done|].
  destruct (body acc x) as [acc'|e]; simpl; [apply IH|done].
Qed.

Section yolo_reader.
Import YOLOReader.

Lemma read_line_tokens class_names w h line p0 p1 p2 p3 p4 :
  tokens line = [p0; p1; p2; p3; p4] →
  read_line class_names w h line =
    (class_id ← py_int p0;
     x_center ← py_float p1;
     y_center ← py_float p2;
     bw ← py_float p3;
     bh ← py_float p4;
     box ← from_yolo x_center y_center bw bh w h;
     cname ← (if class_id <? Z.of_nat (length class_names)
              then getitem class_names class_id
              else Ok "unknown");
     Ok (Some (Annotation_new box class_id cname None None None None))).
Proof.
  unfold tokens, read_line. intros Ht.
  destruct (decide (Str.strip line = EmptyString)) as [He|_].
  - by rewrite He in Ht.
  - by rewrite Ht.
Qed.

(** A line that does not have exactly five tokens is passed over. *)
Lemma read_line_skip class_names w h line :
  length (tokens line) ≠ 5%nat → read_line class_names w h line = Ok None.
Proof.
  unfold tokens, read_line. intros Hn.
  destruct (decide (Str.strip line = EmptyString)); [done|].
  destruct (Str.split (Str.strip line)) as [|p0 [|p1 [|p2 [|p3 [|p4 [|p5 ps]]]]]];
    done.
Qed.

Lemma read_lines_well_formed class_names lines : ∀ image anns,
  Forall2
    (λ line a, read_line class_names (width image) (height image) line = Ok (Some a))
    (filter (λ line, length (tokens line) = 5%nat) lines) anns →
  read_lines class_names image lines = Ok (with_annotations image anns).
Proof.
  unfold read_lines.
  induction lines as [|line lines IH]; intros image anns Hall; simpl.
  - apply Forall2_nil_inv_l in Hall as ->. unfold with_annotations.
    rewrite app_nil_r. by destruct image.
  - destruct (decide (length (tokens line) = 5%nat)) as [H5|H5].
    + rewrite filter_cons_True in Hall by done.
      apply Forall2_cons_inv_l in Hall as (a & anns' & Ha & Hall & ->).
      rewrite Ha. simpl.
      rewrite (IH (add_annotation image a) anns' Hall).
      unfold with_annotations, add_annotation. simpl. by rewrite <- app_assoc.
    + rewrite filter_cons_False in Hall by done.
      rewrite (read_line_skip _ _ _ _ H5). simpl. by apply IH.
Qed.

(** Leaving out the lines without five tokens does not change the outcome. *)
Lemma read_lines_filter class_names lines : ∀ image,
  read_lines class_names image lines
  = read_lines class_names image
      (filter (λ line, length (tokens line) = 5%nat) lines).
Proof.
  unfold read_lines.
  induction lines as [|line lines IH]; intros image; simpl; [done|].
  destruct (decide (length (tokens line) = 5%nat)) as [H5|H5].
  - rewrite filter_cons_True by done. simpl.
    destruct (read_line _ _ _ line) as [r|e]; simpl; [apply IH|done].
  - rewrite filter_cons_False by done.
    rewrite (read_line_skip _ _ _ _ H5). simpl. apply IH.
Qed.

End yolo_reader.

(** C5: the lines of a label file that do not split into exactly five
    tokens are passed over, and the other lines, when each is well formed,
    give the image one annotation each, in the order of the file: the
    reading of the file ends normally.  Whatever the other lines are, the
    outcome is the one of the file without the passed-over lines. *)
Theorem YOLOReader_skips_malformed_lines (class_names : list string)
    (image : Image) (lines : list string) (anns : list Annotation) :
  Forall2
    (λ line a,
       YOLOReader.read_line class_names (width image) (height image) line = Ok (Some a))
    (filter (λ line, length (YOLOReader.tokens line) = 5%nat) lines) anns →
  YOLOReader.read_lines class_names image lines = Ok (with_annotations image anns)
  ∧ Forall
      (λ line,
         length (YOLOReader.tokens line) ≠ 5%nat →
         YOLOReader.read_line class_names (width image) (height image) line = Ok None)
      lines
  ∧ YOLOReader.read_lines class_names image lines
    = YOLOReader.read_lines class_names image
        (filter (λ line, length (YOLOReader.tokens line) = 5%nat) lines).
Proof.
  intros Hall. split; [|split].
  - by apply read_lines_well_formed.
  - apply Forall_forall. intros line _. apply read_line_skip.
  - apply read_lines_filter.
Qed.

Lemma YOLOReader_skips_malformed_lines_witness :
  Forall2
    (λ line a, YOLOReader.read_line Examples.class_names 100 200 line = Ok (Some a))
    (filter (λ line, length (YOLOReader.tokens line) = 5%nat) Examples.label_lines)
    Examples.label_annotations
  ∧ YOLOReader.read_lines Examples.class_names Examples.image Examples.label_lines
    = Ok (with_annotations Examples.image Examples.label_annotations)
  ∧ length Examples.label_annotations = 2%nat.
Proof.
  assert (H : Forall2
    (λ line a, YOLOReader.read_line Examples.class_names 100 200 line = Ok (Some a))
    (filter (λ line, length (YOLOReader.tokens line) = 5%nat) Examples.label_lines)
    Examples.label_annotations).
  { repeat constructor. }
  split; [exact H|]. split; [|reflexivity].
  exact (proj1 (YOLOReader_skips_malformed_lines Examples.class_names Examples.image
                  Examples.label_lines Examples.label_annotations H)).
Defined.

Section yolo_reader_errors.
Import YOLOReader.

Lemma raises_bind_l {A B} (m : result A) (f : A → result B) c :
  raises m c → raises (m ≫= f) c.
Proof. intros [msg ->]. by exists msg. Qed.

(** With five tokens, a token that is not a number ends the body of the
    loop with a ValueError. *)
Lemma read_line_non_numeric class_names w h line p0 p1 p2 p3 p4 :
  tokens line = [p0; p1; p2; p3; p4] →
  int_literal p0 = None ∨ float_literal p1 = None ∨ float_literal p2 = None
    ∨ float_literal p3 = None ∨ float_literal p4 = None →
  raises (read_line class_names w h line) ValueError.
Proof.
  intros Ht Hbad. rewrite (read_line_tokens _ _ _ _ _ _ _ _ _ Ht).
  unfold py_int, py_float.
  destruct (int_literal p0) as [c|]; [|by exists None].
  destruct (float_literal p1) as [x1|]; [|by exists None].
  destruct (float_literal p2) as [x2|]; [|by exists None].
  destruct (float_literal p3) as [x3|]; [|by exists None].
  destruct (float_literal p4) as [x4|]; [|by exists None].
  by destruct Hbad as [?|[?|[?|[?|?]]]].
Qed.

Lemma read_lines_raises class_names image image' pre line post c :
  read_lines class_names image pre = Ok image' →
  raises (read_line class_names (width image') (height image') line) c →
  raises (read_lines class_names image (pre ++ line :: post)) c.
Proof.
  unfold read_lines. intros Hpre [msg Hline].
  rewrite foldM_app, Hpre. simpl. rewrite Hline. by exists msg.
Qed.

Lemma read_lines_size class_names lines : ∀ image image',
  read_lines class_names image lines = Ok image' →
  width image' = width image ∧ height image' = height image.
Proof.
  unfold read_lines.
  induction lines as [|line lines IH]; intros image image' H; simpl in H.
  - by injection H as <-.
  - destruct (read_line _ _ _ line) as [[a|]|e]; simpl in H; [..|done].
    + by apply IH in H.
    + by apply IH in H.
Qed.

(** The loop over the lines adds annotations to the image and changes
    nothing else. *)
Lemma read_lines_keeps class_names lines : ∀ image image',
  read_lines class_names image lines = Ok image' →
  ∃ more, image' = with_annotations image more.
Proof.
  unfold read_lines.
  induction lines as [|line lines IH]; intros image image' H; simpl in H.
  - injection H as <-. exists []. unfold with_annotations.
    rewrite app_nil_r. by destruct image.
  - destruct (read_line _ _ _ line) as [[a|]|e]; simpl in H; [..|done].
    + apply IH in H as [more ->]. exists (a :: more).
      unfold with_annotations, add_annotation. simpl. by rewrite <- app_assoc.
    + by apply IH in H.
Qed.

Lemma read_lines_app class_names image pre post :
  read_lines class_names image (pre ++ post)
  = read_lines class_names image pre ≫= λ image', read_lines class_names image' post.
Proof. unfold read_lines. apply foldM_app. Qed.

(** A line that gives an annotation stores it in the image. *)
Lemma read_lines_stores class_names image image' pre line a :
  read_lines class_names image pre = Ok image' →
  read_line class_names (width image) (height image) line = Ok (Some a) →
  read_lines class_names image (pre ++ [line]) = Ok (add_annotation image' a).
Proof.
  intros Hpre Hline. rewrite read_lines_app, Hpre.
  destruct (read_lines_size _ _ _ _ Hpre) as [Hw Hh].
  unfold read_lines. cbn [mbind result_bind foldM]. by rewrite Hw, Hh, Hline.
Qed.

Variable exists_image : string → bool.
Variable image_size : string → result (Z * Z).

(** The loop over the label files adds images and changes none. *)
Lemma read_label_files_keeps class_names ext files : ∀ imgs imgs',
  foldM (read_label_file exists_image image_size class_names ext) files imgs = Ok imgs' →
  ∃ more, imgs' = imgs ++ more.
Proof.
  induction files as [|[stem lines] files IH]; intros imgs imgs' H; simpl in H.
  - injection H as <-. exists []. by rewrite app_nil_r.
  - destruct (find_image exists_image stem ext) as [nm|]; [|by apply IH in H].
    destruct (image_size nm) as [[w h]|[[] msg]]; simpl in H; try done;
      [|by apply IH in H].
    destruct (read_lines _ _ lines) as [image|e]; simpl in H; [|done].
    apply IH in H as [more ->]. exists (image :: more). by rewrite <- app_assoc.
Qed.

(** An annotation that a line has stored is in the dataset that [read]
    returns: in the image of the label file, at the position that it got. *)
Lemma read_stores pre_files post_files stem pre post line classes_lines ext imgs nm
    w h image a ds :
  foldM (read_label_file exists_image image_size (read_classes classes_lines) ext)
    pre_files [] = Ok imgs →
  find_image exists_image stem ext = Some nm →
  image_size nm = Ok (w, h) →
  read_lines (read_classes classes_lines) (mkImage nm w h [] None) pre = Ok image →
  read_line (read_classes classes_lines) w h line = Ok (Some a) →
  read exists_image image_size (pre_files ++ (stem, pre ++ line :: post) :: post_files)
    classes_lines ext = Ok ds →
  ∃ image', images ds !! length imgs = Some image'
            ∧ file_name image' = nm
            ∧ annotations image' !! length (annotations image) = Some a.
Proof.
  intros Hfiles Hfind Hsize Hpre Hline. unfold read.
  rewrite foldM_app, Hfiles. simpl. rewrite Hfind, Hsize. simpl.
  rewrite (cons_middle line pre post), app_assoc, read_lines_app.
  rewrite (read_lines_stores _ _ _ _ _ _ Hpre Hline). simpl.
  destruct (read_lines _ (add_annotation image a) post) as [image'|e] eqn:Hpost;
    simpl; [|done].
  destruct (foldM _ post_files _) as [imgs'|e] eqn:Hrest; simpl; [|done].
  intros [= <-]. simpl.
  apply read_label_files_keeps in Hrest as [more ->].
  apply read_lines_keeps in Hpost as [more' ->].
  apply read_lines_keeps in Hpre as [anns ->].
  exists (with_annotations (add_annotation (with_annotations (mkImage nm w h [] None) anns) a)
            more').
  split; [|split; [done|]].
  - rewrite <- app_assoc. by apply list_lookup_middle.
  - simpl. rewrite <- app_assoc. by apply list_lookup_middle.
Qed.

(** An exception in the lines of a label file leaves [read]. *)
Lemma read_raises pre_files post_files stem lines classes_lines ext imgs nm w h c :
  foldM (read_label_file exists_image image_size (read_classes classes_lines) ext)
    pre_files [] = Ok imgs →
  find_image exists_image stem ext = Some nm →
  image_size nm = Ok (w, h) →
  raises (read_lines (read_classes classes_lines) (mkImage nm w h [] None) lines) c →
  raises (read exists_image image_size (pre_files ++ (stem, lines) :: post_files)
            classes_lines ext) c.
Proof.
  intros Hpre Hfind Hsize [msg Hlines]. unfold read.
  rewrite foldM_app, Hpre. simpl. rewrite Hfind, Hsize. simpl.
  rewrite Hlines. by exists msg.
Qed.

End yolo_reader_errors.

(** C9: a line of exactly five tokens whose first token is no integer
    literal, or one of whose other tokens is no float literal, is not passed
    over: the body of the loop raises a ValueError, which leaves the reader
    when the files and lines before it have been read. *)
Theorem YOLOReader_raises_on_non_numeric_token
    (exists_image : string → bool) (image_size : string → result (Z * Z))
    (pre_files post_files : list (string * list string)) (stem : string)
    (pre post : list string) (line : string) (classes_lines : list string)
    (ext : string) (imgs : list Image) (nm : string) (w h : Z) (image : Image)
    (p0 p1 p2 p3 p4 : string) :
  YOLOReader.tokens line = [p0; p1; p2; p3; p4] →
  int_literal p0 = None ∨ float_literal p1 = None ∨ float_literal p2 = None
    ∨ float_literal p3 = None ∨ float_literal p4 = None →
  foldM (YOLOReader.read_label_file exists_image image_size
           (YOLOReader.read_classes classes_lines) ext) pre_files [] = Ok imgs →
  YOLOReader.find_image exists_image stem ext = Some nm →
  image_size nm = Ok (w, h) →
  YOLOReader.read_lines (YOLOReader.read_classes classes_lines)
    (mkImage nm w h [] None) pre = Ok image →
  raises (YOLOReader.read_line (YOLOReader.read_classes classes_lines) w h line)
    ValueError
  ∧ raises (YOLOReader.read exists_image image_size
              (pre_files ++ (stem, pre ++ line :: post) :: post_files)
              classes_lines ext) ValueError.
Proof.
  intros Ht Hbad Hfiles Hfind Hsize Hpre.
  split; [by eapply read_line_non_numeric|].
  eapply read_raises; [done..|].
  eapply read_lines_raises; [done|].
  apply read_lines_size in Hpre as [-> ->]. simpl.
  by eapply read_line_non_numeric.
Qed.

Lemma YOLOReader_raises_on_non_numeric_token_witness :
  let exists_image := λ _ : string, true in
  let image_size := λ _ : string, Ok (100, 200) in
  YOLOReader.tokens "1.0 0.5 0.5 0.2 0.2" = ["1.0"; "0.5"; "0.5"; "0.2"; "0.2"]
  ∧ int_literal "1.0" = None
  ∧ raises (YOLOReader.read_line ["cat"; "dog"] 100 200 "1.0 0.5 0.5 0.2 0.2") ValueError
  ∧ raises (YOLOReader.read exists_image image_size
              [("img1", ["0 0.5 0.5 0.2 0.2"; "1.0 0.5 0.5 0.2 0.2"])]
              ["cat"; "dog"] ".jpg") ValueError.
Proof.
  intros exists_image image_size.
  split; [reflexivity|]. split; [reflexivity|].
  apply (YOLOReader_raises_on_non_numeric_token exists_image image_size
           [] [] "img1" ["0 0.5 0.5 0.2 0.2"] [] "1.0 0.5 0.5 0.2 0.2"
           ["cat"; "dog"] ".jpg" [] "img1.jpg" 100 200
           (with_annotations (mkImage "img1.jpg" 100 200 [] None)
              (take 1 Examples.label_annotations))
           "1.0" "0.5" "0.5" "0.2" "0.2").
  - reflexivity.
  - left. reflexivity.
  - reflexivity.
  - reflexivity.
  - reflexivity.
  - vm_compute. reflexivity.
Defined.

Lemma getitem_negative {A} (l : list A) (i : Z) :
  - Z.of_nat (length l) ≤ i ≤ -1 →
  ∃ x, l !! Z.to_nat (Z.of_nat (length l) + i) = Some x ∧ getitem l i = Ok x.
Proof.
  intros Hi. unfold getitem.
  destruct (Z.ltb_spec i 0) as [_|?]; [|lia].
  destruct (lookup_lt_is_Some_2 l (Z.to_nat (Z.of_nat (length l) + i))) as [x Hx]; [lia|].
  exists x. split; [done|].
  replace (i + Z.of_nat (length l)) with (Z.of_nat (length l) + i) by lia.
  rewrite Hx.
  destruct (Z.leb_spec 0 (Z.of_nat (length l) + i)); [|lia].
  destruct (Z.ltb_spec (Z.of_nat (length l) + i) (Z.of_nat (length l))); [done|lia].
Qed.

Lemma getitem_below {A} (l : list A) (i : Z) :
  i < - Z.of_nat (length l) → getitem l i = builtin_error IndexError.
Proof.
  intros Hi. unfold getitem.
  destruct (Z.ltb_spec i 0) as [_|?]; [|lia].
  by destruct (Z.leb_spec 0 (i + Z.of_nat (length l))); [lia|].
Qed.

(** C10: a negative class id c on a well-formed line is not given the name
    "unknown".  With n class names and -n <= c <= -1 the line gives an
    annotation with category id c and the name at position n + c of the
    class list; the reader stores it in the image of the label file, after
    the annotations of the lines before it, and the dataset that the reader
    returns has it there.  With c < -n the body of the loop raises an
    IndexError, which leaves the reader. *)
Theorem YOLOReader_negative_class_id
    (exists_image : string → bool) (image_size : string → result (Z * Z))
    (pre_files post_files : list (string * list string)) (stem : string)
    (pre post : list string) (line : string) (classes_lines : list string)
    (ext : string) (imgs : list Image) (nm : string) (w h : Z) (image : Image)
    (p0 p1 p2 p3 p4 : string) (c : Z) (xc yc bw bh : float) (box : BBox float) :
  YOLOReader.tokens line = [p0; p1; p2; p3; p4] →
  py_int p0 = Ok c →
  py_float p1 = Ok xc → py_float p2 = Ok yc →
  py_float p3 = Ok bw → py_float p4 = Ok bh →
  from_yolo xc yc bw bh w h = Ok box →
  foldM (YOLOReader.read_label_file exists_image image_size
           (YOLOReader.read_classes classes_lines) ext) pre_files [] = Ok imgs →
  YOLOReader.find_image exists_image stem ext = Some nm →
  image_size nm = Ok (w, h) →
  YOLOReader.read_lines (YOLOReader.read_classes classes_lines)
    (mkImage nm w h [] None) pre = Ok image →
  let class_names := YOLOReader.read_classes classes_lines in
  let n := Z.of_nat (length class_names) in
  let label_files := pre_files ++ (stem, pre ++ line :: post) :: post_files in
  (- n ≤ c ≤ -1 →
     ∃ cname,
       class_names !! Z.to_nat (n + c) = Some cname
       ∧ let a := mkAnnotation box c cname false false
                    (Some ((x_max box - x_min box) * (y_max box - y_min box))%float)
                    0 in
         YOLOReader.read_line class_names w h line = Ok (Some a)
         ∧ YOLOReader.read_lines class_names (mkImage nm w h [] None) (pre ++ [line])
           = Ok (add_annotation image a)
         ∧ ∀ ds, YOLOReader.read exists_image image_size label_files classes_lines ext
                 = Ok ds →
                 ∃ image', images ds !! length imgs = Some image'
                           ∧ file_name image' = nm
                           ∧ annotations image' !! length (annotations image) = Some a)
  ∧ (c < - n →
     raises (YOLOReader.read_line class_names w h line) IndexError
     ∧ raises (YOLOReader.read exists_image image_size label_files classes_lines ext)
         IndexError).
Proof.
  intros Ht Hc Hxc Hyc Hbw Hbh Hbox Hfiles Hfind Hsize Hpre class_names n label_files.
  pose proof (read_line_tokens class_names w h _ _ _ _ _ _ Ht) as Hline.
  rewrite Hc, Hxc, Hyc, Hbw, Hbh in Hline. simpl in Hline.
  rewrite Hbox in Hline. simpl in Hline. split.
  - intros Hrange. destruct (getitem_negative class_names c Hrange) as (cname & Hl & Hg).
    exists cname. split; [done|].
    destruct (Z.ltb_spec c (Z.of_nat (length class_names))); [|lia].
    rewrite Hg in Hline. simpl in Hline.
    split; [exact Hline|]. split.
    + eapply read_lines_stores; [done|]. exact Hline.
    + intros ds Hds.
      exact (read_stores exists_image image_size _ _ _ _ _ _ _ _ _ _ _ _ _ _ _
               Hfiles Hfind Hsize Hpre Hline Hds).
  - intros Hlow. destruct (Z.ltb_spec c (Z.of_nat (length class_names))); [|lia].
    rewrite (getitem_below _ _ Hlow) in Hline. simpl in Hline.
    assert (Hr : raises (YOLOReader.read_line class_names w h line) IndexError)
      by (exists None; exact Hline).
    split; [exact Hr|].
    eapply read_raises; [done..|].
    eapply read_lines_raises; [done|].
    apply read_lines_size in Hpre as [-> ->]. exact Hr.
Qed.

Lemma YOLOReader_negative_class_id_witness :
  let exists_image := λ _ : string, true in
  let image_size := λ _ : string, Ok (100, 200) in
  let a := mkAnnotation Examples.centre_box (-1) "dog" false false (Some 800%float) 0 in
  (YOLOReader.tokens "-1 0.5 0.5 0.2 0.2" = ["-1"; "0.5"; "0.5"; "0.2"; "0.2"]
   ∧ py_int "-1" = Ok (-1)
   ∧ YOLOReader.read_line ["cat"; "dog"] 100 200 "-1 0.5 0.5 0.2 0.2" = Ok (Some a)
   ∧ ∀ ds, YOLOReader.read exists_image image_size
             [("img1", ["0 0.5 0.5 0.2 0.2"; "-1 0.5 0.5 0.2 0.2"])]
             ["cat"; "dog"] ".jpg" = Ok ds →
           ∃ image', images ds !! 0%nat = Some image'
                     ∧ file_name image' = "img1.jpg"%string
                     ∧ annotations image' !! 1%nat = Some a)
  ∧ (py_int "-3" = Ok (-3)
     ∧ raises (YOLOReader.read exists_image image_size
                 [("img1", ["0 0.5 0.5 0.2 0.2"; "-3 0.5 0.5 0.2 0.2"])]
                 ["cat"; "dog"] ".jpg") IndexError).
Proof.
  intros exists_image image_size a.
  assert (Hpre : YOLOReader.read_lines (YOLOReader.read_classes ["cat"; "dog"])
                   (mkImage "img1.jpg" 100 200 [] None) ["0 0.5 0.5 0.2 0.2"]
                 = Ok (with_annotations (mkImage "img1.jpg" 100 200 [] None)
                         (take 1 Examples.label_annotations)))
    by (vm_compute; reflexivity).
  split.
  - split; [reflexivity|]. split; [reflexivity|].
    destruct (proj1 (YOLOReader_negative_class_id exists_image image_size
                [] [] "img1" ["0 0.5 0.5 0.2 0.2"] [] "-1 0.5 0.5 0.2 0.2"
                ["cat"; "dog"] ".jpg" [] "img1.jpg" 100 200 _
                "-1" "0.5" "0.5" "0.2" "0.2" (-1) 0.5 0.5 0.2 0.2 Examples.centre_box
                eq_refl eq_refl eq_refl eq_refl eq_refl eq_refl eq_refl
                eq_refl eq_refl eq_refl Hpre))
      as (cname & Hname & Hline & _ & Hds); [simpl; lia|].
    injection Hname as <-. split; [exact Hline|exact Hds].
  - split; [reflexivity|].
    apply (proj2 (YOLOReader_negative_class_id exists_image image_size
                [] [] "img1" ["0 0.5 0.5 0.2 0.2"] [] "-3 0.5 0.5 0.2 0.2"
                ["cat"; "dog"] ".jpg" [] "img1.jpg" 100 200 _
                "-3" "0.5" "0.5" "0.2" "0.2" (-3) 0.5 0.5 0.2 0.2 Examples.centre_box
                eq_refl eq_refl eq_refl eq_refl eq_refl eq_refl eq_refl
                eq_refl eq_refl eq_refl Hpre)).
    simpl. lia.
Defined.

Lemma declared_example n :
  declared Examples.xml_files n ↔ n = "cat" ∨ n = "dog".
Proof.
  split.
  - intros (root & obj & Hr & Ho & Hn). unfold Examples.xml_files in Hr.
    repeat (apply elem_of_cons in Hr as [->|Hr]); [..|by apply elem_of_nil in Hr].
    all: vm_compute in Ho; apply list_elem_of_singleton in Ho as ->.
    all: vm_compute in Hn; injection Hn as <-; auto.
  - intros [->| ->].
    + exists (Examples.xml_file "2.jpg" "cat"), (Examples.xml_object "cat").
      split; [|split; [|reflexivity]].
      * unfold Examples.xml_files. apply elem_of_cons. right. apply elem_of_cons. by left.
      * vm_compute. by apply list_elem_of_singleton.
    + exists (Examples.xml_file "1.jpg" "dog"), (Examples.xml_object "dog").
      split; [|split; [|reflexivity]].
      * unfold Examples.xml_files. apply elem_of_cons. by left.
      * vm_compute. by apply list_elem_of_singleton.
Qed.

Lemma PascalVOCReader_categories_witness :
  PascalVOCReader.read Examples.xml_files = Ok Examples.xml_dataset
  ∧ categories Examples.xml_dataset
    = [mkCategory 0 "cat" None; mkCategory 1 "dog" None].
Proof.
  assert (H : PascalVOCReader.read Examples.xml_files = Ok Examples.xml_dataset)
    by (vm_compute; reflexivity).
  split; [exact H|].
  destruct (PascalVOCReader_categories _ _ H) as (_ & _ & _ & _ & _ & Hcd).
  apply Hcd, declared_example.
Defined.

(** ** Binary64 arithmetic without rounding *)

Lemma digits2_pos_log2 p : Zpos (digits2_pos p) = Z.log2 (Zpos p) + 1.
Proof.
  induction p as [p IH|p IH|]; [..|done].
  - cbn [digits2_pos]. rewrite Pos2Z.inj_succ, IH.
    rewrite Pos2Z.inj_xI, Z.log2_succ_double by done. lia.
  - cbn [digits2_pos]. rewrite Pos2Z.inj_succ, IH.
    rewrite Pos2Z.inj_xO, Z.log2_double by done. lia.
Qed.

Lemma Zpos_iter_xO m d : Zpos (Pos.iter xO m d) = Zpos m * 2 ^ Zpos d.
Proof.
  induction d as [|d IH] using Pos.peano_ind.
  - simpl. lia.
  - rewrite Pos.iter_succ, Pos2Z.inj_xO, IH, Pos2Z.inj_succ, Z.pow_succ_r by lia. lia.
Qed.

Lemma iter_pos_iter {A} (f : A → A) p : ∀ x, SpecFloat.iter_pos f p x = Pos.iter f x p.
Proof.
  induction p as [p IH|p IH|]; intros x; simpl; [|by rewrite !IH|done].
  by rewrite !IH, !Pos.iter_swap.
Qed.

Lemma iter_shr_1_exact d : ∀ m,
  SpecFloat.iter_pos shr_1 d (Build_shr_record (Zpos (Pos.iter xO m d)) false false)
  = Build_shr_record (Zpos m) false false.
Proof.
  intros m. rewrite iter_pos_iter.
  induction d as [|d IH] using Pos.peano_ind; [done|].
  rewrite (Pos.iter_succ _ _ xO), Pos.iter_succ, <- Pos.iter_swap. simpl. apply IH.
Qed.

Lemma bounded_spec m e :
  bounded prec emax m e = true →
  fexp prec emax (Zpos (digits2_pos m) + e) = e ∧ e ≤ 971 ∧ -1074 ≤ e.
Proof.
  unfold bounded, canonical_mantissa. intros H.
  apply andb_prop in H as [H1 H2].
  apply Z.eqb_eq in H1. apply Z.leb_le in H2.
  split; [done|]. split; [done|].
  revert H1. unfold fexp, emin, prec, emax. lia.
Qed.

(** A mantissa that is a canonical one shifted left rounds to it. *)
Lemma binary_round_aux_exact s m e M E :
  bounded prec emax m e = true →
  E ≤ e → Zpos M = Zpos m * 2 ^ (e - E) →
  binary_round_aux prec emax s (Zpos M) E loc_Exact = S754_finite s m e.
Proof.
  intros Hb HE HM. destruct (bounded_spec _ _ Hb) as (Hf & Hmax & Hmin).
  assert (Hd : Zpos (digits2_pos M) + E = Zpos (digits2_pos m) + e).
  { rewrite !digits2_pos_log2, HM, Z.log2_mul_pow2 by lia. lia. }
  unfold binary_round_aux.
  assert (Hshr : shr_fexp prec emax (Zpos M) E loc_Exact
                 = (Build_shr_record (Zpos m) false false, e)).
  { unfold shr_fexp. cbn [Zdigits2 shr_record_of_loc]. rewrite Hd, Hf.
    unfold shr. destruct (e - E) as [|d|d] eqn:Hsub; [..|lia].
    - rewrite Z.pow_0_r, Z.mul_1_r in HM. injection HM as ->.
      f_equal. lia.
    - assert (M = Pos.iter xO m d) as ->.
      { apply Pos2Z.inj. by rewrite Zpos_iter_xO. }
      rewrite iter_shr_1_exact. f_equal. lia. }
  rewrite Hshr. cbn [shr_m loc_of_shr_record round_nearest_even].
  unfold shr_fexp. cbn [Zdigits2 shr_record_of_loc]. rewrite Hf, Z.sub_diag.
  cbn [shr shr_m].
  destruct (Z.leb_spec e (emax - prec)) as [_|Hgt]; [done|].
  unfold emax, prec in Hgt. lia.
Qed.

(** Rounding a number that the format holds returns that number. *)
Lemma binary_round_exact s M E m e :
  bounded prec emax m e = true →
  -1074 ≤ E →
  Zpos M * 2 ^ (E + 1074) = Zpos m * 2 ^ (e + 1074) →
  binary_round prec emax s M E = S754_finite s m e.
Proof.
  intros Hb HE Heq. destruct (bounded_spec _ _ Hb) as (Hf & Hmax & Hmin).
  unfold binary_round.
  destruct (Z.le_gt_cases E e) as [Hle|Hgt].
  - assert (HM : Zpos M = Zpos m * 2 ^ (e - E)).
    { replace (e + 1074) with ((e - E) + (E + 1074)) in Heq by lia.
      rewrite (Z.pow_add_r 2 (e - E) (E + 1074)), Z.mul_assoc in Heq by lia.
      apply Z.mul_reg_r in Heq; [done|]. apply Z.pow_nonzero; lia. }
    assert (Hd : Zpos (digits2_pos M) + E = Zpos (digits2_pos m) + e).
    { rewrite !digits2_pos_log2, HM, Z.log2_mul_pow2 by lia. lia. }
    rewrite Hd, Hf. unfold shl_align.
    destruct (e - E) as [|d|d] eqn:Hsub; [..|lia];
      by apply binary_round_aux_exact; rewrite ?Hsub.
  - assert (Hm : Zpos m = Zpos M * 2 ^ (E - e)).
    { replace (E + 1074) with ((E - e) + (e + 1074)) in Heq by lia.
      rewrite (Z.pow_add_r 2 (E - e) (e + 1074)), Z.mul_assoc in Heq by lia.
      apply Z.mul_reg_r in Heq; [done|]. apply Z.pow_nonzero; lia. }
    assert (Hd : Zpos (digits2_pos M) + E = Zpos (digits2_pos m) + e).
    { rewrite !digits2_pos_log2, Hm, Z.log2_mul_pow2 by lia. lia. }
    rewrite Hd, Hf. unfold shl_align.
    destruct (e - E) as [|d|d] eqn:Hsub; [lia..|].
    assert (m = Pos.iter xO M d) as <-.
    { apply Pos2Z.inj. rewrite Zpos_iter_xO, Hm. f_equal. f_equal. lia. }
    apply binary_round_aux_exact; [done|lia|]. rewrite Z.sub_diag. lia.
Qed.

Lemma shl_align_fst m e e' :
  e' ≤ e → Zpos (fst (shl_align m e e')) = Zpos m * 2 ^ (e - e').
Proof.
  intros Hle. unfold shl_align.
  destruct (e' - e) as [|d|d] eqn:Hsub; [|lia|]; simpl.
  - replace (e - e') with 0 by lia. lia.
  - rewrite Zpos_iter_xO. do 2 f_equal. lia.
Qed.

Lemma cond_Zopp_inj s s' (a b : Z) :
  0 < a → 0 < b → cond_Zopp s a = cond_Zopp s' b → s = s' ∧ a = b.
Proof. destruct s, s'; simpl; intros; split; (done || lia). Qed.

Lemma cond_Zopp_mul s a b : cond_Zopp s a * b = cond_Zopp s (a * b).
Proof. destruct s; simpl; lia. Qed.

Lemma units_pos m e : -1074 ≤ e → 0 < Zpos m * 2 ^ (e + 1074).
Proof. intros He. apply Z.mul_pos_pos; [done|]. apply Z.pow_pos_nonneg; lia. Qed.

(** A number has one canonical representation. *)
Lemma bounded_unique m e m' e' :
  bounded prec emax m e = true → bounded prec emax m' e' = true →
  Zpos m * 2 ^ (e + 1074) = Zpos m' * 2 ^ (e' + 1074) →
  m = m' ∧ e = e'.
Proof.
  intros Hb Hb' Heq.
  destruct (bounded_spec _ _ Hb) as (_ & _ & He).
  pose proof (binary_round_exact false m e m e Hb He eq_refl) as H1.
  pose proof (binary_round_exact false m e m' e' Hb' He Heq) as H2.
  rewrite H1 in H2. by injection H2.
Qed.

Lemma aligned_units s m e ez :
  -1074 ≤ ez → ez ≤ e →
  cond_Zopp s (Zpos (fst (shl_align m e ez))) * 2 ^ (ez + 1074)
  = cond_Zopp s (Zpos m * 2 ^ (e + 1074)).
Proof.
  intros Hz Hle. rewrite shl_align_fst, cond_Zopp_mul by done. f_equal.
  rewrite <- Z.mul_assoc, <- Z.pow_add_r by lia. do 2 f_equal. lia.
Qed.

(** A difference that the format holds is computed without error. *)
Lemma SFsub_exact A B s m e a b :
  valid_binary A = true → valid_binary B = true →
  SF_units A = Some a → SF_units B = Some b →
  bounded prec emax m e = true →
  a - b = cond_Zopp s (Zpos m * 2 ^ (e + 1074)) →
  SF64sub A B = S754_finite s m e.
Proof.
  intros HA HB Ha Hb Hm Heq.
  destruct (bounded_spec _ _ Hm) as (_ & _ & He).
  pose proof (units_pos m e He) as Hpos.
  destruct A as [sa| | |sa ma ea], B as [sb| | |sb mb eb]; simplify_eq/=.
  - destruct s; simpl in Heq; lia.
  - destruct (bounded_spec _ _ HB) as (_ & _ & Heb).
    assert (Hopp : cond_Zopp (negb sb) (Zpos mb * 2 ^ (eb + 1074))
                   = cond_Zopp s (Zpos m * 2 ^ (e + 1074))).
    { rewrite <- Heq. destruct sb; simpl; lia. }
    apply cond_Zopp_inj in Hopp as [<- Hu]; [|by apply units_pos|done].
    by apply bounded_unique in Hu as [<- <-].
  - destruct (bounded_spec _ _ HA) as (_ & _ & Hea).
    rewrite Z.sub_0_r in Heq.
    apply cond_Zopp_inj in Heq as [<- Hu]; [|by apply units_pos|done].
    by apply bounded_unique in Hu as [<- <-].
  - destruct (bounded_spec _ _ HA) as (_ & _ & Hea).
    destruct (bounded_spec _ _ HB) as (_ & _ & Heb).
    unfold SF64sub, SFsub.
    set (ez := Z.min ea eb).
    set (M := cond_Zopp sa (Zpos (fst (shl_align ma ea ez)))
              - cond_Zopp sb (Zpos (fst (shl_align mb eb ez)))).
    assert (HM : M * 2 ^ (ez + 1074) = cond_Zopp s (Zpos m * 2 ^ (e + 1074))).
    { unfold M. rewrite Z.mul_sub_distr_r, !aligned_units by lia. done. }
    unfold binary_normalize. destruct M as [|p|p].
    + destruct s; simpl in HM; lia.
    + destruct s; simpl in HM; [lia|].
      apply binary_round_exact; [done|lia|done].
    + destruct s; simpl in HM; [|lia].
      apply binary_round_exact; [done|lia|]. lia.
Qed.

Lemma SFeqb_finite_refl s m e :
  SFeqb (S754_finite s m e) (S754_finite s m e) = true.
Proof.
  unfold SFeqb, SFcompare.
  destruct s; rewrite Z.compare_refl, Pos.compare_cont_refl; done.
Qed.

Lemma float_units_eqb_refl x u : float_units x = Some u → (x =? x)%float = true.
Proof.
  unfold float_units. rewrite FloatAxioms.eqb_spec.
  destruct (Prim2SF x) as [s| | |s m e]; try done.
  intros _. apply SFeqb_finite_refl.
Qed.

(** When [x + w] is computed without rounding, [(x + w) - x] is [w]. *)
Lemma add_sub_exact x w : exact_sum x w → ((x + w) - x =? w)%float = true.
Proof.
  intros (ux & uw & Hx & Hw & Hs). unfold float_units in *.
  rewrite FloatAxioms.eqb_spec, sub_spec.
  pose proof (Prim2SF_valid x) as Vx. pose proof (Prim2SF_valid w) as Vw.
  pose proof (Prim2SF_valid (x + w)) as Vs.
  rewrite add_spec in Hs. rewrite add_spec in Vs. rewrite add_spec.
  destruct (Prim2SF x) as [sx| | |sx mx ex], (Prim2SF w) as [sw| | |sw mw ew];
    try done.
  - by destruct sx, sw.
  - simpl. apply SFeqb_finite_refl.
  - cbn [SF64add SFadd SF64sub SFsub binary_normalize]. rewrite Z.sub_diag. done.
  - cbn [SF_units] in Hx, Hw. simplify_eq.
    rewrite (SFsub_exact _ (S754_finite sx mx ex) sw mw ew _ _ Vs Vx Hs eq_refl Vw).
    + apply SFeqb_finite_refl.
    + lia.
Qed.

(** Integers up to 2^53 are numbers of the format. *)
Lemma int_representable (p : positive) :
  Zpos p ≤ 2 ^ 53 →
  ∃ m e, bounded prec emax m e = true
         ∧ Zpos m * 2 ^ (e + 1074) = Zpos p * 2 ^ 1074.
Proof.
  intros Hp.
  destruct (Z.eq_dec (Zpos p) (2 ^ 53)) as [Heq|Hne].
  - exists (2 ^ 52)%positive, 1. split; [done|]. rewrite Heq. done.
  - assert (Hlog : Z.log2 (Zpos p) < 53) by (apply Z.log2_lt_pow2; lia).
    pose proof (Z.log2_nonneg (Zpos p)) as Hlog0.
    set (k := 52 - Z.log2 (Zpos p)).
    assert (Hm : 0 < Zpos p * 2 ^ k) by (apply Z.mul_pos_pos; [done|apply Z.pow_pos_nonneg; lia]).
    destruct (Zpos p * 2 ^ k) as [|m|m] eqn:Em; [lia| |lia].
    exists m, (- k). split.
    + unfold bounded, canonical_mantissa.
      rewrite digits2_pos_log2, <- Em, Z.log2_mul_pow2 by lia.
      apply andb_true_intro. split.
      * apply Z.eqb_eq. unfold fexp, emin, prec, emax. lia.
      * apply Z.leb_le. unfold prec, emax. lia.
    + rewrite <- Em, <- Z.mul_assoc, <- Z.pow_add_r by lia. do 2 f_equal. lia.
Qed.

Lemma binary_normalize_int (n : Z) :
  Z.abs n ≤ 2 ^ 53 →
  valid_binary (binary_normalize prec emax n 0 false) = true
  ∧ SF_units (binary_normalize prec emax n 0 false) = Some (n * 2 ^ 1074).
Proof.
  intros Hn. destruct n as [|p|p]; [done|..].
  - destruct (int_representable p) as (m & e & Hb & Hu); [lia|].
    simpl. rewrite (binary_round_exact false p 0 m e Hb); [|lia|done].
    split; [done|]. simpl. by rewrite Hu.
  - destruct (int_representable p) as (m & e & Hb & Hu); [lia|].
    simpl. rewrite (binary_round_exact true p 0 m e Hb); [|lia|done].
    split; [done|]. simpl. rewrite Hu. f_equal.
Qed.

(** A sum that the format holds is computed without error. *)
Lemma SFadd_exact A B T a b :
  valid_binary A = true → valid_binary B = true → valid_binary T = true →
  SF_units A = Some a → SF_units B = Some b → SF_units T = Some (a + b) →
  SF_units (SF64add A B) = Some (a + b).
Proof.
  intros HA HB HT Ha Hb Ht.
  destruct A as [sa| | |sa ma ea], B as [sb| | |sb mb eb]; simplify_eq/=.
  - by destruct sa, sb.
  - done.
  - by rewrite Z.add_0_r.
  - destruct (bounded_spec _ _ HA) as (_ & _ & Hea).
    destruct (bounded_spec _ _ HB) as (_ & _ & Heb).
    unfold SF64add, SFadd.
    set (ez := Z.min ea eb).
    set (M := cond_Zopp sa (Zpos (fst (shl_align ma ea ez)))
              + cond_Zopp sb (Zpos (fst (shl_align mb eb ez)))).
    assert (HM : M * 2 ^ (ez + 1074)
                 = cond_Zopp sa (Zpos ma * 2 ^ (ea + 1074))
                   + cond_Zopp sb (Zpos mb * 2 ^ (eb + 1074))).
    { unfold M. rewrite Z.mul_add_distr_r, !aligned_units by lia. done. }
    assert (Hpow : 0 < 2 ^ (ez + 1074)) by (apply Z.pow_pos_nonneg; lia).
    clearbody M.
    destruct T as [st| | |st mt et]; simplify_eq/=.
    + rewrite <- Ht in HM |- *. destruct M as [|p|p]; [done|lia|lia].
    + destruct (bounded_spec _ _ HT) as (_ & _ & Het).
      pose proof (units_pos mt et Het) as Hpos.
      rewrite <- Ht in HM |- *. unfold binary_normalize. destruct M as [|p|p].
      * destruct st; simpl in HM; lia.
      * destruct st; simpl in HM; [lia|].
        rewrite (binary_round_exact false p ez mt et); [done|done|lia|done].
      * destruct st; simpl in HM; [|lia].
        rewrite (binary_round_exact true p ez mt et); [done|done|lia|lia].
Qed.

(** Integer coordinates up to 2^53 whose sum is at most 2^53 add without
    rounding. *)
Lemma exact_sum_of_ints (a b : Z) :
  Z.abs a ≤ 2 ^ 53 → Z.abs b ≤ 2 ^ 53 → Z.abs (a + b) ≤ 2 ^ 53 →
  ∃ x w, float_of_int a = Ok x ∧ float_of_int b = Ok w ∧ exact_sum x w.
Proof.
  intros Ha Hb Hab.
  destruct (binary_normalize_int a Ha) as [Va Ua].
  destruct (binary_normalize_int b Hb) as [Vb Ub].
  destruct (binary_normalize_int (a + b) Hab) as [Vc Uc].
  exists (SF2Prim (binary_normalize prec emax a 0 false)),
         (SF2Prim (binary_normalize prec emax b 0 false)).
  unfold float_of_int. split; [|split].
  - by destruct (binary_normalize prec emax a 0 false).
  - by destruct (binary_normalize prec emax b 0 false).
  - exists (a * 2 ^ 1074), (b * 2 ^ 1074). unfold float_units.
    rewrite add_spec, !Prim2SF_SF2Prim by done.
    split; [done|]. split; [done|].
    eapply SFadd_exact; [done..|]. rewrite Uc. f_equal. lia.
Qed.

(** ** Binary64 arithmetic: one of the two neighbours *)

Lemma shr_1_m mrs : 0 ≤ shr_m mrs → shr_m (shr_1 mrs) = shr_m mrs / 2.
Proof.
  destruct mrs as [m r s]. simpl. intros Hm. rewrite <- Z.div2_div.
  destruct m as [|[p|p|]|p]; simpl; (done || lia).
Qed.

Lemma shr_m_iter p : ∀ mrs,
  0 ≤ shr_m mrs → shr_m (Pos.iter shr_1 mrs p) = shr_m mrs / 2 ^ Zpos p.
Proof.
  intros mrs Hm. induction p as [|p IH] using Pos.peano_ind.
  - simpl. by rewrite shr_1_m.
  - rewrite Pos.iter_succ, shr_1_m, IH.
    + rewrite Z.div_div by lia. by rewrite Pos2Z.inj_succ, Z.pow_succ_r, Z.mul_comm by lia.
    + rewrite IH. apply Z.div_pos; lia.
Qed.

Lemma shr_m_of_loc M l : shr_m (shr_record_of_loc M l) = M.
Proof. by destruct l as [|[]]. Qed.

Lemma shr_fexp_spec M E l :
  0 ≤ M →
  (shr_fexp prec emax M E l).2 = Z.max E (fexp prec emax (Zdigits2 M + E))
  ∧ shr_m (shr_fexp prec emax M E l).1
    = M / 2 ^ (Z.max E (fexp prec emax (Zdigits2 M + E)) - E).
Proof.
  intros HM. unfold shr_fexp, shr.
  destruct (fexp prec emax (Zdigits2 M + E) - E) as [|p|p] eqn:Hn; simpl.
  - rewrite shr_m_of_loc. replace (Z.max _ _ - E) with 0 by lia.
    rewrite Z.pow_0_r, Z.div_1_r. lia.
  - rewrite iter_pos_iter, shr_m_iter, shr_m_of_loc by (by rewrite shr_m_of_loc).
    replace (Z.max _ _ - E) with (Zpos p) by lia. lia.
  - rewrite shr_m_of_loc. replace (Z.max _ _ - E) with 0 by lia.
    rewrite Z.pow_0_r, Z.div_1_r. lia.
Qed.

Lemma round_nearest_even_bounds m l :
  m ≤ round_nearest_even m l ≤ m + 1.
Proof. destruct l as [|[]]; simpl; try lia. destruct (Z.even m); lia. Qed.

Lemma Zdigits2_log2 M : 0 < M → Zdigits2 M = Z.log2 M + 1.
Proof. destruct M as [|p|p]; try lia. intros _. apply digits2_pos_log2. Qed.

Lemma Zdigits2_bound M : 0 ≤ M → 0 ≤ Zdigits2 M ∧ M < 2 ^ Zdigits2 M.
Proof.
  intros HM. destruct (Z.eq_dec M 0) as [->|Hne]; [done|].
  rewrite Zdigits2_log2 by lia. pose proof (Z.log2_nonneg M).
  split; [lia|]. apply Z.log2_spec. lia.
Qed.

Lemma Zdigits2_lower M : 0 < M → 2 ^ (Zdigits2 M - 1) ≤ M.
Proof.
  intros HM. rewrite Zdigits2_log2 by done.
  replace (Z.log2 M + 1 - 1) with (Z.log2 M) by lia. by apply Z.log2_spec.
Qed.

Lemma fexp_spec k : fexp prec emax k = Z.max (k - 53) (-1074).
Proof. reflexivity. Qed.

Lemma cond_Zopp_0 s : cond_Zopp s 0 = 0.
Proof. by destruct s. Qed.

(** The outcome of rounding a mantissa that is long enough: one of the two
    numbers of the format around it. *)
Lemma binary_round_aux_faithful s M E l :
  0 ≤ M → E ≤ fexp prec emax (Zdigits2 M + E) → Zdigits2 M + E ≤ 1023 →
  ∃ M', M / 2 ^ (fexp prec emax (Zdigits2 M + E) - E) ≤ M'
        ≤ M / 2 ^ (fexp prec emax (Zdigits2 M + E) - E) + 1
      ∧ SF_units (binary_round_aux prec emax s M E l)
        = Some (cond_Zopp s (M' * 2 ^ (fexp prec emax (Zdigits2 M + E) + 1074))).
Proof.
  intros HM HP Hd. set (e' := fexp prec emax (Zdigits2 M + E)) in *.
  assert (He' : -1074 ≤ e' ∧ Zdigits2 M + E - 53 ≤ e' ∧ e' ≤ 970).
  { unfold e'. rewrite fexp_spec. lia. }
  destruct (shr_fexp_spec M E l HM) as [H1e H1m].
  fold e' in H1e, H1m. rewrite Z.max_r in H1e, H1m by done.
  unfold binary_round_aux.
  destruct (shr_fexp prec emax M E l) as [mrs1 e1]. simpl in H1e, H1m. subst e1.
  set (m1 := M / 2 ^ (e' - E)) in *.
  set (M' := round_nearest_even (shr_m mrs1) (loc_of_shr_record mrs1)).
  pose proof (round_nearest_even_bounds (shr_m mrs1) (loc_of_shr_record mrs1)) as HM'.
  fold M' in HM'. rewrite H1m in HM'.
  assert (Hm1 : 0 ≤ m1 < 2 ^ 53).
  { split; [apply Z.div_pos; lia|].
    apply Z.div_lt_upper_bound; [lia|].
    rewrite <- Z.pow_add_r by lia.
    destruct (Zdigits2_bound M HM) as [Hd0 Hlt].
    eapply Z.lt_le_trans; [exact Hlt|]. apply Z.pow_le_mono_r; lia. }
  exists M'. split; [done|].
  destruct (shr_fexp_spec M' e' loc_Exact) as [H2e H2m]; [lia|].
  destruct (shr_fexp prec emax M' e' loc_Exact) as [mrs2 e2]. simpl in H2e, H2m.
  destruct (Z.eq_dec M' 0) as [H0|Hnz].
  { rewrite H0 in H2m |- *. rewrite Z.div_0_l in H2m by lia. rewrite H2m.
    simpl. by rewrite cond_Zopp_0. }
  destruct (Z.eq_dec M' (2 ^ 53)) as [Hmax|Hlt].
  - assert (Hd' : Zdigits2 M' = 54) by (by rewrite Hmax).
    rewrite Hd', fexp_spec in H2e, H2m.
    replace (Z.max e' (Z.max (54 + e' - 53) (-1074))) with (e' + 1) in H2e, H2m by lia.
    replace (e' + 1 - e') with 1 in H2m by lia.
    rewrite Hmax in H2m. change (2 ^ 53 / 2 ^ 1) with (Zpos (2 ^ 52)) in H2m.
    rewrite H2m, H2e.
    destruct (Z.leb_spec (e' + 1) (emax - prec)) as [_|Hgt];
      [|unfold emax, prec in Hgt; lia].
    simpl. do 2 f_equal. rewrite Hmax.
    replace (e' + 1 + 1074) with (1 + (e' + 1074)) by lia.
    rewrite Z.pow_add_r by lia. lia.
  - assert (Hd' : Zdigits2 M' ≤ 53).
    { rewrite Zdigits2_log2 by lia.
      assert (Z.log2 M' < 53); [|lia]. apply Z.log2_lt_pow2; lia. }
    rewrite fexp_spec in H2e, H2m.
    replace (Z.max e' (Z.max (Zdigits2 M' + e' - 53) (-1074))) with e' in H2e, H2m by lia.
    rewrite Z.sub_diag, Z.pow_0_r, Z.div_1_r in H2m.
    rewrite H2m, H2e.
    destruct M' as [|p|p]; [lia| |lia].
    destruct (Z.leb_spec e' (emax - prec)) as [_|Hgt];
      [|unfold emax, prec in Hgt; lia].
    done.
Qed.

(** The two candidates are within one unit in the last place, which is at
    most 2^-52 of the number unless the exponent is the least one. *)
Lemma faithful_bounds M E M' :
  0 ≤ M → E ≤ fexp prec emax (Zdigits2 M + E) →
  M / 2 ^ (fexp prec emax (Zdigits2 M + E) - E) ≤ M'
    ≤ M / 2 ^ (fexp prec emax (Zdigits2 M + E) - E) + 1 →
  Z.abs (M' * 2 ^ (fexp prec emax (Zdigits2 M + E) - E) - M)
    ≤ 2 ^ (fexp prec emax (Zdigits2 M + E) - E)
  ∧ (2 ^ 52 * 2 ^ (fexp prec emax (Zdigits2 M + E) - E) ≤ M
     ∨ fexp prec emax (Zdigits2 M + E) = -1074).
Proof.
  intros HM HP HM'. set (e' := fexp prec emax (Zdigits2 M + E)) in *.
  set (n := e' - E) in *. assert (Hn : 0 ≤ n) by (unfold n; lia).
  assert (Hpow : 0 < 2 ^ n) by (apply Z.pow_pos_nonneg; lia).
  pose proof (Z.mul_div_le M (2 ^ n) Hpow) as Hlo.
  pose proof (Z.mul_succ_div_gt M (2 ^ n) Hpow) as Hhi.
  split; [nia|].
  destruct (Z.eq_dec e' (-1074)) as [->|Hne]; [by right|left].
  assert (He' : e' = Zdigits2 M + E - 53).
  { unfold e' in *. rewrite fexp_spec in *. lia. }
  destruct (Z.eq_dec M 0) as [->|HM0].
  { simpl in He'. unfold e' in HP, Hne, He'. rewrite fexp_spec in *. simpl in *. lia. }
  rewrite <- Z.pow_add_r by lia.
  replace (52 + n) with (Zdigits2 M - 1) by (unfold n; lia).
  apply Zdigits2_lower. lia.
Qed.

Lemma shl_align_spec m e e' :
  -1074 ≤ e → -1074 ≤ e' →
  Zpos (shl_align m e e').1 * 2 ^ ((shl_align m e e').2 + 1074) = Zpos m * 2 ^ (e + 1074)
  ∧ (shl_align m e e').2 = Z.min e e'
  ∧ Zpos (digits2_pos (shl_align m e e').1) + (shl_align m e e').2
    = Zpos (digits2_pos m) + e.
Proof.
  intros He He'. unfold shl_align.
  destruct (e' - e) as [|d|d] eqn:Hsub; simpl.
  - split; [done|]. split; [lia|done].
  - split; [done|]. split; [lia|done].
  - split; [|split; [lia|]].
    + rewrite Zpos_iter_xO, <- Z.mul_assoc, <- Z.pow_add_r by lia.
      do 2 f_equal. lia.
    + rewrite !digits2_pos_log2, Zpos_iter_xO, Z.log2_mul_pow2 by lia. lia.
Qed.

Lemma cond_Zopp_abs s a : Z.abs (cond_Zopp s a) = Z.abs a.
Proof. destruct s; simpl; lia. Qed.

Lemma cond_Zopp_sub s a b : cond_Zopp s a - cond_Zopp s b = cond_Zopp s (a - b).
Proof. destruct s; simpl; lia. Qed.

(** Rounding the integer M in units of 2^ez. *)
Lemma binary_normalize_faithful M ez :
  -1074 ≤ ez → Z.abs M * 2 ^ (ez + 1074) < 2 ^ 2097 →
  ∃ r, SF_units (binary_normalize prec emax M ez false) = Some r
       ∧ 2 ^ 52 * Z.abs (r - M * 2 ^ (ez + 1074))
         ≤ Z.max (Z.abs (M * 2 ^ (ez + 1074))) (2 ^ 52).
Proof.
  intros Hez Hlt.
  assert (Hpow : 0 < 2 ^ (ez + 1074)) by (apply Z.pow_pos_nonneg; lia).
  assert (Hgen : ∀ s p, Zpos p * 2 ^ (ez + 1074) < 2 ^ 2097 →
    ∃ r, SF_units (binary_round prec emax s p ez) = Some (cond_Zopp s r)
         ∧ 2 ^ 52 * Z.abs (r - Zpos p * 2 ^ (ez + 1074))
           ≤ Z.max (Zpos p * 2 ^ (ez + 1074)) (2 ^ 52)).
  { intros s p Hp. unfold binary_round.
    set (e0 := fexp prec emax (Zpos (digits2_pos p) + ez)).
    assert (He0 : -1074 ≤ e0) by (unfold e0; rewrite fexp_spec; lia).
    destruct (shl_align_spec p ez e0 Hez He0) as (Hval & Hexp & Hdig).
    destruct (shl_align p ez e0) as [mz ez'] eqn:Hal. simpl in Hval, Hexp, Hdig.
    assert (Hfe : fexp prec emax (Zdigits2 (Zpos mz) + ez') = e0).
    { simpl. by rewrite Hdig. }
    assert (HP : ez' ≤ fexp prec emax (Zdigits2 (Zpos mz) + ez')) by (rewrite Hfe; lia).
    assert (Hez' : ez < 1023).
    { destruct (Z.lt_ge_cases ez 1023) as [|Hge]; [done|].
      assert (2 ^ 2097 ≤ 2 ^ (ez + 1074)) by (apply Z.pow_le_mono_r; lia). nia. }
    assert (Hd : Zdigits2 (Zpos mz) + ez' ≤ 1023).
    { simpl. rewrite Hdig, digits2_pos_log2.
      assert (Z.log2 (Zpos p) < 1023 - ez); [|lia].
      apply Z.log2_lt_pow2; [done|].
      apply (Z.mul_lt_mono_pos_r (2 ^ (ez + 1074))); [done|].
      rewrite <- Z.pow_add_r by lia.
      by replace (1023 - ez + (ez + 1074)) with 2097 by lia. }
    destruct (binary_round_aux_faithful s (Zpos mz) ez' loc_Exact) as (M' & HM' & Hu);
      [done..|].
    destruct (faithful_bounds (Zpos mz) ez' M') as [Herr Hulp]; [done..|].
    rewrite Hfe in Hu, Herr, Hulp, HM'.
    exists (M' * 2 ^ (e0 + 1074)). split; [done|].
    rewrite <- Hval.
    set (n := e0 - ez') in *.
    assert (Hn : 0 ≤ n) by (unfold n; lia).
    assert (Hsplit : 2 ^ (e0 + 1074) = 2 ^ n * 2 ^ (ez' + 1074)).
    { rewrite <- Z.pow_add_r by lia. f_equal. unfold n. lia. }
    assert (Hpow' : 0 < 2 ^ (ez' + 1074)) by (apply Z.pow_pos_nonneg; lia).
    assert (Hpown : 0 < 2 ^ n) by (apply Z.pow_pos_nonneg; lia).
    rewrite Hsplit.
    replace (M' * (2 ^ n * 2 ^ (ez' + 1074)) - Zpos mz * 2 ^ (ez' + 1074))
      with ((M' * 2 ^ n - Zpos mz) * 2 ^ (ez' + 1074)) by ring.
    rewrite Z.abs_mul, (Z.abs_eq (2 ^ (ez' + 1074))) by lia.
    destruct Hulp as [Hulp|Hmin].
    - apply Z.max_le_iff. left.
      rewrite Z.mul_assoc. apply Z.mul_le_mono_nonneg_r; lia.
    - apply Z.max_le_iff. right.
      assert (Hone : 2 ^ n * 2 ^ (ez' + 1074) = 1).
      { rewrite <- Hsplit, Hmin. done. }
      assert (Z.abs (M' * 2 ^ n - Zpos mz) * 2 ^ (ez' + 1074) ≤ 1)
        by (rewrite <- Hone; apply Z.mul_le_mono_nonneg_r; lia).
      lia. }
  destruct M as [|p|p].
  - exists 0. simpl. split; [done|lia].
  - destruct (Hgen false p) as (r & Hr & Hb); [lia|].
    exists r. split; [done|]. rewrite (Z.abs_eq (Zpos p * _)) by lia. done.
  - destruct (Hgen true p) as (r & Hr & Hb); [lia|].
    exists (- r). split; [done|].
    replace (- r - Zneg p * 2 ^ (ez + 1074)) with (- (r - Zpos p * 2 ^ (ez + 1074))) by lia.
    rewrite Z.abs_opp.
    replace (Z.abs (Zneg p * 2 ^ (ez + 1074))) with (Zpos p * 2 ^ (ez + 1074)) by lia.
    done.
Qed.

Lemma SFadd_faithful A B a b :
  valid_binary A = true → valid_binary B = true →
  SF_units A = Some a → SF_units B = Some b →
  Z.abs (a + b) < 2 ^ 2097 →
  ∃ r, SF_units (SF64add A B) = Some r
       ∧ 2 ^ 52 * Z.abs (r - (a + b)) ≤ Z.max (Z.abs (a + b)) (2 ^ 52).
Proof.
  intros HA HB Ha Hb Hlt.
  destruct A as [sa| | |sa ma ea], B as [sb| | |sb mb eb]; simplify_eq/=.
  - exists 0. split; [by destruct sa, sb|lia].
  - eexists. split; [done|]. lia.
  - eexists. split; [done|]. lia.
  - destruct (bounded_spec _ _ HA) as (_ & _ & Hea).
    destruct (bounded_spec _ _ HB) as (_ & _ & Heb).
    unfold SF64add, SFadd.
    set (ez := Z.min ea eb).
    set (M := cond_Zopp sa (Zpos (fst (shl_align ma ea ez)))
              + cond_Zopp sb (Zpos (fst (shl_align mb eb ez)))).
    assert (HM : M * 2 ^ (ez + 1074)
                 = cond_Zopp sa (Zpos ma * 2 ^ (ea + 1074))
                   + cond_Zopp sb (Zpos mb * 2 ^ (eb + 1074))).
    { unfold M. rewrite Z.mul_add_distr_r, !aligned_units by lia. done. }
    clearbody M. rewrite <- HM in Hlt |- *.
    apply binary_normalize_faithful; [lia|].
    by rewrite <- (Z.abs_eq (2 ^ (ez + 1074))), <- Z.abs_mul by (apply Z.pow_nonneg; lia).
Qed.

Lemma SFsub_faithful A B a b :
  valid_binary A = true → valid_binary B = true →
  SF_units A = Some a → SF_units B = Some b →
  Z.abs (a - b) < 2 ^ 2097 →
  ∃ r, SF_units (SF64sub A B) = Some r
       ∧ 2 ^ 52 * Z.abs (r - (a - b)) ≤ Z.max (Z.abs (a - b)) (2 ^ 52).
Proof.
  intros HA HB Ha Hb Hlt.
  destruct A as [sa| | |sa ma ea], B as [sb| | |sb mb eb]; simplify_eq/=.
  - exists 0. split; [by destruct sa, sb|lia].
  - eexists. split; [done|].
    replace (cond_Zopp (negb sb) (Zpos mb * 2 ^ (eb + 1074))
             - (0 - cond_Zopp sb (Zpos mb * 2 ^ (eb + 1074)))) with 0
      by (destruct sb; simpl; lia).
    lia.
  - eexists. split; [done|]. lia.
  - destruct (bounded_spec _ _ HA) as (_ & _ & Hea).
    destruct (bounded_spec _ _ HB) as (_ & _ & Heb).
    unfold SF64sub, SFsub.
    set (ez := Z.min ea eb).
    set (M := cond_Zopp sa (Zpos (fst (shl_align ma ea ez)))
              - cond_Zopp sb (Zpos (fst (shl_align mb eb ez)))).
    assert (HM : M * 2 ^ (ez + 1074)
                 = cond_Zopp sa (Zpos ma * 2 ^ (ea + 1074))
                   - cond_Zopp sb (Zpos mb * 2 ^ (eb + 1074))).
    { unfold M. rewrite Z.mul_sub_distr_r, !aligned_units by lia. done. }
    clearbody M. rewrite <- HM in Hlt |- *.
    apply binary_normalize_faithful; [lia|].
    by rewrite <- (Z.abs_eq (2 ^ (ez + 1074))), <- Z.abs_mul by (apply Z.pow_nonneg; lia).
Qed.

Lemma bounded_digits m e :
  bounded prec emax m e = true →
  Zpos (digits2_pos m) ≤ 53 ∧ (Zpos (digits2_pos m) = 53 ∨ e = -1074).
Proof.
  intros Hb. destruct (bounded_spec _ _ Hb) as (Hf & _ & _).
  rewrite fexp_spec in Hf. lia.
Qed.

Lemma cond_Zopp_mul_xorb s1 s2 a b :
  cond_Zopp s1 a * cond_Zopp s2 b = cond_Zopp (xorb s1 s2) (a * b).
Proof. destruct s1, s2; simpl; lia. Qed.

Lemma SFmul_faithful A B a b :
  valid_binary A = true → valid_binary B = true →
  SF_units A = Some a → SF_units B = Some b →
  Z.abs (a * b) < 2 ^ 3171 →
  ∃ r, SF_units (SF64mul A B) = Some r
       ∧ 2 ^ 52 * Z.abs (r * 2 ^ 1074 - a * b)
         ≤ Z.max (Z.abs (a * b)) (2 ^ 52 * 2 ^ 1074).
Proof.
  intros HA HB Ha Hb Hlt.
  destruct A as [sa| | |sa ma ea], B as [sb| | |sb mb eb]; simplify_eq/=.
  - exists 0. split; [done|lia].
  - exists 0. split; [done|lia].
  - exists 0. split; [done|]. rewrite Z.mul_0_r. lia.
  - destruct (bounded_spec _ _ HA) as (_ & _ & Hea).
    destruct (bounded_spec _ _ HB) as (_ & _ & Heb).
    destruct (bounded_digits _ _ HA) as [Hda Hna].
    destruct (bounded_digits _ _ HB) as [Hdb Hnb].
    rewrite !digits2_pos_log2 in *.
    unfold SF64mul, SFmul.
    set (M := Zpos (ma * mb)). set (E := ea + eb).
    assert (HMpos : 0 < M) by done.
    assert (Hprod : cond_Zopp sa (Zpos ma * 2 ^ (ea + 1074))
                    * cond_Zopp sb (Zpos mb * 2 ^ (eb + 1074))
                    = cond_Zopp (xorb sa sb) (M * 2 ^ (E + 2148))).
    { rewrite cond_Zopp_mul_xorb. f_equal. unfold M, E.
      replace (ea + eb + 2148) with ((ea + 1074) + (eb + 1074)) by lia.
      rewrite (Z.pow_add_r 2 (ea + 1074) (eb + 1074)), Pos2Z.inj_mul by lia. ring. }
    rewrite Hprod in Hlt |- *. rewrite cond_Zopp_abs in Hlt |- *.
    assert (Hpow : 0 < 2 ^ (E + 2148)) by (apply Z.pow_pos_nonneg; unfold E; lia).
    rewrite Z.abs_eq in Hlt |- * by lia.
    pose proof (Z.log2_mul_below (Zpos ma) (Zpos mb) eq_refl eq_refl) as Hlog.
    change (Zpos ma * Zpos mb) with M in Hlog.
    pose proof (Z.log2_nonneg (Zpos ma)). pose proof (Z.log2_nonneg (Zpos mb)).
    assert (HP : E ≤ fexp prec emax (Zdigits2 M + E)).
    { rewrite fexp_spec, Zdigits2_log2 by done. unfold E. lia. }
    assert (HE : E < 1023).
    { destruct (Z.lt_ge_cases E 1023) as [|Hge]; [done|].
      assert (2 ^ 3171 ≤ 2 ^ (E + 2148)) by (apply Z.pow_le_mono_r; lia). nia. }
    assert (Hd : Zdigits2 M + E ≤ 1023).
    { rewrite Zdigits2_log2 by done.
      assert (Z.log2 M < 1023 - E); [|lia].
      apply Z.log2_lt_pow2; [done|].
      apply (Z.mul_lt_mono_pos_r (2 ^ (E + 2148))); [done|].
      rewrite <- Z.pow_add_r by (unfold E; lia).
      by replace (1023 - E + (E + 2148)) with 3171 by lia. }
    destruct (binary_round_aux_faithful (xorb sa sb) M E loc_Exact) as (M' & HM' & Hu);
      [lia|done..|].
    destruct (faithful_bounds M E M') as [Herr Hulp]; [lia|done..|].
    set (e' := fexp prec emax (Zdigits2 M + E)) in *.
    assert (He' : -1074 ≤ e') by (unfold e'; rewrite fexp_spec; lia).
    set (n := e' - E) in *.
    assert (Hn : 0 ≤ n) by (unfold n; lia).
    exists (cond_Zopp (xorb sa sb) (M' * 2 ^ (e' + 1074))). split; [done|].
    rewrite cond_Zopp_mul, cond_Zopp_sub, cond_Zopp_abs.
    assert (Hsplit : 2 ^ (e' + 1074) * 2 ^ 1074 = 2 ^ n * 2 ^ (E + 2148)).
    { rewrite <- !Z.pow_add_r by (unfold E; lia). f_equal. unfold n. lia. }
    assert (Hpown : 0 < 2 ^ n) by (apply Z.pow_pos_nonneg; lia).
    replace (M' * 2 ^ (e' + 1074) * 2 ^ 1074 - M * 2 ^ (E + 2148))
      with ((M' * 2 ^ n - M) * 2 ^ (E + 2148)) by (rewrite <- Z.mul_assoc, Hsplit; ring).
    rewrite Z.abs_mul, (Z.abs_eq (2 ^ (E + 2148))) by lia.
    apply Z.max_le_iff. destruct Hulp as [Hulp|Hmin].
    + left. rewrite Z.mul_assoc. apply Z.mul_le_mono_nonneg_r; lia.
    + right.
      assert (Hone : 2 ^ n * 2 ^ (E + 2148) = 2 ^ 1074).
      { rewrite <- Hsplit, Hmin. done. }
      assert (Z.abs (M' * 2 ^ n - M) * 2 ^ (E + 2148) ≤ 2 ^ 1074)
        by (rewrite <- Hone; apply Z.mul_le_mono_nonneg_r; lia).
      lia.
Qed.

Lemma SFdiv_core_binary_spec mx ex my ey :
  ∃ q rem s,
    SFdiv_core_binary prec emax (Zpos mx) ex (Zpos my) ey
    = (q, ex - ey - s, new_location (Zpos my) rem)
    ∧ 0 ≤ s
    ∧ ex - ey - s
      = Z.min (fexp prec emax (Zpos (digits2_pos mx) + ex - (Zpos (digits2_pos my) + ey)))
          (ex - ey)
    ∧ 0 ≤ q
    ∧ q * Zpos my ≤ Zpos mx * 2 ^ s < (q + 1) * Zpos my.
Proof.
  unfold SFdiv_core_binary. cbn [Zdigits2].
  set (E := Z.min (fexp prec emax (Zpos (digits2_pos mx) + ex - (Zpos (digits2_pos my) + ey)))
              (ex - ey)).
  set (s := ex - ey - E).
  assert (Hs : 0 ≤ s) by (unfold s, E; lia).
  set (m' := match s with Zpos _ => Z.shiftl (Zpos mx) s | 0 => Zpos mx | Zneg _ => 0 end).
  assert (Hm' : m' = Zpos mx * 2 ^ s).
  { unfold m'. destruct s as [|p|p]; [lia| |lia]. by rewrite Z.shiftl_mul_pow2. }
  pose proof (Z_div_mod m' (Zpos my) eq_refl) as Hdiv.
  destruct (Z.div_eucl m' (Zpos my)) as [q rem].
  destruct Hdiv as [Heq Hrem].
  exists q, rem, s. replace (ex - ey - s) with E by (unfold s; lia).
  split; [done|]. split; [done|]. split; [done|].
  assert (Hq : 0 ≤ q).
  { assert (0 ≤ m') by (rewrite Hm'; apply Z.mul_nonneg_nonneg; [done|apply Z.pow_nonneg; lia]).
    nia. }
  split; [done|]. rewrite <- Hm'. nia.
Qed.

Lemma SFdiv_faithful A B a b :
  valid_binary A = true → valid_binary B = true →
  SF_units A = Some a → SF_units B = Some b →
  b ≠ 0 → Z.abs a * 2 ^ 1074 < 2 ^ 2097 * Z.abs b →
  ∃ r, SF_units (SF64div A B) = Some r
       ∧ 2 ^ 52 * Z.abs (r * b - a * 2 ^ 1074)
         ≤ Z.max (Z.abs a * 2 ^ 1074) (2 ^ 52 * Z.abs b).
Proof.
  intros HA HB Ha Hb Hb0 Hlt.
  destruct A as [sa| | |sa ma ea], B as [sb| | |sb mb eb]; simplify_eq/=.
  - exists 0. split; [done|]. lia.
  - destruct (bounded_spec _ _ HA) as (_ & _ & Hea).
    destruct (bounded_spec _ _ HB) as (_ & _ & Heb).
    unfold SF64div, SFdiv.
    destruct (SFdiv_core_binary_spec ma ea mb eb) as (q & rem & s & Hcore & Hs & HE & Hq & Hbr).
    rewrite Hcore. set (E := ea - eb - s) in *.
    set (da := Zpos (digits2_pos ma)) in *. set (db := Zpos (digits2_pos mb)) in *.
    assert (Hda : 2 ^ (da - 1) ≤ Zpos ma < 2 ^ da).
    { unfold da. rewrite digits2_pos_log2.
      replace (Z.log2 (Zpos ma) + 1 - 1) with (Z.log2 (Zpos ma)) by lia.
      apply Z.log2_spec. done. }
    assert (Hdb : 2 ^ (db - 1) ≤ Zpos mb < 2 ^ db).
    { unfold db. rewrite digits2_pos_log2.
      replace (Z.log2 (Zpos mb) + 1 - 1) with (Z.log2 (Zpos mb)) by lia.
      apply Z.log2_spec. done. }
    assert (Hda1 : 1 ≤ da) by (unfold da; lia).
    assert (Hdb1 : 1 ≤ db) by (unfold db; lia).
    assert (Hpows : 0 < 2 ^ s) by (apply Z.pow_pos_nonneg; lia).
    set (c := E + eb + 2148).
    assert (Hc : 0 ≤ c).
    { unfold c. rewrite fexp_spec in HE. lia. }
    assert (Hpowc : 0 < 2 ^ c) by (apply Z.pow_pos_nonneg; lia).
    (* the quotient is long enough *)
    assert (HP : E ≤ fexp prec emax (Zdigits2 q + E)).
    { rewrite fexp_spec in HE |- *.
      destruct (Z.eq_dec q 0) as [->|Hq0].
      - simpl.
        assert (da + s ≤ db); [|lia].
        destruct (Z.le_gt_cases (da + s) db) as [|Hgt]; [done|].
        assert (2 ^ db ≤ 2 ^ (da - 1 + s)) by (apply Z.pow_le_mono_r; lia).
        rewrite Z.pow_add_r in * by lia. nia.
      - rewrite Zdigits2_log2 by lia.
        destruct (Z.le_gt_cases (da - db + s) 1) as [Hsmall|Hbig].
        + pose proof (Z.log2_nonneg q). lia.
        + assert (da - db + s - 1 ≤ Z.log2 q); [|lia].
          apply Z.log2_le_pow2; [lia|].
          assert (Hk : 2 ^ (da - db + s - 1) * 2 ^ db = 2 ^ (da - 1) * 2 ^ s).
          { rewrite <- !Z.pow_add_r by lia. f_equal. lia. }
          assert (Hpk : 0 < 2 ^ (da - db + s - 1)) by (apply Z.pow_pos_nonneg; lia).
          destruct (Z.le_gt_cases (2 ^ (da - db + s - 1)) q) as [|Hlt']; [done|].
          exfalso.
          assert ((q + 1) * Zpos mb ≤ 2 ^ (da - db + s - 1) * Zpos mb)
            by (apply Z.mul_le_mono_nonneg_r; lia).
          assert (2 ^ (da - db + s - 1) * Zpos mb < 2 ^ (da - db + s - 1) * 2 ^ db)
            by (apply Z.mul_lt_mono_pos_l; lia).
          assert (2 ^ (da - 1) * 2 ^ s ≤ Zpos ma * 2 ^ s)
            by (apply Z.mul_le_mono_nonneg_r; lia).
          lia. }
    assert (Hsc : 2 ^ (ea + 1074) * 2 ^ 1074 = 2 ^ s * 2 ^ c).
    { rewrite <- !Z.pow_add_r by lia. f_equal. unfold c, E. lia. }
    rewrite !cond_Zopp_abs in Hlt. rewrite !Z.abs_eq in Hlt by (apply Z.lt_le_incl, units_pos; lia).
    assert (Hx : Zpos ma * 2 ^ s * 2 ^ c < 2 ^ 2097 * (Zpos mb * 2 ^ (eb + 1074))).
    { rewrite <- Z.mul_assoc, <- Hsc. lia. }
    assert (Hqc : q * 2 ^ c < 2 ^ (eb + 3171)).
    { replace (eb + 3171) with (2097 + (eb + 1074)) by lia.
      rewrite Z.pow_add_r by lia.
      assert (q * Zpos mb * 2 ^ c ≤ Zpos ma * 2 ^ s * 2 ^ c)
        by (apply Z.mul_le_mono_nonneg_r; lia).
      assert (Hmb : 0 < Zpos mb) by done.
      apply (Z.mul_lt_mono_pos_r (Zpos mb)); [done|]. lia. }
    assert (Hd : Zdigits2 q + E ≤ 1023).
    { destruct (Z.eq_dec q 0) as [->|Hq0].
      - simpl in HP |- *. rewrite fexp_spec in HP. lia.
      - assert (HE' : E ≤ 1023).
        { destruct (Z.le_gt_cases E 1023) as [|Hgt]; [done|].
          assert (2 ^ (eb + 3171) ≤ 2 ^ c) by (apply Z.pow_le_mono_r; unfold c; lia).
          nia. }
        rewrite Zdigits2_log2 by lia.
        assert (Z.log2 q < 1023 - E); [|lia].
        apply Z.log2_lt_pow2; [lia|].
        apply (Z.mul_lt_mono_pos_r (2 ^ c)); [done|].
        rewrite <- Z.pow_add_r by lia.
        by replace (1023 - E + c) with (eb + 3171) by (unfold c; lia). }
    destruct (binary_round_aux_faithful (xorb sa sb) q E (new_location (Zpos mb) rem))
      as (M' & HM' & Hu); [done..|].
    destruct (faithful_bounds q E M') as [_ Hulp]; [done..|].
    set (e' := fexp prec emax (Zdigits2 q + E)) in *.
    assert (He' : -1074 ≤ e') by (unfold e'; rewrite fexp_spec; lia).
    set (n := e' - E) in *.
    assert (Hn : 0 ≤ n) by (unfold n; lia).
    assert (Hpown : 0 < 2 ^ n) by (apply Z.pow_pos_nonneg; lia).
    exists (cond_Zopp (xorb sa sb) (M' * 2 ^ (e' + 1074))). split; [done|].
    rewrite cond_Zopp_mul_xorb, (cond_Zopp_mul sa).
    replace (xorb (xorb sa sb) sb) with sa by (by destruct sa, sb).
    rewrite cond_Zopp_sub, !cond_Zopp_abs.
    rewrite (Z.abs_eq (Zpos ma * 2 ^ (ea + 1074))) by (apply Z.lt_le_incl, units_pos; lia).
    rewrite (Z.abs_eq (Zpos mb * 2 ^ (eb + 1074))) by (apply Z.lt_le_incl, units_pos; lia).
    assert (Hnc : 2 ^ (e' + 1074) * 2 ^ (eb + 1074) = 2 ^ n * 2 ^ c).
    { rewrite <- !Z.pow_add_r by lia. f_equal. unfold n, c. lia. }
    replace (M' * 2 ^ (e' + 1074) * (Zpos mb * 2 ^ (eb + 1074))
             - Zpos ma * 2 ^ (ea + 1074) * 2 ^ 1074)
      with ((M' * 2 ^ n * Zpos mb - Zpos ma * 2 ^ s) * 2 ^ c).
    2:{ transitivity (M' * Zpos mb * (2 ^ (e' + 1074) * 2 ^ (eb + 1074))
                      - Zpos ma * (2 ^ (ea + 1074) * 2 ^ 1074)); [|ring].
        rewrite Hnc, Hsc. ring. }
    rewrite Z.abs_mul, (Z.abs_eq (2 ^ c)) by lia.
    pose proof (Z.mul_div_le q (2 ^ n) Hpown) as Hlo.
    pose proof (Z.mul_succ_div_gt q (2 ^ n) Hpown) as Hhi.
    set (t := q / 2 ^ n) in *.
    assert (Hmb : 0 < Zpos mb) by done.
    assert (Herr : Z.abs (M' * 2 ^ n * Zpos mb - Zpos ma * 2 ^ s) ≤ 2 ^ n * Zpos mb).
    { assert (t * 2 ^ n * Zpos mb ≤ Zpos ma * 2 ^ s) by nia.
      assert (Zpos ma * 2 ^ s < (t + 1) * 2 ^ n * Zpos mb) by nia.
      assert (t * 2 ^ n * Zpos mb ≤ M' * 2 ^ n * Zpos mb) by nia.
      assert (M' * 2 ^ n * Zpos mb ≤ (t + 1) * 2 ^ n * Zpos mb) by nia.
      lia. }
    apply Z.max_le_iff. destruct Hulp as [Hulp|Hmin].
    + left.
      assert (2 ^ 52 * (2 ^ n * Zpos mb) ≤ q * Zpos mb) by nia.
      assert (q * Zpos mb * 2 ^ c ≤ Zpos ma * 2 ^ s * 2 ^ c)
        by (apply Z.mul_le_mono_nonneg_r; lia).
      replace (Zpos ma * 2 ^ (ea + 1074) * 2 ^ 1074) with (Zpos ma * 2 ^ s * 2 ^ c)
        by (rewrite <- !Z.mul_assoc, Hsc; done).
      assert (Z.abs (M' * 2 ^ n * Zpos mb - Zpos ma * 2 ^ s) * 2 ^ c
              ≤ 2 ^ n * Zpos mb * 2 ^ c) by (apply Z.mul_le_mono_nonneg_r; lia).
      assert (2 ^ 52 * (2 ^ n * Zpos mb) * 2 ^ c ≤ q * Zpos mb * 2 ^ c)
        by (apply Z.mul_le_mono_nonneg_r; lia).
      lia.
    + right.
      assert (Hone : 2 ^ n * 2 ^ c = 2 ^ (eb + 1074)).
      { rewrite <- Hnc, Hmin. change (2 ^ (-1074 + 1074)) with 1. lia. }
      rewrite <- Hone.
      assert (Z.abs (M' * 2 ^ n * Zpos mb - Zpos ma * 2 ^ s) * 2 ^ c
              ≤ 2 ^ n * Zpos mb * 2 ^ c) by (apply Z.mul_le_mono_nonneg_r; lia).
      lia.
Qed.

(** *** The operations on floats, with a bound V on the exact result *)

Lemma fadd_bounded x y a b V :
  float_units x = Some a → float_units y = Some b →
  - V ≤ a + b ≤ V → 2 ^ 52 ≤ V → V < 2 ^ 2097 →
  ∃ r, float_units (x + y) = Some r ∧ - V ≤ 2 ^ 52 * (r - (a + b)) ≤ V.
Proof.
  unfold float_units. intros Ha Hb Hab HV1 HV2. rewrite add_spec.
  destruct (SFadd_faithful _ _ a b (Prim2SF_valid x) (Prim2SF_valid y) Ha Hb)
    as (r & Hr & He); [lia|].
  exists r. split; [done|]. lia.
Qed.

Lemma fsub_bounded x y a b V :
  float_units x = Some a → float_units y = Some b →
  - V ≤ a - b ≤ V → 2 ^ 52 ≤ V → V < 2 ^ 2097 →
  ∃ r, float_units (x - y) = Some r ∧ - V ≤ 2 ^ 52 * (r - (a - b)) ≤ V.
Proof.
  unfold float_units. intros Ha Hb Hab HV1 HV2. rewrite sub_spec.
  destruct (SFsub_faithful _ _ a b (Prim2SF_valid x) (Prim2SF_valid y) Ha Hb)
    as (r & Hr & He); [lia|].
  exists r. split; [done|]. lia.
Qed.

(** Multiplication by a float that holds the integer n. *)
Lemma fmul_bounded x y a n V :
  float_units x = Some a → float_units y = Some (n * 2 ^ 1074) →
  - V ≤ a * n ≤ V → 2 ^ 52 ≤ V → V < 2 ^ 2097 →
  ∃ r, float_units (x * y) = Some r ∧ - V ≤ 2 ^ 52 * (r - a * n) ≤ V.
Proof.
  unfold float_units. intros Ha Hb Hab HV1 HV2. rewrite mul_spec.
  assert (HU : 0 < 2 ^ 1074) by done.
  destruct (SFmul_faithful _ _ a (n * 2 ^ 1074) (Prim2SF_valid x) (Prim2SF_valid y) Ha Hb)
    as (r & Hr & He).
  { replace (a * (n * 2 ^ 1074)) with (a * n * 2 ^ 1074) by ring.
    rewrite Z.abs_mul, (Z.abs_eq (2 ^ 1074)) by lia.
    change (2 ^ 3171) with (2 ^ 2097 * 2 ^ 1074).
    apply Z.mul_lt_mono_pos_r; lia. }
  exists r. split; [done|].
  replace (r * 2 ^ 1074 - a * (n * 2 ^ 1074)) with ((r - a * n) * 2 ^ 1074) in He by ring.
  replace (a * (n * 2 ^ 1074)) with (a * n * 2 ^ 1074) in He by ring.
  rewrite !Z.abs_mul, (Z.abs_eq (2 ^ 1074)) in He by lia.
  assert (Hmax : Z.max (Z.abs (a * n) * 2 ^ 1074) (2 ^ 52 * 2 ^ 1074) ≤ V * 2 ^ 1074).
  { apply Z.max_lub; apply Z.mul_le_mono_nonneg_r; lia. }
  assert (2 ^ 52 * Z.abs (r - a * n) ≤ V); [|lia].
  apply (Z.mul_le_mono_pos_r _ _ (2 ^ 1074)); lia.
Qed.

Lemma float_truediv_Ok x y b :
  float_units y = Some b → b ≠ 0 → float_truediv x y = Ok (x / y)%float.
Proof.
  unfold float_units, float_truediv. intros Hb Hb0.
  rewrite FloatAxioms.eqb_spec. change (Prim2SF 0) with (S754_zero false).
  destruct (Prim2SF y) as [s| | |[] m e]; simpl in *; try done.
  by simplify_eq.
Qed.

(** Division by a float that holds the positive integer n. *)
Lemma fdiv_bounded x y a n V :
  float_units x = Some a → float_units y = Some (n * 2 ^ 1074) →
  1 ≤ n → - V ≤ a ≤ V → 2 ^ 52 * n ≤ V → V < 2 ^ 2097 →
  ∃ q r, float_truediv x y = Ok q ∧ float_units q = Some r
         ∧ - V ≤ 2 ^ 52 * (r * n - a) ≤ V.
Proof.
  intros Ha Hb Hn Hab HV1 HV2.
  assert (HU : 0 < 2 ^ 1074) by done.
  exists (x / y)%float. rewrite (float_truediv_Ok x y _ Hb) by lia.
  unfold float_units in *. rewrite div_spec.
  destruct (SFdiv_faithful _ _ a (n * 2 ^ 1074) (Prim2SF_valid x) (Prim2SF_valid y) Ha Hb)
    as (r & Hr & He); [lia| |].
  { rewrite Z.abs_mul, (Z.abs_eq (2 ^ 1074)), (Z.abs_eq n) by lia.
    rewrite Z.mul_assoc. apply Z.mul_lt_mono_pos_r; [lia|]. nia. }
  exists r. split; [done|]. split; [done|].
  replace (r * (n * 2 ^ 1074) - a * 2 ^ 1074) with ((r * n - a) * 2 ^ 1074) in He by ring.
  rewrite !Z.abs_mul, (Z.abs_eq (2 ^ 1074)), (Z.abs_eq n) in He by lia.
  assert (Hmax : Z.max (Z.abs a * 2 ^ 1074) (2 ^ 52 * (n * 2 ^ 1074)) ≤ V * 2 ^ 1074).
  { apply Z.max_lub; [apply Z.mul_le_mono_nonneg_r; lia|].
    rewrite Z.mul_assoc. apply Z.mul_le_mono_nonneg_r; lia. }
  assert (2 ^ 52 * Z.abs (r * n - a) ≤ V); [|lia].
  apply (Z.mul_le_mono_pos_r _ _ (2 ^ 1074)); lia.
Qed.

(** [float(n)] for an integer of at most 53 bits is n. *)
Lemma float_of_int_units n :
  Z.abs n ≤ 2 ^ 53 →
  ∃ y, float_of_int n = Ok y ∧ float_units y = Some (n * 2 ^ 1074).
Proof.
  intros Hn. destruct (binary_normalize_int n Hn) as [Vn Un].
  exists (SF2Prim (binary_normalize prec emax n 0 false)). split.
  - unfold float_of_int. by destruct (binary_normalize prec emax n 0 false).
  - unfold float_units. by rewrite Prim2SF_SF2Prim.
Qed.

(** *** One axis of the YOLO round trip

    The ten operations that take the pair (lo, hi) of one axis to the
    normalised centre and extent and back.  Every intermediate value stays
    below V = 2^33, so every operation errs by at most 2^-19; at most six
    of these errors reach the lower corner and ten the upper one. *)
Lemma yolo_axis (lo hi two iw : float) (a0 a1 n : Z) :
  float_units lo = Some a0 → float_units hi = Some a1 →
  float_units two = Some (2 * 2 ^ 1074) → float_units iw = Some (n * 2 ^ 1074) →
  Z.abs a0 ≤ 2 ^ 30 * 2 ^ 1074 → Z.abs a1 ≤ 2 ^ 30 * 2 ^ 1074 →
  1 ≤ n ≤ 2 ^ 30 →
  ∃ hw xc wn hw',
    float_truediv (hi - lo) two = Ok hw
    ∧ float_truediv (lo + hw) iw = Ok xc
    ∧ float_truediv (hi - lo) iw = Ok wn
    ∧ float_truediv (wn * iw) two = Ok hw'
    ∧ values_within_1e_4 (xc * iw - hw') lo
    ∧ values_within_1e_4 ((xc * iw - hw') + wn * iw) hi.
Proof.
  intros Hlo Hhi Htwo Hiw Ha0 Ha1 Hn.
  pose (V := 2 ^ 33 * 2 ^ 1074).
  assert (HV : V = 2 ^ 33 * 2 ^ 1074) by reflexivity. clearbody V.
  destruct (fsub_bounded hi lo a1 a0 V Hhi Hlo) as (r1 & H1 & E1); [lia..|].
  destruct (fdiv_bounded (hi - lo) two r1 2 V H1 Htwo)
    as (hw & r2 & Hhw & H2 & E2); [lia..|].
  destruct (fadd_bounded lo hw a0 r2 V Hlo H2) as (r3 & H3 & E3); [lia..|].
  destruct (fdiv_bounded (lo + hw) iw r3 n V H3 Hiw)
    as (xc & r4 & Hxc & H4 & E4); [lia..|].
  destruct (fdiv_bounded (hi - lo) iw r1 n V H1 Hiw)
    as (wn & r5 & Hwn & H5 & E5); [lia..|].
  destruct (fmul_bounded wn iw r5 n V H5 Hiw) as (r6 & H6 & E6); [lia..|].
  destruct (fdiv_bounded (wn * iw) two r6 2 V H6 Htwo)
    as (hw' & r7 & Hhw' & H7 & E7); [lia..|].
  destruct (fmul_bounded xc iw r4 n V H4 Hiw) as (r8 & H8 & E8); [lia..|].
  destruct (fsub_bounded (xc * iw) hw' r8 r7 V H8 H7) as (r9 & H9 & E9); [lia..|].
  destruct (fadd_bounded (xc * iw - hw') (wn * iw) r9 r6 V H9 H6)
    as (r10 & H10 & E10); [lia..|].
  exists hw, xc, wn, hw'. do 4 (split; [done|]). split.
  - exists r9, a0. do 2 (split; [done|]). lia.
  - exists r10, a1. do 2 (split; [done|]). lia.
Qed.

(** ** Geometry *)

Lemma Qc_of_Z_neq_0 (n : Z) : n ≠ 0 → Qc_of_Z n ≠ 0%Qc.
Proof.
  intros Hn Hq. apply Hn. apply (f_equal Qcanon.this) in Hq. simpl in Hq.
  by injection Hq.
Qed.

Lemma Qc_truediv_Ok (x y : Qc) : y ≠ 0%Qc → Qc_truediv x y = Ok (x / y)%Qc.
Proof. intros Hy. unfold Qc_truediv. by destruct (decide (y = 0%Qc)). Qed.

(** C2 fails as stated: on an image 7 pixels wide the box from 0 to 1e15
    comes back with x_max off by 0.125, both as binary64 computes the
    difference and as a difference of exact values. *)
Lemma yolo_round_trip_float_deviates :
  PrimFloat.leb (x_min Examples.wide_box) (x_max Examples.wide_box) = true
  ∧ PrimFloat.leb (y_min Examples.wide_box) (y_max Examples.wide_box) = true
  ∧ ∃ b, yolo_round_trip Examples.wide_box 7 3 = Ok b
      ∧ PrimFloat.abs (x_max b - x_max Examples.wide_box) = 0.125%float
      ∧ within_tolerance (x_max b) (x_max Examples.wide_box) = false
      ∧ corners_within_tolerance b Examples.wide_box = false
      ∧ ¬ values_within_1e_4 (x_max b) (x_max Examples.wide_box).
Proof.
  split; [reflexivity|]. split; [reflexivity|].
  eexists. split; [vm_compute; reflexivity|].
  split; [reflexivity|]. split; [reflexivity|]. split; [reflexivity|].
  intros (a & c & Ha & Hc & Hle).
  vm_compute in Ha, Hc. simplify_eq. vm_compute in Hle. by apply Hle.
Qed.

(** In exact rational arithmetic [from_yolo] undoes [to_yolo] for every box
    and all image sizes other than 0: the corners come back as they were. *)
Lemma yolo_round_trip_rational (b : BBox Qc) (img_width img_height : Z) :
  img_width ≠ 0 → img_height ≠ 0 →
  yolo_round_trip b img_width img_height = Ok b.
Proof.
  intros Hw Hh.
  pose proof (Qc_of_Z_neq_0 _ Hw) as Hw'. pose proof (Qc_of_Z_neq_0 _ Hh) as Hh'.
  assert (H2 : Qc_of_Z 2 ≠ 0%Qc) by (by apply Qc_of_Z_neq_0).
  destruct b as [x0 y0 x1 y1].
  unfold yolo_round_trip, to_yolo, from_yolo.
  cbn [num_of_int num_truediv num_add num_sub num_mul fraction_number
       x_min y_min x_max y_max mbind result_bind].
  rewrite !Qc_truediv_Ok by done.
  unfold mbind, result_bind. cbv beta iota.
  rewrite !Qc_truediv_Ok by done.
  f_equal. f_equal; field; done.
Qed.

(** C2, as amended: for a box of binary64 coordinates of magnitude at most
    2^30 on an image whose width and height are between 1 and 2^30,
    [from_yolo] applied to the result of [to_yolo] returns a box, and each
    of its four corners differs from the original one by at most 1e-4. *)
Theorem yolo_round_trip_within_tolerance (b : BBox float) (img_width img_height : Z) :
  coordinate_in_range (x_min b) → coordinate_in_range (y_min b) →
  coordinate_in_range (x_max b) → coordinate_in_range (y_max b) →
  1 ≤ img_width ≤ 2 ^ 30 → 1 ≤ img_height ≤ 2 ^ 30 →
  ∃ b', yolo_round_trip b img_width img_height = Ok b'
        ∧ values_within_1e_4 (x_min b') (x_min b)
        ∧ values_within_1e_4 (y_min b') (y_min b)
        ∧ values_within_1e_4 (x_max b') (x_max b)
        ∧ values_within_1e_4 (y_max b') (y_max b).
Proof.
  destruct b as [x0 y0 x1 y1]. cbn [x_min y_min x_max y_max].
  intros (a0 & Hx0 & Bx0) (b0 & Hy0 & By0) (a1 & Hx1 & Bx1) (b1 & Hy1 & By1) Hw Hh.
  destruct (float_of_int_units 2) as (two & Htwo & Utwo); [lia|].
  destruct (float_of_int_units img_width) as (iw & Hiw & Uiw); [lia|].
  destruct (float_of_int_units img_height) as (ih & Hih & Uih); [lia|].
  destruct (yolo_axis x0 x1 two iw a0 a1 img_width Hx0 Hx1 Utwo Uiw Bx0 Bx1 Hw)
    as (hw & xc & wn & hw' & X1 & X2 & X3 & X4 & Xlo & Xhi).
  destruct (yolo_axis y0 y1 two ih b0 b1 img_height Hy0 Hy1 Utwo Uih By0 By1 Hh)
    as (hh & yc & hn & hh' & Y1 & Y2 & Y3 & Y4 & Ylo & Yhi).
  exists (mkBBox (xc * iw - hw') (yc * ih - hh')
                 (xc * iw - hw' + wn * iw) (yc * ih - hh' + hn * ih))%float.
  split; [|done].
  unfold yolo_round_trip, to_yolo, from_yolo.
  cbn [num_of_int num_truediv num_add num_sub num_mul float_number
       x_min y_min x_max y_max].
  repeat (first [rewrite Htwo | rewrite Hiw | rewrite Hih
                | rewrite X1 | rewrite X2 | rewrite X3 | rewrite X4
                | rewrite Y1 | rewrite Y2 | rewrite Y3 | rewrite Y4];
          cbn [mbind result_bind]).
  reflexivity.
Qed.

Lemma yolo_round_trip_within_tolerance_witness :
  (coordinate_in_range 10 ∧ coordinate_in_range 20
   ∧ coordinate_in_range 50 ∧ coordinate_in_range 80
   ∧ 1 ≤ 100 ≤ 2 ^ 30 ∧ 1 ≤ 200 ≤ 2 ^ 30)
  ∧ ∃ b', yolo_round_trip Examples.spec_box 100 200 = Ok b'
          ∧ values_within_1e_4 (x_min b') 10
          ∧ values_within_1e_4 (y_min b') 20
          ∧ values_within_1e_4 (x_max b') 50
          ∧ values_within_1e_4 (y_max b') 80.
Proof.
  assert (R : ∀ n : Z, Z.abs n ≤ 2 ^ 30 → ∀ x : float,
                float_units x = Some (n * 2 ^ 1074) → coordinate_in_range x).
  { intros n Hn x Hx. exists (n * 2 ^ 1074). split; [done|].
    rewrite Z.abs_mul. apply Z.mul_le_mono_nonneg_r; lia. }
  assert (H10 : coordinate_in_range 10) by (apply (R 10); [lia|reflexivity]).
  assert (H20 : coordinate_in_range 20) by (apply (R 20); [lia|reflexivity]).
  assert (H50 : coordinate_in_range 50) by (apply (R 50); [lia|reflexivity]).
  assert (H80 : coordinate_in_range 80) by (apply (R 80); [lia|reflexivity]).
  split; [repeat split; (done || lia)|].
  apply (yolo_round_trip_within_tolerance Examples.spec_box 100 200);
    (done || lia).
Defined.

(** C1 fails as stated: with x = 0.1 and w = 0.2 the width that comes back
    is 0.20000000000000004. *)
Lemma xywh_round_trip_float_deviates :
  PrimFloat.leb 0 0.2 = true ∧ PrimFloat.leb 0 0 = true
  ∧ to_xywh (from_xywh 0.1 0 0.2 0)%float
    = (0.1, 0, 0.20000000000000004, 0)%float
  ∧ to_xywh (from_xywh 0.1 0 0.2 0)%float ≠ (0.1, 0, 0.2, 0)%float
  ∧ tuple_eqb (to_xywh (from_xywh 0.1 0 0.2 0)%float) (0.1, 0, 0.2, 0)%float = false.
Proof.
  split; [reflexivity|]. split; [reflexivity|]. split; [reflexivity|].
  split; [|reflexivity].
  intros H. apply (f_equal (λ t, PrimFloat.eqb t.1.2 0.2)) in H.
  vm_compute in H. discriminate H.
Qed.

(** C1, as amended: for every x, y, w and h, [to_xywh] applied to
    [from_xywh x y w h] returns x and y themselves, and for width and height
    the differences (x + w) - x and (y + h) - y.  When the sums x + w and
    y + h are computed without rounding, these equal w and h, and the tuple
    that comes back equals (x, y, w, h). *)
Theorem xywh_round_trip (x y w h : float) :
  to_xywh (from_xywh x y w h) = (x, y, (x + w) - x, (y + h) - y)%float
  ∧ (exact_sum x w → exact_sum y h →
     tuple_eqb (to_xywh (from_xywh x y w h)) (x, y, w, h) = true).
Proof.
  split; [reflexivity|]. intros Hxw Hyh.
  unfold tuple_eqb, to_xywh, from_xywh. simpl.
  rewrite (add_sub_exact x w Hxw), (add_sub_exact y h Hyh).
  destruct Hxw as (ux & _ & Hx & _). destruct Hyh as (uy & _ & Hy & _).
  by rewrite (float_units_eqb_refl x ux Hx), (float_units_eqb_refl y uy Hy).
Qed.

Lemma xywh_round_trip_witness :
  (exact_sum 10 40 ∧ exact_sum 20 60)
  ∧ to_xywh (from_xywh 0.1 0 0.2 0)%float
    = (0.1, 0, (0.1 + 0.2) - 0.1, (0 + 0) - 0)%float
  ∧ to_xywh (from_xywh 10 20 40 60)%float = (10, 20, 40, 60)%float
  ∧ tuple_eqb (to_xywh (from_xywh 10 20 40 60)%float) (10, 20, 40, 60)%float = true.
Proof.
  assert (H1 : exact_sum 10 40).
  { exists (10 * 2 ^ 1074), (40 * 2 ^ 1074). repeat split; vm_compute; reflexivity. }
  assert (H2 : exact_sum 20 60).
  { exists (20 * 2 ^ 1074), (60 * 2 ^ 1074). repeat split; vm_compute; reflexivity. }
  split; [exact (conj H1 H2)|].
  split; [exact (proj1 (xywh_round_trip 0.1 0 0.2 0))|].
  split; [reflexivity|].
  exact (proj2 (xywh_round_trip 10 20 40 60) H1 H2).
Defined.
(** * Further properties of the code *)

(** ** models.py *)

Lemma find_snoc {A} (f : A → bool) (l : list A) (x : A) :
  find f (l ++ [x])
  = match find f l with
    | Some y => Some y
    | None => if f x then Some x else None
    end.
Proof.
  induction l as [|y l IH]; simpl; [done|]. by destruct (f y).
Qed.

(** X1: a category added to a dataset is found under its id and under its
    name exactly when no category already there has that id or that name;
    the categories found before are found as before. *)
Theorem get_category_after_add_category (self : Dataset) (category : Category)
    (cat_id : Z) (n : string) :
  get_category_by_id (add_category self category) cat_id
  = match get_category_by_id self cat_id with
    | Some c => Some c
    | None => if id category =? cat_id then Some category else None
    end
  ∧ get_category_by_name (add_category self category) n
    = match get_category_by_name self n with
      | Some c => Some c
      | None => if String.eqb (name category) n then Some category else None
      end.
Proof.
  unfold get_category_by_id, get_category_by_name, add_category. simpl.
  by rewrite !find_snoc.
Qed.

Lemma float_of_int_2 : float_of_int 2 = Ok 2%float.
Proof. reflexivity. Qed.

Lemma float_truediv_2 (x : float) : float_truediv x 2 = Ok (x / 2)%float.
Proof. reflexivity. Qed.

Lemma float_truediv_0 (x : float) :
  float_truediv x 0 = builtin_error ZeroDivisionError.
Proof. reflexivity. Qed.

Lemma to_yolo_raises (b : BBox float) (img_width img_height : Z) :
  Z.abs img_width ≤ 2 ^ 53 →
  img_width = 0 ∨ img_height = 0 →
  to_yolo b img_width img_height = builtin_error ZeroDivisionError.
Proof.
  intros Hw Hz. unfold to_yolo.
  cbn [num_of_int num_truediv num_add num_sub float_number].
  rewrite float_of_int_2. cbn [mbind result_bind].
  rewrite !float_truediv_2. cbn [mbind result_bind].
  destruct (decide (img_width = 0)) as [->|Hw0].
  { change (float_of_int 0) with (Ok 0%float). cbn [mbind result_bind].
    rewrite float_truediv_0. reflexivity. }
  destruct Hz as [?| ->]; [done|].
  destruct (float_of_int_units img_width Hw) as (iw & -> & Uiw).
  cbn [mbind result_bind].
  rewrite !(float_truediv_Ok _ iw _ Uiw) by lia. cbn [mbind result_bind].
  change (float_of_int 0) with (Ok 0%float). cbn [mbind result_bind].
  rewrite float_truediv_0. reflexivity.
Qed.

Lemma to_yolo_returns (b : BBox float) (img_width img_height : Z) :
  Z.abs img_width ≤ 2 ^ 53 → Z.abs img_height ≤ 2 ^ 53 →
  img_width ≠ 0 → img_height ≠ 0 →
  ∃ t, to_yolo b img_width img_height = Ok t.
Proof.
  intros Hw Hh Hw0 Hh0. unfold to_yolo.
  cbn [num_of_int num_truediv num_add num_sub float_number].
  rewrite float_of_int_2. cbn [mbind result_bind].
  rewrite !float_truediv_2. cbn [mbind result_bind].
  destruct (float_of_int_units img_width Hw) as (iw & -> & Uiw).
  destruct (float_of_int_units img_height Hh) as (ih & -> & Uih).
  cbn [mbind result_bind].
  rewrite !(float_truediv_Ok _ iw _ Uiw) by lia. cbn [mbind result_bind].
  rewrite !(float_truediv_Ok _ ih _ Uih) by lia. cbn [mbind result_bind].
  by eexists.
Qed.

(** X2: [to_yolo] divides by the image size: for an image whose width or
    height is 0 it raises ZeroDivisionError, whatever the box. *)
Theorem to_yolo_zero_dimension (b : BBox float) (img_width img_height : Z) :
  Z.abs img_width ≤ 2 ^ 53 →
  img_width = 0 ∨ img_height = 0 →
  to_yolo b img_width img_height = builtin_error ZeroDivisionError.
Proof. apply to_yolo_raises. Qed.

Lemma to_yolo_zero_dimension_witness :
  (Z.abs 640 ≤ 2 ^ 53 ∧ (640 = 0 ∨ 0 = 0))
  ∧ to_yolo Examples.spec_box 640 0 = builtin_error ZeroDivisionError.
Proof.
  split; [split; [lia|by right]|].
  apply (to_yolo_zero_dimension Examples.spec_box 640 0); [lia|by right].
Defined.

(** X3: [from_yolo] multiplies by the image size and divides by 2 only: for
    every image size that a float holds exactly, 0 and the negative ones
    included, it returns the box of its four formulas and raises nothing. *)
Theorem from_yolo_returns (x_center y_center w h : float) (img_width img_height : Z) :
  Z.abs img_width ≤ 2 ^ 53 → Z.abs img_height ≤ 2 ^ 53 →
  ∃ iw ih,
    float_of_int img_width = Ok iw ∧ float_of_int img_height = Ok ih
    ∧ from_yolo x_center y_center w h img_width img_height
      = Ok (mkBBox (x_center * iw - w * iw / 2) (y_center * ih - h * ih / 2)
              (x_center * iw - w * iw / 2 + w * iw)
              (y_center * ih - h * ih / 2 + h * ih))%float.
Proof.
  intros Hw Hh.
  destruct (float_of_int_units img_width Hw) as (iw & Hiw & _).
  destruct (float_of_int_units img_height Hh) as (ih & Hih & _).
  exists iw, ih. do 2 (split; [done|]).
  unfold from_yolo. cbn [num_of_int num_truediv num_add num_sub num_mul float_number].
  rewrite Hiw, Hih, float_of_int_2. cbn [mbind result_bind].
  rewrite !float_truediv_2. by cbn [mbind result_bind].
Qed.

Lemma from_yolo_returns_witness :
  (Z.abs 0 ≤ 2 ^ 53 ∧ Z.abs (-3) ≤ 2 ^ 53)
  ∧ ∃ iw ih,
      float_of_int 0 = Ok iw ∧ float_of_int (-3) = Ok ih
      ∧ from_yolo 0.5%float 0.5%float 0.25%float 0.25%float 0 (-3)
        = Ok (mkBBox (0.5 * iw - 0.25 * iw / 2) (0.5 * ih - 0.25 * ih / 2)
                (0.5 * iw - 0.25 * iw / 2 + 0.25 * iw)
                (0.5 * ih - 0.25 * ih / 2 + 0.25 * ih))%float.
Proof.
  split; [split; lia|].
  apply (from_yolo_returns 0.5%float 0.5%float 0.25%float 0.25%float 0 (-3)); lia.
Defined.

(** ** converter.py *)

Lemma format_keys_cases format_type :
  format_type ∈ Converter.format_keys →
  format_type = "coco"%string ∨ format_type = "yolo"%string ∨ format_type = "voc"%string.
Proof.
  unfold Converter.format_keys. rewrite !elem_of_cons, elem_of_nil. tauto.
Qed.

(** What [read] does for a supported format once the arguments that YOLO
    needs are there: one call of a reader. *)
Lemma read_supported (reader_outcome : Converter.call → result Dataset)
    format_type source_path kwargs log :
  format_type ∈ Converter.format_keys →
  (format_type = "yolo"%string →
   Converter.truthy (kwargs !! "images_dir") = true
   ∧ Converter.truthy (kwargs !! "classes_file") = true) →
  ∃ rc, is_reader_call rc
        ∧ run (Converter.read reader_outcome format_type source_path kwargs) log
          = (reader_outcome rc, log ++ [rc]).
Proof.
  intros Hin Hy. unfold Converter.read.
  destruct (decide (format_type ∈ Converter.format_keys)) as [_|]; [|done].
  destruct (format_keys_cases _ Hin) as [->|[->| ->]]; simpl.
  - by eexists (Converter.COCORead _).
  - destruct Hy as [-> ->]; [done|]. simpl. by eexists (Converter.YOLORead _ _ _ _).
  - by eexists (Converter.VOCRead _).
Qed.

Lemma write_supported (writer_outcome : Converter.call → result unit * Dataset)
    (default_classes_file : string → string) format_type ds target_path kwargs log :
  format_type ∈ Converter.format_keys →
  ∃ wc, is_writer_call_on ds wc
        ∧ run (Converter.write writer_outcome default_classes_file
                 format_type ds target_path kwargs) log
          = ((λ _, (writer_outcome wc).2) <$> (writer_outcome wc).1, log ++ [wc]).
Proof.
  intros Hin. unfold Converter.write.
  destruct (decide (format_type ∈ Converter.format_keys)) as [_|]; [|done].
  destruct (format_keys_cases _ Hin) as [->|[->| ->]]; simpl;
    match goal with |- context [writer_outcome ?c] => exists c end;
    (split; [done|]); by destruct (writer_outcome _).
Qed.

(** The call [f(a, b, **kwargs)] runs the body of [f] when no key of
    [kwargs] names a parameter filled by position, and raises TypeError
    before the body otherwise. *)
Lemma call_with_kwargs_free {A} positional (kwargs : gmap string string)
    (body : State (list Converter.call) A) :
  Forall (λ p, kwargs !! p = None) positional →
  Converter.call_with_kwargs positional kwargs body = body.
Proof.
  intros Hfree. unfold Converter.call_with_kwargs.
  rewrite bool_decide_eq_false_2; [done|].
  rewrite Exists_exists. intros (p & Hp & Hsome).
  rewrite Forall_forall in Hfree. rewrite (Hfree p Hp) in Hsome.
  by destruct Hsome.
Qed.


(** [convert] whose [kwargs] name no parameter of [read] and [write]. *)
Lemma convert_free (reader_outcome : Converter.call → result Dataset)
    (writer_outcome : Converter.call → result unit * Dataset)
    (default_classes_file : string → string)
    source_format target_format source_path target_path
    (kwargs : gmap string string) log :
  kwargs !! "format_type" = None → kwargs !! "dataset" = None →
  run (Converter.convert reader_outcome writer_outcome default_classes_file
         source_format target_format source_path target_path kwargs) log
  = run (dataset ← Converter.read reader_outcome source_format source_path kwargs;
         dataset ← Converter.write writer_outcome default_classes_file
                     target_format dataset target_path kwargs;
         mret dataset) log.
Proof.
  intros Hf Hd. unfold Converter.convert.
  rewrite call_with_kwargs_free by (by repeat constructor).
  rewrite !run_bind.
  destruct (run (Converter.read _ _ _ _) log) as [[ds|e] log']; [|done].
  by rewrite call_with_kwargs_free by (by repeat constructor).
Qed.

(** X4: [convert] between two supported formats, with keyword arguments
    among which there is no [format_type] and no [dataset], calls one reader
    and then, if the reader returned a dataset, one writer on that dataset,
    and returns the dataset as the writer leaves it; what either of them
    raises is raised by [convert], and a reader that raises is followed by
    no writer. *)
Theorem Converter_convert_calls
    (reader_outcome : Converter.call → result Dataset)
    (writer_outcome : Converter.call → result unit * Dataset)
    (default_classes_file : string → string)
    (source_format target_format source_path target_path : string)
    (kwargs : gmap string string) (log : list Converter.call) :
  kwargs !! "format_type" = None → kwargs !! "dataset" = None →
  source_format ∈ Converter.format_keys →
  target_format ∈ Converter.format_keys →
  (source_format = "yolo"%string →
   Converter.truthy (kwargs !! "images_dir") = true
   ∧ Converter.truthy (kwargs !! "classes_file") = true) →
  ∃ rc, is_reader_call rc ∧
    match reader_outcome rc with
    | Raise e =>
        run (Converter.convert reader_outcome writer_outcome default_classes_file
               source_format target_format source_path target_path kwargs) log
        = (Raise e, log ++ [rc])
    | Ok ds =>
        ∃ wc, is_writer_call_on ds wc ∧
          run (Converter.convert reader_outcome writer_outcome default_classes_file
                 source_format target_format source_path target_path kwargs) log
          = (match (writer_outcome wc).1 with
             | Ok _ => Ok (writer_outcome wc).2
             | Raise e => Raise e
             end, log ++ [rc; wc])
    end.
Proof.
  intros Hf Hd Hs Ht Hy.
  destruct (read_supported reader_outcome source_format source_path kwargs log Hs Hy)
    as (rc & Hrc & Hread).
  exists rc. split; [done|]. rewrite !convert_free by done.
  rewrite run_bind, Hread.
  destruct (reader_outcome rc) as [ds|e]; [|done].
  destruct (write_supported writer_outcome default_classes_file target_format ds
              target_path kwargs (log ++ [rc]) Ht) as (wc & Hwc & Hwrite).
  exists wc. split; [done|].
  rewrite run_bind, Hwrite, <- app_assoc. simpl.
  by destruct (writer_outcome wc).1.
Qed.

Lemma Converter_convert_calls_witness :
  (({["images_dir" := "images"; "classes_file" := "classes.txt"]}
      : gmap string string) !! "format_type" = None
   ∧ ({["images_dir" := "images"; "classes_file" := "classes.txt"]}
      : gmap string string) !! "dataset" = None
   ∧ "yolo"%string ∈ Converter.format_keys ∧ "voc"%string ∈ Converter.format_keys
   ∧ ("yolo"%string = "yolo"%string →
      Converter.truthy (({["images_dir" := "images"; "classes_file" := "classes.txt"]}
                           : gmap string string) !! "images_dir") = true
      ∧ Converter.truthy (({["images_dir" := "images"; "classes_file" := "classes.txt"]}
                           : gmap string string) !! "classes_file") = true))
  ∧ ∃ rc, is_reader_call rc ∧
      match (λ _, Ok Examples.xml_dataset) rc with
      | Raise e =>
          run (Converter.convert (λ _, Ok Examples.xml_dataset)
                 (λ _, (Ok (), Examples.xml_dataset)) (λ p, p)
                 "yolo" "voc" "labels" "out"
                 {["images_dir" := "images"; "classes_file" := "classes.txt"]}) []
          = (Raise e, [] ++ [rc])
      | Ok ds =>
          ∃ wc, is_writer_call_on ds wc ∧
            run (Converter.convert (λ _, Ok Examples.xml_dataset)
                   (λ _, (Ok (), Examples.xml_dataset)) (λ p, p)
                   "yolo" "voc" "labels" "out"
                   {["images_dir" := "images"; "classes_file" := "classes.txt"]}) []
            = (match ((λ _, (Ok (), Examples.xml_dataset)) wc).1 with
               | Ok _ => Ok ((λ _, (Ok (), Examples.xml_dataset)) wc).2
               | Raise e => Raise e
               end, [] ++ [rc; wc])
      end.
Proof.
  assert (H1 : "yolo"%string ∈ Converter.format_keys) by (unfold Converter.format_keys; repeat constructor).
  assert (H2 : "voc"%string ∈ Converter.format_keys) by (unfold Converter.format_keys; repeat constructor).
  assert (H3 : "yolo"%string = "yolo"%string →
      Converter.truthy (({["images_dir" := "images"; "classes_file" := "classes.txt"]}
                           : gmap string string) !! "images_dir") = true
      ∧ Converter.truthy (({["images_dir" := "images"; "classes_file" := "classes.txt"]}
                           : gmap string string) !! "classes_file") = true)
    by (intros _; split; reflexivity).
  assert (Hf : ({["images_dir" := "images"; "classes_file" := "classes.txt"]}
                  : gmap string string) !! "format_type" = None) by reflexivity.
  assert (Hd : ({["images_dir" := "images"; "classes_file" := "classes.txt"]}
                  : gmap string string) !! "dataset" = None) by reflexivity.
  split; [exact (conj Hf (conj Hd (conj H1 (conj H2 H3))))|].
  exact (Converter_convert_calls (λ _, Ok Examples.xml_dataset)
           (λ _, (Ok (), Examples.xml_dataset)) (λ p, p)
           "yolo" "voc" "labels" "out"
           {["images_dir" := "images"; "classes_file" := "classes.txt"]} []
           Hf Hd H1 H2 H3).
Defined.

(** X5: for the source format "yolo", [convert] without a non-empty
    [images_dir] or without a non-empty [classes_file] (and without a
    keyword argument [format_type]) raises the ValueError of [read] before
    any reader or writer is called, whatever the target format and the
    other keyword arguments are. *)
Theorem Converter_convert_yolo_requires_kwargs
    (reader_outcome : Converter.call → result Dataset)
    (writer_outcome : Converter.call → result unit * Dataset)
    (default_classes_file : string → string)
    (target_format source_path target_path : string)
    (kwargs : gmap string string) (log : list Converter.call) :
  kwargs !! "format_type" = None →
  Converter.truthy (kwargs !! "images_dir") = false
  ∨ Converter.truthy (kwargs !! "classes_file") = false →
  run (Converter.convert reader_outcome writer_outcome default_classes_file
         "yolo" target_format source_path target_path kwargs) log
  = (Raise (Exn ValueError
       (Some "YOLO format requires 'images_dir' and 'classes_file' parameters")),
     log).
Proof.
  intros Hf Hk. unfold Converter.convert.
  rewrite call_with_kwargs_free by (by repeat constructor). rewrite run_bind.
  unfold Converter.read.
  destruct (decide ("yolo"%string ∈ Converter.format_keys)) as [_|Hn].
  2: { exfalso. apply Hn. unfold Converter.format_keys. repeat constructor. }
  simpl.
  destruct Hk as [->| ->]; [done|].
  by rewrite orb_true_r.
Qed.

Lemma Converter_convert_yolo_requires_kwargs_witness :
  (({["classes_file" := "classes.txt"]} : gmap string string) !! "format_type" = None
   ∧ (Converter.truthy (({["classes_file" := "classes.txt"]} : gmap string string)
                          !! "images_dir") = false
      ∨ Converter.truthy (({["classes_file" := "classes.txt"]} : gmap string string)
                            !! "classes_file") = false))
  ∧ run (Converter.convert (λ _, Ok Dataset_new) (λ _, (Ok (), Dataset_new)) (λ p, p)
           "yolo" "coco" "labels" "out.json" {["classes_file" := "classes.txt"]}) []
    = (Raise (Exn ValueError
         (Some "YOLO format requires 'images_dir' and 'classes_file' parameters")),
       []).
Proof.
  split; [split; [reflexivity|left; reflexivity]|].
  apply (Converter_convert_yolo_requires_kwargs (λ _, Ok Dataset_new)
           (λ _, (Ok (), Dataset_new)) (λ p, p) "coco" "labels" "out.json"
           {["classes_file" := "classes.txt"]} []).
  - reflexivity.
  - left; reflexivity.
Defined.





(** ** Loops that collect one item per element *)

Lemma mapM_Ok {A B} (g : A → result B) (l : list A) (ys : list B) :
  mapM g l = Ok ys ↔ Forall2 (λ x y, g x = Ok y) l ys.
Proof.
  revert ys. induction l as [|x l IH]; intros ys; simpl.
  - split; [intros [= <-]; constructor|by inversion 1].
  - split.
    + destruct (g x) as [y|e] eqn:Hx; simpl; [|done].
      destruct (mapM g l) as [k|e]; simpl; [|done].
      intros [= <-]. constructor; [done|by apply IH].
    + inversion 1 as [|? y ? k Hx Hl]; subst. rewrite Hx. simpl.
      apply IH in Hl. by rewrite Hl.
Qed.

Lemma mapM_returns {A B} (g : A → result B) (l : list A) :
  (∀ x, x ∈ l → ∃ y, g x = Ok y) → ∃ ys, mapM g l = Ok ys.
Proof.
  induction l as [|x l IH]; intros Hl; simpl; [by eexists|].
  destruct (Hl x) as [y ->]; [left|]. simpl.
  destruct IH as [ys ->]; [intros; apply Hl; by right|]. by eexists.
Qed.

(** If every element either gives an item or raises [e], and one of them
    raises, the loop raises [e]. *)
Lemma mapM_raises {A B} (g : A → result B) (l : list A) (e : exn) :
  (∀ x, x ∈ l → g x = Raise e ∨ ∃ y, g x = Ok y) →
  (∃ x, x ∈ l ∧ g x = Raise e) →
  mapM g l = Raise e.
Proof.
  induction l as [|x l IH]; intros Hall (x0 & Hin & Hx0); [by inversion Hin|].
  simpl. destruct (Hall x) as [->|[y Hy]]; [left|done|].
  rewrite Hy. simpl. rewrite IH; [done| |].
  - intros; apply Hall; by right.
  - apply elem_of_cons in Hin as [->|Hin]; [congruence|by exists x0].
Qed.

Lemma for_each_collect {S A B} (g : A → result B)
    (body : list B → A → State S (list B)) :
  (∀ acc x s, run (body acc x) s = ((λ y, acc ++ [y]) <$> g x, s)) →
  ∀ l acc s, run (for_each body l acc) s = ((λ ys, acc ++ ys) <$> mapM g l, s).
Proof.
  intros Hbody l. induction l as [|x l IH]; intros acc s.
  - simpl. by rewrite app_nil_r.
  - cbn [for_each mapM]. rewrite run_bind, Hbody. destruct (g x) as [y|e]; simpl; [|done].
    rewrite IH. destruct (mapM g l) as [ys|e]; simpl; [|done].
    by rewrite <- app_assoc.
Qed.

(** ** sorted(l, key=...) *)







(** ** formats/pascal_voc.py: the reader *)

Lemma py_int_cases s : (∃ n, py_int s = Ok n) ∨ py_int s = builtin_error ValueError.
Proof. unfold py_int. destruct (int_literal s); [left; by eexists|by right]. Qed.

Lemma py_float_cases s : (∃ x, py_float s = Ok x) ∨ py_float s = builtin_error ValueError.
Proof. unfold py_float. destruct (float_literal s); [left; by eexists|by right]. Qed.

(** A loop that raises nothing but [e] and keeps [P]. *)
Lemma foldM_cases {A B} (P : B → Prop) (e : exn) (body : B → A → result B) l :
  (∀ b x, x ∈ l → P b → body b x = Raise e ∨ ∃ b', body b x = Ok b' ∧ P b') →
  ∀ acc, P acc → foldM body l acc = Raise e ∨ ∃ r, foldM body l acc = Ok r ∧ P r.
Proof.
  induction l as [|x l IH]; intros Hbody acc Hacc; simpl; [right; by eexists|].
  destruct (Hbody acc x) as [->|(b' & -> & Hb')]; [left|done|by left|].
  simpl. apply IH; [|done]. intros b y Hy. apply Hbody. by right.
Qed.

Lemma foldM_invariant {A B} (P : B → Prop) (body : B → A → result B) l :
  (∀ b x b', x ∈ l → P b → body b x = Ok b' → P b') →
  ∀ acc r, P acc → foldM body l acc = Ok r → P r.
Proof.
  induction l as [|x l IH]; intros Hbody acc r Hacc; simpl; [by intros [= <-]|].
  destruct (body acc x) as [b'|e] eqn:Hb; simpl; [|done].
  apply IH; [|by eapply Hbody; [left|..]]. intros b y b2 Hy. apply Hbody. by right.
Qed.

Section voc_reader_more.
Import PascalVOCReader.

Lemma category_map_domain names n : ∀ start cats (m : gmap string Z),
  n ∈ names ∨ is_Some (m !! n) →
  is_Some ((fold_left add_category_entry (enumerate start names) (cats, m)).2 !! n).
Proof.
  induction names as [|n' names IH]; intros start cats m Hn; simpl.
  - destruct Hn as [Hn|Hn]; [by apply elem_of_nil in Hn|done].
  - apply IH. destruct Hn as [Hn|Hn].
    + apply elem_of_cons in Hn as [->|Hn]; [right|by left].
      rewrite lookup_insert_eq. by eexists.
    + right. destruct (decide (n' = n)) as [->|Hne].
      * rewrite lookup_insert_eq. by eexists.
      * by rewrite lookup_insert_ne.
Qed.

Lemma category_map_lookup names n i : ∀ start cats (m : gmap string Z),
  (fold_left add_category_entry (enumerate start names) (cats, m)).2 !! n = Some i →
  m !! n = Some i ∨ ∃ k, names !! k = Some n ∧ i = start + Z.of_nat k.
Proof.
  induction names as [|n' names IH]; intros start cats m; simpl; [by left|].
  intros H. apply IH in H as [H|(k & Hk & ->)].
  - destruct (decide (n' = n)) as [->|Hne].
    + rewrite lookup_insert_eq in H. simplify_eq. right. exists 0%nat. split; [done|lia].
    + rewrite lookup_insert_ne in H by done. by left.
  - right. exists (S k). split; [done|lia].
Qed.


Lemma read_object_cases (m : gmap string Z) image obj :
  (∀ n, child_text obj "name" = Some n → is_Some (m !! n)) →
  read_object m image obj = builtin_error ValueError
  ∨ read_object m image obj = Ok image
  ∨ ∃ a, read_object m image obj = Ok (add_annotation image a) ∧ mapped m a.
Proof.
  intros Hm. unfold read_object.
  destruct (child_text obj "name") as [n|]; [|by right; left].
  destruct (Hm n eq_refl) as [cid Hcid]. unfold flag.
  assert (Hflag : ∀ t, (∃ v, match child_text obj t with
                              | Some s => py_int s | None => Ok 0 end = Ok v)
                       ∨ match child_text obj t with
                         | Some s => py_int s | None => Ok 0 end
                         = builtin_error ValueError).
  { intros t. destruct (child_text obj t); [apply py_int_cases|left; by eexists]. }
  destruct (Hflag "difficult"%string) as [[d ->]| ->]; [|by left].
  destruct (Hflag "truncated"%string) as [[t ->]| ->]; [|by left].
  cbn [mbind result_bind].
  destruct (find_child obj "bndbox") as [bndbox|]; [|by right; left].
  destruct (child_text bndbox "xmin") as [ta|]; [|by right; left].
  destruct (child_text bndbox "ymin") as [tb|]; [|by right; left].
  destruct (child_text bndbox "xmax") as [tc|]; [|by right; left].
  destruct (child_text bndbox "ymax") as [td|]; [|by right; left].
  destruct (py_float_cases ta) as [[xa ->]| ->]; [|by left].
  destruct (py_float_cases tb) as [[xb ->]| ->]; [|by left].
  destruct (py_float_cases tc) as [[xc ->]| ->]; [|by left].
  destruct (py_float_cases td) as [[xd ->]| ->]; [|by left].
  rewrite Hcid. cbn [mbind result_bind]. right; right. eexists. split; [done|].
  exact Hcid.
Qed.

Lemma read_objects_cases (m : gmap string Z) objs : ∀ image,
  (∀ obj n, obj ∈ objs → child_text obj "name" = Some n → is_Some (m !! n)) →
  foldM (read_object m) objs image = builtin_error ValueError
  ∨ ∃ anns, foldM (read_object m) objs image = Ok (with_annotations image anns)
            ∧ Forall (mapped m) anns.
Proof.
  induction objs as [|obj objs IH]; intros image Hm; simpl.
  - right. exists []. split; [|done]. unfold with_annotations.
    rewrite app_nil_r. by destruct image.
  - destruct (read_object_cases m image obj) as [->|[->|(a & -> & Ha)]].
    + intros n. apply Hm. by left.
    + by left.
    + simpl. apply IH. intros o n Ho. apply Hm. by right.
    + simpl. destruct (IH (add_annotation image a)) as [->|(anns & -> & Hanns)].
      * intros o n Ho. apply Hm. by right.
      * by left.
      * right. exists (a :: anns). split; [|by constructor].
        unfold with_annotations, add_annotation. simpl. by rewrite <- app_assoc.
Qed.

Lemma read_file_cases (m : gmap string Z) images root :
  (∀ obj n, obj ∈ findall root "object" → child_text obj "name" = Some n →
            is_Some (m !! n)) →
  match image_header root with
  | None => read_file m images root = Ok images
  | Some h =>
      read_file m images root = builtin_error ValueError
      ∨ ∃ image, read_file m images root = Ok (images ++ [image])
                 ∧ image_of_header m h image
  end.
Proof.
  intros Hm. unfold image_header, read_file.
  destruct (child_text root "filename") as [fn|]; [|done]. simpl.
  destruct (find_child root "size") as [size|]; [|done]. simpl.
  destruct (child_text size "width") as [wt|]; [|done]. simpl.
  destruct (child_text size "height") as [ht|]; [|done]. simpl.
  destruct (py_int_cases wt) as [[w Hw]|Hw]; rewrite Hw; [|by left].
  destruct (py_int_cases ht) as [[h Hh]|Hh]; rewrite Hh; [|by left].
  cbn [mbind result_bind].
  destruct (read_objects_cases m (findall root "object") (mkImage fn w h [] None) Hm)
    as [->|(anns & -> & Hanns)]; [by left|].
  right. eexists. split; [done|]. by repeat split.
Qed.

Lemma read_files_cases (m : gmap string Z) xml_files : ∀ acc,
  (∀ root obj n, root ∈ xml_files → obj ∈ findall root "object" →
                 child_text obj "name" = Some n → is_Some (m !! n)) →
  foldM (read_file m) xml_files acc = builtin_error ValueError
  ∨ ∃ imgs, foldM (read_file m) xml_files acc = Ok (acc ++ imgs)
            ∧ Forall2 (image_of_header m) (omap image_header xml_files) imgs.
Proof.
  induction xml_files as [|root files IH]; intros acc Hm; simpl.
  - right. exists []. by rewrite app_nil_r.
  - pose proof (read_file_cases m acc root) as Hroot.
    assert (Hm' : ∀ root obj n, root ∈ files → obj ∈ findall root "object" →
                    child_text obj "name" = Some n → is_Some (m !! n)).
    { intros r o n Hr. apply Hm. by right. }
    destruct (image_header root) as [h|].
    + destruct Hroot as [->|(image & -> & Himage)].
      * intros o n. apply Hm. by left.
      * by left.
      * simpl. destruct (IH (acc ++ [image]) Hm') as [->|(imgs & -> & Himgs)];
          [by left|].
        right. exists (image :: imgs). rewrite <- app_assoc. split; [done|].
        by constructor.
    + rewrite Hroot by (intros o n; apply Hm; by left). simpl. by apply IH.
Qed.

(** The two passes of [read]: the map of the first pass has every name that
    the second pass looks up. *)
Lemma read_cases xml_files :
  let names := sorted_names (collect_names xml_files) in
  let m := (make_categories names).2 in
  read xml_files = builtin_error ValueError
  ∨ ∃ imgs, read xml_files
            = Ok (mkDataset imgs
                    (imap (λ i n, mkCategory (Z.of_nat i) n None) names) (JObject []))
            ∧ Forall2 (image_of_header m) (omap image_header xml_files) imgs.
Proof.
  intros names m. unfold read.
  pose proof (make_categories_fst names 0 [] ∅) as Hc.
  fold names. unfold m, make_categories in *.
  destruct (fold_left _ _ _) as [cats category_map] eqn:Hfold. simpl in Hc. subst cats.
  simpl.
  destruct (read_files_cases category_map xml_files []) as [->|(imgs & -> & Himgs)].
  - intros root obj n Hroot Hobj Hn.
    pose proof (category_map_domain names n 0 [] ∅) as Hd.
    rewrite Hfold in Hd. apply Hd. left.
    apply sorted_names_spec, elem_of_collect_names. by exists root, obj.
  - by left.
  - right. exists imgs. split; [|done]. reflexivity.
Qed.

Lemma find_imap_name (names : list string) n : ∀ k start,
  NoDup names → names !! k = Some n →
  find (λ cat, String.eqb (name cat) n)
    (imap (λ i n, mkCategory (start + Z.of_nat i) n None) names)
  = Some (mkCategory (start + Z.of_nat k) n None).
Proof.
  induction names as [|n' names IH]; intros k start Hnd Hk; [done|].
  apply NoDup_cons in Hnd as [Hn' Hnd]. simpl.
  destruct k as [|k]; simpl in Hk.
  - simplify_eq. by rewrite String.eqb_refl.
  - destruct (String.eqb_spec n' n) as [->|_].
    { exfalso. apply Hn'. by eapply list_elem_of_lookup_2. }
    rewrite (imap_ext _ (λ i n, mkCategory ((start + 1) + Z.of_nat i) n None)).
    + rewrite (IH k) by done. do 2 f_equal. lia.
    + intros; simpl. f_equal. lia.
Qed.

Lemma find_imap_id (names : list string) n : ∀ k start,
  names !! k = Some n →
  find (λ cat, id cat =? start + Z.of_nat k)
    (imap (λ i n, mkCategory (start + Z.of_nat i) n None) names)
  = Some (mkCategory (start + Z.of_nat k) n None).
Proof.
  induction names as [|n' names IH]; intros k start Hk; [done|]. simpl.
  destruct k as [|k]; simpl in Hk.
  - simplify_eq. by rewrite Z.eqb_refl.
  - match goal with |- context [?a =? ?b] =>
      destruct (Z.eqb_spec a b) as [?|_]; [simpl in *; lia|] end.
    rewrite (imap_ext _ (λ i n, mkCategory ((start + 1) + Z.of_nat i) n None)).
    + replace (start + Z.of_nat (S k)) with (start + 1 + Z.of_nat k) by lia.
      by rewrite (IH k).
    + intros; simpl. f_equal. lia.
Qed.

End voc_reader_more.

Lemma mapM_outcomes_Raise {A} (l : list (result A)) (e : exn) :
  mapM (λ parse, parse) l = Raise e → Raise e ∈ l.
Proof.
  induction l as [|[a|e'] l IH]; cbn [mapM mbind result_bind]; [done| |].
  - destruct (mapM (λ parse, parse) l) as [k|e'']; cbn [mbind result_bind]; [done|].
    intros [= ->]. right. by apply IH.
  - intros [= ->]. left.
Qed.

(** X11: what the Pascal VOC reader raises is what [ET.parse] raises for
    one of the files, or the ValueError of a text that [int] or [float]
    rejects; in particular the lookup of a name in the map of the first pass
    never raises KeyError.  When every file parses, the reader returns a
    dataset or raises that ValueError. *)
Theorem PascalVOCReader_raises_only_ValueError (parsed : list (result Element))
    (e : exn) :
  read_directory parsed = Raise e →
  (e = Exn ValueError None ∨ Raise e ∈ parsed)
  ∧ (∀ xml_files, parsed = Ok <$> xml_files →
       PascalVOCReader.read xml_files = builtin_error ValueError).
Proof.
  unfold read_directory. intros Hread. split.
  - destruct (mapM (λ parse, parse) parsed) as [xml_files|e'] eqn:Hparsed; simpl in Hread.
    + left. destruct (read_cases xml_files) as [H|(imgs & H & _)];
        rewrite H in Hread; [by injection Hread as <-|discriminate Hread].
    + injection Hread as ->. right. by apply mapM_outcomes_Raise.
  - intros xml_files ->.
    assert (mapM (λ parse, parse) (Ok <$> xml_files) = Ok xml_files) as Hparsed.
    { clear. induction xml_files as [|x l IH]; [done|].
      cbn [fmap list_fmap mapM mbind result_bind]. by rewrite IH. }
    rewrite Hparsed in Hread. simpl in Hread.
    destruct (read_cases xml_files) as [H|(imgs & H & _)]; [done|].
    by rewrite H in Hread.
Qed.

Lemma PascalVOCReader_raises_only_ValueError_witness :
  read_directory Samples.broken_directory = Raise (Exn ParseError None)
  ∧ (Exn ParseError None = Exn ValueError None
     ∨ Raise (Exn ParseError None) ∈ Samples.broken_directory)
  ∧ read_directory [Ok Samples.bad_size_file] = builtin_error ValueError.
Proof.
  assert (H : read_directory Samples.broken_directory = Raise (Exn ParseError None))
    by reflexivity.
  split; [exact H|].
  split; [exact (proj1 (PascalVOCReader_raises_only_ValueError _ _ H))|].
  reflexivity.
Defined.

(** X12: in a dataset that the Pascal VOC reader returns, the category of
    every annotation is there: looking up the annotation's name and looking
    up its id both find the category that has this name and this id. *)
Theorem PascalVOCReader_annotation_categories (xml_files : list Element)
    (ds : Dataset) (image : Image) (a : Annotation) :
  PascalVOCReader.read xml_files = Ok ds →
  image ∈ images ds → a ∈ annotations image →
  get_category_by_name ds (category_name a)
  = Some (mkCategory (category_id a) (category_name a) None)
  ∧ get_category_by_id ds (category_id a)
    = Some (mkCategory (category_id a) (category_name a) None).
Proof.
  intros Hread Himage Ha.
  destruct (read_cases xml_files) as [H|(imgs & H & Himgs)];
    [by rewrite H in Hread|].
  rewrite H in Hread. injection Hread as <-. simpl in Himage.
  apply list_elem_of_lookup in Himage as [j Hj].
  destruct (Forall2_lookup_r _ _ _ _ _ Himgs Hj) as (h & _ & (_ & _ & _ & _ & Hanns)).
  rewrite Forall_forall in Hanns. specialize (Hanns a Ha). unfold mapped in Hanns.
  apply category_map_lookup in Hanns as [Hanns|(k & Hk & Hid)]; [done|].
  unfold get_category_by_name, get_category_by_id. simpl. rewrite Hid. split.
  - apply (find_imap_name _ _ k 0); [|done].
    apply sorted_names_spec.
  - apply (find_imap_id _ _ k 0). done.
Qed.

Lemma PascalVOCReader_annotation_categories_witness :
  (PascalVOCReader.read Examples.xml_files = Ok Examples.xml_dataset
   ∧ mkImage "1.jpg" 100 200
       [Annotation_new Examples.spec_box 1 "dog" (Some false) (Some false) None None]
       None ∈ images Examples.xml_dataset
   ∧ Annotation_new Examples.spec_box 1 "dog" (Some false) (Some false) None None
     ∈ [Annotation_new Examples.spec_box 1 "dog" (Some false) (Some false) None None])
  ∧ get_category_by_name Examples.xml_dataset "dog" = Some (mkCategory 1 "dog" None)
  ∧ get_category_by_id Examples.xml_dataset 1 = Some (mkCategory 1 "dog" None).
Proof.
  assert (H : PascalVOCReader.read Examples.xml_files = Ok Examples.xml_dataset)
    by (vm_compute; reflexivity).
  assert (Hi : mkImage "1.jpg" 100 200
       [Annotation_new Examples.spec_box 1 "dog" (Some false) (Some false) None None]
       None ∈ images Examples.xml_dataset) by (vm_compute; left).
  assert (Ha : Annotation_new Examples.spec_box 1 "dog" (Some false) (Some false) None None
     ∈ [Annotation_new Examples.spec_box 1 "dog" (Some false) (Some false) None None])
    by left.
  split; [exact (conj H (conj Hi Ha))|].
  exact (PascalVOCReader_annotation_categories Examples.xml_files Examples.xml_dataset
           _ _ H Hi Ha).
Defined.

(** X13: the Pascal VOC reader makes one image of every file that has the
    texts of [filename], [size/width] and [size/height], in the order of
    the files, and none of the other files: the image has that file name,
    the width and height that [int] reads from the texts, and no id. *)
Theorem PascalVOCReader_images (xml_files : list Element) (ds : Dataset) :
  PascalVOCReader.read xml_files = Ok ds →
  Forall2 (λ h image,
      file_name image = h.1.1
      ∧ py_int h.1.2 = Ok (width image)
      ∧ py_int h.2 = Ok (height image)
      ∧ image_id image = None)
    (omap image_header xml_files) (images ds).
Proof.
  intros Hread.
  destruct (read_cases xml_files) as [H|(imgs & H & Himgs)];
    [by rewrite H in Hread|].
  rewrite H in Hread. injection Hread as <-. simpl.
  eapply Forall2_impl; [exact Himgs|].
  intros h image (? & ? & ? & ? & _). done.
Qed.

Lemma PascalVOCReader_images_witness :
  PascalVOCReader.read (Samples.bad_name_file :: Examples.xml_files)
  = Ok Samples.xml_dataset'
  ∧ Forall2 (λ h image,
        file_name image = h.1.1
        ∧ py_int h.1.2 = Ok (width image)
        ∧ py_int h.2 = Ok (height image)
        ∧ image_id image = None)
      (omap image_header (Samples.bad_name_file :: Examples.xml_files))
      (images Samples.xml_dataset').
Proof.
  assert (H : PascalVOCReader.read (Samples.bad_name_file :: Examples.xml_files)
              = Ok Samples.xml_dataset') by (vm_compute; reflexivity).
  split; [exact H|].
  exact (PascalVOCReader_images _ _ H).
Defined.

(** X14: a file that has a file name and a size, but a width or a height
    that [int] rejects, makes the Pascal VOC reader raise ValueError,
    wherever it stands among the files. *)
Theorem PascalVOCReader_bad_size (xml_files : list Element) (root : Element)
    (filename width_text height_text : string) :
  root ∈ xml_files →
  image_header root = Some (filename, width_text, height_text) →
  int_literal width_text = None ∨ int_literal height_text = None →
  PascalVOCReader.read xml_files = builtin_error ValueError.
Proof.
  intros Hroot Hh Hbad.
  destruct (read_cases xml_files) as [H|(imgs & H & Himgs)]; [done|]. exfalso.
  assert (Hin : (filename, width_text, height_text) ∈ omap image_header xml_files).
  { apply list_elem_of_omap. by exists root. }
  apply list_elem_of_lookup in Hin as [j Hj].
  destruct (Forall2_lookup_l _ _ _ _ _ Himgs Hj) as (image & _ & (_ & Hw & Hht & _)).
  simpl in Hw, Hht. unfold py_int in Hw, Hht.
  destruct Hbad as [Hb|Hb]; rewrite Hb in *; done.
Qed.

Lemma PascalVOCReader_bad_size_witness :
  (Samples.bad_size_file ∈ Examples.xml_files ++ [Samples.bad_size_file]
   ∧ image_header Samples.bad_size_file = Some ("4.jpg", "100.5", "200")%string
   ∧ (int_literal "100.5" = None ∨ int_literal "200" = None))
  ∧ PascalVOCReader.read (Examples.xml_files ++ [Samples.bad_size_file])
    = builtin_error ValueError.
Proof.
  assert (H1 : Samples.bad_size_file ∈ Examples.xml_files ++ [Samples.bad_size_file])
    by (apply elem_of_app; right; left).
  assert (H2 : image_header Samples.bad_size_file
               = Some ("4.jpg", "100.5", "200")%string) by reflexivity.
  assert (H3 : int_literal "100.5" = None ∨ int_literal "200" = None)
    by (left; reflexivity).
  split; [exact (conj H1 (conj H2 H3))|].
  exact (PascalVOCReader_bad_size _ _ _ _ _ H1 H2 H3).
Defined.

(** ** formats/yolo.py: the reader *)

Lemma lstrip_head s :
  Str.lstrip s = EmptyString
  ∨ ∃ c s', Str.lstrip s = String c s' ∧ Str.isspace c = false.
Proof.
  induction s as [|c s IH]; simpl; [by left|].
  destruct (Str.isspace c) eqn:Hc; [done|]. right. by exists c, s.
Qed.

Lemma rstrip_cons c s :
  Str.rstrip (String c s)
  = match Str.rstrip s with
    | EmptyString => if Str.isspace c then EmptyString else String c EmptyString
    | r => String c r
    end.
Proof. reflexivity. Qed.

Lemma rstrip_idemp s : Str.rstrip (Str.rstrip s) = Str.rstrip s.
Proof.
  induction s as [|c s IH]; [done|]. rewrite (rstrip_cons c s).
  destruct (Str.rstrip s) as [|d r] eqn:Hr.
  - destruct (Str.isspace c) eqn:Hc; [done|]. rewrite rstrip_cons. simpl. by rewrite Hc.
  - rewrite rstrip_cons, IH. done.
Qed.

Lemma rstrip_head c s :
  Str.isspace c = false → Str.rstrip (String c s) = String c (Str.rstrip s).
Proof. intros Hc. simpl. destruct (Str.rstrip s); [by rewrite Hc|done]. Qed.

Lemma strip_idemp s : Str.strip (Str.strip s) = Str.strip s.
Proof.
  unfold Str.strip. destruct (lstrip_head s) as [->|(c & s' & -> & Hc)]; [done|].
  rewrite rstrip_head by done. simpl. rewrite Hc.
  rewrite <- rstrip_head by done. apply rstrip_idemp.
Qed.

Section yolo_reader_more.
Import YOLOReader.
Variable exists_image : string → bool.
Variable image_size : string → result (Z * Z).

Lemma find_image_spec stem image_ext n :
  find_image exists_image stem image_ext = Some n →
  exists_image n = true ∧ ∃ ext, n = (stem ++ ext)%string.
Proof.
  unfold find_image. destruct (exists_image (stem ++ image_ext)) eqn:He.
  - intros [= <-]. split; [done|by eexists].
  - intros Hh. apply head_Some in Hh as [l Hl].
    assert (Hin : n ∈ filter (λ n, exists_image n = true)
                    ((λ ext, (stem ++ ext)%string) <$> fallback_extensions))
      by (rewrite Hl; left).
    apply list_elem_of_filter in Hin as [Hn Hin]. split; [done|].
    apply list_elem_of_fmap in Hin as (ext & -> & _). by eexists.
Qed.

Lemma read_line_named class_names w h line a :
  read_line class_names w h line = Ok (Some a) → named_by class_names a.
Proof.
  unfold read_line. destruct (decide _); [done|].
  destruct (Str.split _) as [|p0 [|p1 [|p2 [|p3 [|p4 [|p5 ps]]]]]]; try done.
  destruct (py_int p0) as [cid|]; [|done].
  destruct (py_float p1) as [x1|]; [|done].
  destruct (py_float p2) as [x2|]; [|done].
  destruct (py_float p3) as [x3|]; [|done].
  destruct (py_float p4) as [x4|]; [|done]. cbn [mbind result_bind].
  destruct (from_yolo _ _ _ _ _ _) as [box|]; [|done]. cbn [mbind result_bind].
  unfold named_by.
  destruct (cid <? Z.of_nat (length class_names)) eqn:Hlt.
  - destruct (getitem class_names cid) as [cname|] eqn:Hc; [|done].
    cbn [mbind result_bind]. intros [= <-]. simpl. by rewrite Hlt.
  - cbn [mbind result_bind]. intros [= <-]. simpl. by rewrite Hlt.
Qed.

Lemma read_lines_spec class_names lines image image' :
  read_lines class_names image lines = Ok image' →
  Forall (named_by class_names) (annotations image) →
  file_name image' = file_name image ∧ width image' = width image
  ∧ height image' = height image ∧ image_id image' = image_id image
  ∧ Forall (named_by class_names) (annotations image').
Proof.
  unfold read_lines. intros Hread Hanns.
  revert Hread.
  apply (foldM_invariant
           (λ i, file_name i = file_name image ∧ width i = width image
                 ∧ height i = height image ∧ image_id i = image_id image
                 ∧ Forall (named_by class_names) (annotations i))); [|done].
  intros b line b' _ (Hf & Hw & Hh & Hi & Ha).
  destruct (read_line class_names (width b) (height b) line) as [[a|]|] eqn:Hline;
    simpl; [| |done]; intros [= <-]; [|done].
  repeat split; [done..|]. simpl. apply Forall_app. split; [done|].
  constructor; [|done]. by eapply read_line_named.
Qed.

(** What [read] keeps for every image of the dataset. *)
Lemma read_label_files_spec class_names image_ext label_files imgs :
  foldM (read_label_file exists_image image_size class_names image_ext)
    label_files [] = Ok imgs →
  Forall (λ image,
      exists_image (file_name image) = true
      ∧ image_size (file_name image) = Ok (width image, height image)
      ∧ image_id image = None
      ∧ (∃ stem lines ext, (stem, lines) ∈ label_files
                           ∧ file_name image = (stem ++ ext)%string)
      ∧ Forall (named_by class_names) (annotations image)) imgs
  ∧ (length imgs ≤ length label_files)%nat.
Proof.
  intros Hread.
  assert (H : ∀ files acc r,
    (∀ f, f ∈ files → f ∈ label_files) →
    foldM (read_label_file exists_image image_size class_names image_ext) files acc
    = Ok r →
    ∃ new, r = acc ++ new ∧ (length new ≤ length files)%nat
      ∧ Forall (λ image,
          exists_image (file_name image) = true
          ∧ image_size (file_name image) = Ok (width image, height image)
          ∧ image_id image = None
          ∧ (∃ stem lines ext, (stem, lines) ∈ label_files
                               ∧ file_name image = (stem ++ ext)%string)
          ∧ Forall (named_by class_names) (annotations image)) new).
  { induction files as [|[stem lines] files IH]; intros acc r Hsub; simpl.
    - intros [= <-]. exists []. by rewrite app_nil_r.
    - assert (Hsub' : ∀ f, f ∈ files → f ∈ label_files)
        by (intros; apply Hsub; by right).
      destruct (find_image exists_image stem image_ext) as [nm|] eqn:Hfind.
      2: { simpl. intros Hf. destruct (IH _ _ Hsub' Hf) as (new & -> & Hlen & Hall).
           exists new. split; [done|]. split; [lia|done]. }
      destruct (image_size nm) as [[w h]|[[] msg]] eqn:Hsize; simpl; try done.
      2: { intros Hf. destruct (IH _ _ Hsub' Hf) as (new & -> & Hlen & Hall).
           exists new. split; [done|]. split; [lia|done]. }
      destruct (read_lines class_names (mkImage nm w h [] None) lines)
        as [image|] eqn:Hlines; simpl; [|done].
      intros Hf. destruct (IH _ _ Hsub' Hf) as (new & -> & Hlen & Hall).
      exists (image :: new). rewrite <- app_assoc. split; [done|].
      split; [simpl; lia|]. constructor; [|done].
      apply read_lines_spec in Hlines as (Hfn & Hw & Hh & Hid & Ha); [|done].
      simpl in *. rewrite Hfn, Hw, Hh.
      destruct (find_image_spec _ _ _ Hfind) as [Hex [ext Hext]].
      repeat split; [done..| |done].
      exists stem, lines, ext. split; [|done]. apply Hsub. left. }
  destruct (H label_files [] imgs) as (new & -> & Hlen & Hall); [done..|].
  done.
Qed.

End yolo_reader_more.

Lemma getitem_nonneg {A} (l : list A) (i : Z) :
  0 ≤ i < Z.of_nat (length l) →
  getitem l i = match l !! Z.to_nat i with
                | Some x => Ok x
                | None => builtin_error IndexError
                end.
Proof.
  intros Hi. unfold getitem.
  destruct (Z.ltb_spec i 0) as [?|_]; [lia|].
  destruct (Z.leb_spec 0 i) as [_|?]; [|lia].
  destruct (Z.ltb_spec i (Z.of_nat (length l))) as [_|?]; [|lia]. done.
Qed.

Lemma fmap_enumerate_imap (l : list string) : ∀ start,
  (λ '(idx, n), mkCategory idx n None) <$> enumerate start l
  = imap (λ i n, mkCategory (start + Z.of_nat i) n None) l.
Proof.
  induction l as [|n l IH]; intros start; simpl; [done|].
  rewrite Z.add_0_r. f_equal. rewrite IH. apply imap_ext. intros; simpl. f_equal. lia.
Qed.

(** X15: every image of a dataset that the YOLO reader returns belongs to a
    label file and is there: its file name is the stem of a label file with
    an extension, a file of that name exists among the images, its width and
    height are the size that PIL reports for that file, and it has no id.
    There are at most as many images as label files. *)
Theorem YOLOReader_images (exists_image : string → bool)
    (image_size : string → result (Z * Z))
    (label_files : list (string * list string)) (classes_lines : list string)
    (image_ext : string) (ds : Dataset) :
  YOLOReader.read exists_image image_size label_files classes_lines image_ext = Ok ds →
  Forall (λ image,
      exists_image (file_name image) = true
      ∧ image_size (file_name image) = Ok (width image, height image)
      ∧ image_id image = None
      ∧ ∃ stem lines ext, (stem, lines) ∈ label_files
                          ∧ file_name image = (stem ++ ext)%string)
    (images ds)
  ∧ (length (images ds) ≤ length label_files)%nat.
Proof.
  unfold YOLOReader.read.
  destruct (foldM _ label_files []) as [imgs|] eqn:Hfold; simpl; [|done].
  intros [= <-]. simpl.
  apply read_label_files_spec in Hfold as [Hall Hlen]. split; [|done].
  eapply Forall_impl; [exact Hall|]. intros image (? & ? & ? & ? & _). done.
Qed.

(** X16: in a dataset that the YOLO reader returns, an annotation whose
    class id is the id of a category carries the name of that category; for
    an annotation whose class id is the id of no category, the id is
    negative or the name is "unknown". *)
Theorem YOLOReader_annotation_names (exists_image : string → bool)
    (image_size : string → result (Z * Z))
    (label_files : list (string * list string)) (classes_lines : list string)
    (image_ext : string) (ds : Dataset) (image : Image) (a : Annotation) :
  YOLOReader.read exists_image image_size label_files classes_lines image_ext = Ok ds →
  image ∈ images ds → a ∈ annotations image →
  match get_category_by_id ds (category_id a) with
  | Some category =>
      category = mkCategory (category_id a) (category_name a) None
  | None => category_id a < 0 ∨ category_name a = "unknown"%string
  end.
Proof.
  unfold YOLOReader.read.
  destruct (foldM _ label_files []) as [imgs|] eqn:Hfold; simpl; [|done].
  intros [= <-] Himage Ha. simpl in Himage.
  apply read_label_files_spec in Hfold as [Hall _].
  rewrite Forall_forall in Hall.
  destruct (Hall image Himage) as (_ & _ & _ & _ & Hanns).
  rewrite Forall_forall in Hanns. specialize (Hanns a Ha). unfold named_by in Hanns.
  unfold get_category_by_id. simpl.
  set (class_names := YOLOReader.read_classes classes_lines) in *.
  rewrite fmap_enumerate_imap.
  destruct (Z.ltb_spec (category_id a) (Z.of_nat (length class_names))) as [Hlt|Hge].
  - destruct (Z.ltb_spec (category_id a) 0) as [Hneg|Hpos].
    + destruct (find _ _) as [c|] eqn:Hfind; [|by left].
      apply find_some in Hfind as [Hin Hid]. apply list_elem_of_In in Hin.
      apply elem_of_lookup_imap in Hin as (i & n & -> & _). simpl in Hid.
      apply Z.eqb_eq in Hid. lia.
    + rewrite getitem_nonneg in Hanns by lia.
      destruct (class_names !! Z.to_nat (category_id a)) as [n|] eqn:Hn; [|done].
      injection Hanns as ->.
      pose proof (find_imap_id class_names _ _ 0 Hn) as Hfind.
      rewrite Z2Nat.id in Hfind by lia.
      change (0 + category_id a) with (category_id a) in Hfind. by rewrite Hfind.
  - destruct (find _ _) as [c|] eqn:Hfind; [|by right].
    apply find_some in Hfind as [Hin Hid]. apply list_elem_of_In in Hin.
    apply elem_of_lookup_imap in Hin as (i & n & -> & Hi). simpl in Hid.
    apply Z.eqb_eq in Hid. apply lookup_lt_Some in Hi. lia.
Qed.

Lemma YOLOReader_images_witness :
  YOLOReader.read Samples.image_exists Samples.size_of Samples.label_files
    Samples.classes_lines ".jpg" = Ok Samples.yolo_dataset
  ∧ Forall (λ image,
        Samples.image_exists (file_name image) = true
        ∧ Samples.size_of (file_name image) = Ok (width image, height image)
        ∧ image_id image = None
        ∧ ∃ stem lines ext, (stem, lines) ∈ Samples.label_files
                            ∧ file_name image = (stem ++ ext)%string)
      (images Samples.yolo_dataset)
    ∧ (length (images Samples.yolo_dataset) ≤ length Samples.label_files)%nat.
Proof.
  assert (H : YOLOReader.read Samples.image_exists Samples.size_of Samples.label_files
                Samples.classes_lines ".jpg" = Ok Samples.yolo_dataset)
    by (vm_compute; reflexivity).
  split; [exact H|].
  exact (YOLOReader_images _ _ _ _ _ _ H).
Defined.

Lemma YOLOReader_annotation_names_witness :
  (YOLOReader.read Samples.image_exists Samples.size_of Samples.label_files
     Samples.classes_lines ".jpg" = Ok Samples.yolo_dataset
   ∧ mkImage "img1.png" 100 200 Examples.label_annotations None
     ∈ images Samples.yolo_dataset
   ∧ Annotation_new Examples.centre_box 0 "cat" None None None None
     ∈ Examples.label_annotations)
  ∧ match get_category_by_id Samples.yolo_dataset 0 with
    | Some category => category = mkCategory 0 "cat" None
    | None => 0 < 0 ∨ "cat"%string = "unknown"%string
    end.
Proof.
  assert (H : YOLOReader.read Samples.image_exists Samples.size_of Samples.label_files
                Samples.classes_lines ".jpg" = Ok Samples.yolo_dataset)
    by (vm_compute; reflexivity).
  assert (Hi : mkImage "img1.png" 100 200 Examples.label_annotations None
               ∈ images Samples.yolo_dataset) by (vm_compute; left).
  assert (Ha : Annotation_new Examples.centre_box 0 "cat" None None None None
               ∈ Examples.label_annotations) by (vm_compute; left).
  split; [exact (conj H (conj Hi Ha))|].
  exact (YOLOReader_annotation_names _ _ _ _ _ _ _ _ H Hi Ha).
Defined.

(** X17: the categories of a dataset that the YOLO reader returns are the
    lines of the classes file that are not blank, each stripped of the white
    space around it, numbered from 0 in the order of the file: a blank line
    takes no number, and no name is empty or has white space around it. *)
Theorem YOLOReader_categories (exists_image : string → bool)
    (image_size : string → result (Z * Z))
    (label_files : list (string * list string)) (classes_lines : list string)
    (image_ext : string) (ds : Dataset) :
  YOLOReader.read exists_image image_size label_files classes_lines image_ext = Ok ds →
  categories ds = imap (λ i n, mkCategory (Z.of_nat i) n None) (name <$> categories ds)
  ∧ name <$> categories ds
    = Str.strip <$> filter (λ line, Str.strip line ≠ EmptyString) classes_lines
  ∧ Forall (λ c, name c ≠ EmptyString ∧ Str.strip (name c) = name c) (categories ds).
Proof.
  unfold YOLOReader.read.
  destruct (foldM _ label_files []) as [imgs|] eqn:Hfold; simpl; [|done].
  intros [= <-]. simpl. rewrite fmap_enumerate_imap.
  assert (Hn : name <$> imap (λ i n, mkCategory (0 + Z.of_nat i) n None)
                        (YOLOReader.read_classes classes_lines)
               = YOLOReader.read_classes classes_lines)
    by apply fmap_name_imap.
  rewrite Hn. split; [done|]. split; [done|].
  rewrite Forall_forall. intros c Hc.
  apply elem_of_lookup_imap in Hc as (i & n & -> & Hi). simpl.
  apply list_elem_of_lookup_2 in Hi. unfold YOLOReader.read_classes in Hi.
  apply list_elem_of_fmap in Hi as (line & -> & Hline).
  apply list_elem_of_filter in Hline as [Hline _].
  split; [done|apply strip_idemp].
Qed.

Lemma YOLOReader_categories_witness :
  YOLOReader.read Samples.image_exists Samples.size_of Samples.label_files
    Samples.classes_lines ".jpg" = Ok Samples.yolo_dataset
  ∧ categories Samples.yolo_dataset
    = imap (λ i n, mkCategory (Z.of_nat i) n None)
        (name <$> categories Samples.yolo_dataset)
    ∧ name <$> categories Samples.yolo_dataset
      = Str.strip <$> filter (λ line, Str.strip line ≠ EmptyString) Samples.classes_lines
    ∧ Forall (λ c, name c ≠ EmptyString ∧ Str.strip (name c) = name c)
        (categories Samples.yolo_dataset).
Proof.
  assert (H : YOLOReader.read Samples.image_exists Samples.size_of Samples.label_files
                Samples.classes_lines ".jpg" = Ok Samples.yolo_dataset)
    by (vm_compute; reflexivity).
  split; [exact H|].
  exact (YOLOReader_categories _ _ _ _ _ _ H).
Defined.

(** X18: without PIL, that is, when the size of no image can be had because
    the import fails, the YOLO reader raises nothing: it returns a dataset
    that has the categories and no image, whatever the label files are. *)
Theorem YOLOReader_without_PIL (exists_image : string → bool)
    (image_size : string → result (Z * Z))
    (label_files : list (string * list string)) (classes_lines : list string)
    (image_ext : string) :
  (∀ image_name, ∃ msg, image_size image_name = Raise (Exn ImportError msg)) →
  ∃ ds, YOLOReader.read exists_image image_size label_files classes_lines image_ext
        = Ok ds
        ∧ images ds = []
        ∧ name <$> categories ds = YOLOReader.read_classes classes_lines.
Proof.
  intros Hpil. unfold YOLOReader.read.
  assert (Hfold : foldM (YOLOReader.read_label_file exists_image image_size
                           (YOLOReader.read_classes classes_lines) image_ext)
                    label_files [] = Ok []).
  { induction label_files as [|[stem lines] files IH]; simpl; [done|].
    destruct (YOLOReader.find_image exists_image stem image_ext) as [nm|]; [|done].
    destruct (Hpil nm) as [msg ->]. done. }
  rewrite Hfold. simpl. eexists. split; [done|]. split; [done|]. simpl.
  rewrite fmap_enumerate_imap. apply fmap_name_imap.
Qed.

Lemma YOLOReader_without_PIL_witness :
  (∀ image_name : string,
     ∃ msg, (λ _ : string, Raise (Exn ImportError None) : result (Z * Z)) image_name
            = Raise (Exn ImportError msg))
  ∧ ∃ ds, YOLOReader.read Samples.image_exists (λ _, Raise (Exn ImportError None))
            Samples.label_files Samples.classes_lines ".jpg" = Ok ds
          ∧ images ds = []
          ∧ name <$> categories ds = YOLOReader.read_classes Samples.classes_lines.
Proof.
  assert (H : ∀ image_name : string,
     ∃ msg, (λ _ : string, Raise (Exn ImportError None) : result (Z * Z)) image_name
            = Raise (Exn ImportError msg)) by (intros _; by exists None).
  split; [exact H|].
  exact (YOLOReader_without_PIL Samples.image_exists _ Samples.label_files
           Samples.classes_lines ".jpg" H).
Defined.

(** ** The builtins on the way from a float to a text and back *)

(** [int(x)] is the value of x without its fraction. *)
Lemma int_of_float_units x u :
  float_units x = Some u → int_of_float x = Ok (Z.quot u (2 ^ 1074)).
Proof.
  unfold float_units, int_of_float. pose proof (Prim2SF_valid x) as Hv.
  destruct (Prim2SF x) as [s| | |s m e]; simpl; try done.
  - by intros [= <-].
  - intros [= <-]. simpl in Hv. apply bounded_spec in Hv as (_ & _ & He).
    assert (Hq : Z.quot (Zpos m * 2 ^ (e + 1074)) (2 ^ 1074)
                 = if 0 <=? e then Z.shiftl (Zpos m) e else Z.shiftr (Zpos m) (- e)).
    { rewrite Z.quot_div_nonneg; [|by apply Z.lt_le_incl, units_pos|done].
      destruct (Z.leb_spec 0 e) as [H0|H0].
      - rewrite Z.shiftl_mul_pow2, Z.pow_add_r, Z.mul_assoc by lia.
        by rewrite Z.div_mul.
      - rewrite Z.shiftr_div_pow2 by lia.
        replace (2 ^ 1074) with (2 ^ (- e) * 2 ^ (e + 1074))
          by (rewrite <- Z.pow_add_r by lia; f_equal; lia).
        rewrite Z.div_mul_cancel_r; [done| |].
        + apply Z.pow_nonzero; lia.
        + apply Z.pow_nonzero; lia. }
    destruct s; simpl.
    + by rewrite Z.quot_opp_l, Hq.
    + by rewrite Hq.
Qed.

Lemma int_of_float_not_finite x :
  float_units x = None →
  int_of_float x = builtin_error ValueError
  ∨ int_of_float x = builtin_error OverflowError.
Proof.
  unfold float_units, int_of_float.
  destruct (Prim2SF x) as [s| | |s m e]; simpl; try done; [by right|by left].
Qed.

(** *** [str(n)] read back by [int] and by [float] *)

Section decimal.
Import Decimal DecimalPos.

Ltac each_digit d :=
  destruct d as [|d|d|d|d|d|d|d|d|d|d].

Ltac eval_isdigit :=
  repeat match goal with
  | |- context [Str.isdigit ?c] =>
      let v := eval vm_compute in (Str.isdigit c) in
      change (Str.isdigit c) with v
  end; cbv iota.

Lemma of_lu_cons (d : uint) :
  Z.of_N (Unsigned.of_lu (D0 d)) = 10 * Z.of_N (Unsigned.of_lu d)
  ∧ Z.of_N (Unsigned.of_lu (D1 d)) = 10 * Z.of_N (Unsigned.of_lu d) + 1
  ∧ Z.of_N (Unsigned.of_lu (D2 d)) = 10 * Z.of_N (Unsigned.of_lu d) + 2
  ∧ Z.of_N (Unsigned.of_lu (D3 d)) = 10 * Z.of_N (Unsigned.of_lu d) + 3
  ∧ Z.of_N (Unsigned.of_lu (D4 d)) = 10 * Z.of_N (Unsigned.of_lu d) + 4
  ∧ Z.of_N (Unsigned.of_lu (D5 d)) = 10 * Z.of_N (Unsigned.of_lu d) + 5
  ∧ Z.of_N (Unsigned.of_lu (D6 d)) = 10 * Z.of_N (Unsigned.of_lu d) + 6
  ∧ Z.of_N (Unsigned.of_lu (D7 d)) = 10 * Z.of_N (Unsigned.of_lu d) + 7
  ∧ Z.of_N (Unsigned.of_lu (D8 d)) = 10 * Z.of_N (Unsigned.of_lu d) + 8
  ∧ Z.of_N (Unsigned.of_lu (D9 d)) = 10 * Z.of_N (Unsigned.of_lu d) + 9.
Proof.
  cbn [Unsigned.of_lu]. repeat split; lia.
Qed.

(** Reading the digits of [d] after the digits of [d'] (its digits in
    reverse) gives the number of the digits of both. *)
Lemma digits_string_of_uint (d : uint) : ∀ d' : uint,
  digits (NilEmpty.string_of_uint d) AfterDigit (Z.of_N (Unsigned.of_lu d'))
  = Some (Z.of_N (Unsigned.of_lu (revapp d d'))).
Proof.
  induction d as [|d IH|d IH|d IH|d IH|d IH|d IH|d IH|d IH|d IH|d IH];
    intros d'; [done|..];
    cbn [NilEmpty.string_of_uint revapp]; rewrite <- IH;
    destruct (of_lu_cons d') as (H0 & H1 & H2 & H3 & H4 & H5 & H6 & H7 & H8 & H9);
    cbn [digits]; simpl Str.isdigit; cbv iota; f_equal;
    unfold Str.digit_value, Str.code;
    match goal with
    | |- context [N_of_ascii ?c] =>
        let v := eval vm_compute in (Z.of_N (N_of_ascii c)) in
        change (Z.of_N (N_of_ascii c)) with v
    end; lia.
Qed.

Lemma digits_first (d : uint) prev acc :
  d ≠ Nil →
  digits (NilEmpty.string_of_uint d) prev acc
  = digits (NilEmpty.string_of_uint d) AfterDigit acc.
Proof. each_digit d; done. Qed.

Lemma digits_of_uint (d : uint) :
  d ≠ Nil →
  digits (NilEmpty.string_of_uint d) AtStart 0 = Some (Z.of_N (Pos.of_uint d)).
Proof.
  intros Hd. rewrite digits_first by done.
  rewrite Unsigned.of_uint_alt. apply (digits_string_of_uint d Nil).
Qed.

Lemma count_digits_nonneg s : 0 ≤ count_digits s.
Proof. induction s as [|c s IH]; simpl; [done|]. destruct (Str.isdigit c); lia. Qed.

(** A number of k digits after the digits of [d'] is at least 10^k times
    the number of [d']. *)
Lemma count_digits_bound (d : uint) : ∀ d' : uint,
  10 ^ count_digits (NilEmpty.string_of_uint d) * Z.of_N (Unsigned.of_lu d')
  ≤ Z.of_N (Unsigned.of_lu (revapp d d')).
Proof.
  induction d as [|d IH|d IH|d IH|d IH|d IH|d IH|d IH|d IH|d IH|d IH];
    intros d';
    [cbn [NilEmpty.string_of_uint revapp count_digits]; change (10 ^ 0) with 1; lia|..].
  all:
    cbn [NilEmpty.string_of_uint revapp count_digits]; eval_isdigit;
    pose proof (count_digits_nonneg (NilEmpty.string_of_uint d)) as Hc;
    rewrite Z.pow_add_r, Z.pow_1_r by lia;
    (etransitivity; [|apply IH]);
    destruct (of_lu_cons d') as (H0 & H1 & H2 & H3 & H4 & H5 & H6 & H7 & H8 & H9);
    rewrite ?H0, ?H1, ?H2, ?H3, ?H4, ?H5, ?H6, ?H7, ?H8, ?H9;
    assert (0 ≤ Z.of_N (Unsigned.of_lu d')) by lia;
    assert (0 < 10 ^ count_digits (NilEmpty.string_of_uint d))
      by (apply Z.pow_pos_nonneg; lia);
    nia.
Qed.

Lemma nzhead_not_D0 (d u : uint) : nzhead d ≠ D0 u.
Proof. induction d; simpl; done. Qed.

Lemma to_uint_head (p : positive) (d : uint) : Pos.to_uint p ≠ D0 d.
Proof.
  intros Hd. pose proof (Unsigned.to_of (Pos.to_uint p)) as H.
  rewrite Unsigned.of_to in H. simpl in H. rewrite Hd in H.
  unfold unorm in H. simpl in H.
  destruct (nzhead d) as [|u|u|u|u|u|u|u|u|u|u] eqn:Hn; try done.
  - injection H as H'. subst d. pose proof (Unsigned.of_to p) as Hp. by rewrite Hd in Hp.
  - by apply nzhead_not_D0 in Hn.
Qed.

Lemma count_digits_to_uint (p : positive) :
  Zpos p < 10 ^ max_str_digits →
  count_digits (NilEmpty.string_of_uint (Pos.to_uint p)) ≤ max_str_digits.
Proof.
  intros Hp. pose proof (Unsigned.of_to p) as Hv.
  rewrite Unsigned.of_uint_alt in Hv. unfold rev in Hv.
  pose proof (to_uint_head p) as Hh.
  destruct (Pos.to_uint p) as [|d|d|d|d|d|d|d|d|d|d] eqn:Hd;
    [done|by destruct (Hh d)|..];
    cbn [NilEmpty.string_of_uint count_digits revapp] in *; eval_isdigit;
    pose proof (count_digits_nonneg (NilEmpty.string_of_uint d)) as Hc;
    match type of Hv with
    | Unsigned.of_lu (revapp d ?d') = _ =>
        pose proof (count_digits_bound d d') as Hb; rewrite Hv in Hb;
        assert (1 ≤ Z.of_N (Unsigned.of_lu d')) by (simpl; lia)
    end;
    assert (10 ^ count_digits (NilEmpty.string_of_uint d) < 10 ^ max_str_digits)
      by (simpl Z.of_N in *; nia);
    assert (count_digits (NilEmpty.string_of_uint d) < max_str_digits)
      by (apply (Z.pow_lt_mono_r_iff 10); [lia|done|done]);
    lia.
Qed.

Lemma rstrip_string_of_uint (d : uint) :
  Str.rstrip (NilEmpty.string_of_uint d) = NilEmpty.string_of_uint d.
Proof.
  induction d as [|d IH|d IH|d IH|d IH|d IH|d IH|d IH|d IH|d IH|d IH]; [done|..];
    cbn [NilEmpty.string_of_uint]; rewrite rstrip_head by done; by rewrite IH.
Qed.

Lemma strip_string_of_uint (d : uint) :
  Str.strip (NilEmpty.string_of_uint d) = NilEmpty.string_of_uint d.
Proof.
  unfold Str.strip.
  assert (Str.lstrip (NilEmpty.string_of_uint d) = NilEmpty.string_of_uint d) as ->
    by (each_digit d; done).
  apply rstrip_string_of_uint.
Qed.

Lemma split_sign_string_of_uint (d : uint) :
  split_sign (NilEmpty.string_of_uint d) = (false, NilEmpty.string_of_uint d).
Proof. each_digit d; done. Qed.

Lemma int_literal_to_uint (p : positive) :
  Zpos p < 10 ^ max_str_digits →
  int_literal (NilEmpty.string_of_uint (Pos.to_uint p)) = Some (Zpos p)
  ∧ int_literal (String "-" (NilEmpty.string_of_uint (Pos.to_uint p)))
    = Some (Zneg p).
Proof.
  intros Hp. pose proof (count_digits_to_uint p Hp) as Hc.
  pose proof (digits_of_uint (Pos.to_uint p) (Unsigned.to_uint_nonnil p)) as Hd.
  rewrite Unsigned.of_to in Hd. unfold int_literal. split.
  - rewrite strip_string_of_uint, split_sign_string_of_uint.
    destruct (Z.ltb_spec max_str_digits
                (count_digits (NilEmpty.string_of_uint (Pos.to_uint p)))); [lia|].
    by rewrite Hd.
  - assert (Str.strip (String "-" (NilEmpty.string_of_uint (Pos.to_uint p)))
            = String "-" (NilEmpty.string_of_uint (Pos.to_uint p))) as ->.
    { unfold Str.strip. cbn [Str.lstrip]. change (Str.isspace "-") with false. cbv iota.
      rewrite rstrip_head by done. by rewrite rstrip_string_of_uint. }
    cbn [split_sign].
    destruct (Z.ltb_spec max_str_digits
                (count_digits (NilEmpty.string_of_uint (Pos.to_uint p)))); [lia|].
    by rewrite Hd.
Qed.

End decimal.

Lemma string_of_uint_nonnil (d : Decimal.uint) :
  d ≠ Decimal.Nil → NilZero.string_of_uint d = NilEmpty.string_of_uint d.
Proof. by destruct d. Qed.

(** [int(str(n))] is n, for an int that [str] and [int] accept: one of at
    most 4300 digits. *)
Lemma py_int_of_Z (n : Z) :
  Z.abs n < 10 ^ max_str_digits → py_int (Str.of_Z n) = Ok n.
Proof.
  intros Hn. unfold py_int, Str.of_Z.
  destruct n as [|p|p]; [done|..]; simpl Z.to_int;
    destruct (int_literal_to_uint p) as [Hpos Hneg]; try lia;
    unfold NilZero.string_of_int;
    rewrite string_of_uint_nonnil by apply DecimalPos.Unsigned.to_uint_nonnil.
  - by rewrite Hpos.
  - change (Ascii.Ascii true false true true false true false false) with "-"%char.
    by rewrite Hneg.
Qed.

(** [str(n)] returns the decimal text of an int of at most 4300 digits;
    it raises ValueError or returns, nothing else. *)
Lemma count_digits_of_Z (n : Z) :
  Z.abs n < 10 ^ max_str_digits → count_digits (Str.of_Z n) ≤ max_str_digits.
Proof.
  intros Hn. unfold Str.of_Z.
  destruct n as [|p|p]; [by vm_compute|..]; simpl Z.to_int;
    unfold NilZero.string_of_int;
    rewrite string_of_uint_nonnil by apply DecimalPos.Unsigned.to_uint_nonnil.
  - apply count_digits_to_uint. lia.
  - cbn [count_digits].
    change (Str.isdigit (Ascii.Ascii true false true true false true false false))
      with false.
    cbv iota. rewrite Z.add_0_l. apply count_digits_to_uint. lia.
Qed.

Lemma str_of_int_Ok (n : Z) :
  Z.abs n < 10 ^ max_str_digits → str_of_int n = Ok (Str.of_Z n).
Proof.
  intros Hn. unfold str_of_int. pose proof (count_digits_of_Z n Hn).
  by destruct (Z.ltb_spec max_str_digits (count_digits (Str.of_Z n))); [lia|].
Qed.

Lemma str_of_int_cases (n : Z) :
  str_of_int n = Ok (Str.of_Z n) ∨ str_of_int n = builtin_error ValueError.
Proof. unfold str_of_int. destruct (_ <? _); [by right|by left]. Qed.

(** A finite float is below 2^1024, and so is [int] of it: a number of
    309 digits at most. *)
Lemma float_units_bound x u : float_units x = Some u → Z.abs u < 2 ^ 1024 * 2 ^ 1074.
Proof.
  unfold float_units. pose proof (Prim2SF_valid x) as Hv.
  destruct (Prim2SF x) as [s| | |s m e]; simpl; try done.
  - by intros [= <-].
  - intros [= <-]. simpl in Hv.
    destruct (bounded_spec _ _ Hv) as (_ & He & He').
    destruct (bounded_digits _ _ Hv) as [Hd _].
    rewrite cond_Zopp_abs, Z.abs_eq by (apply Z.lt_le_incl, units_pos; lia).
    assert (Hm : Zpos m < 2 ^ 53).
    { rewrite digits2_pos_log2 in Hd.
      pose proof (Z.log2_spec (Zpos m) eq_refl) as [_ Hlt].
      eapply Z.lt_le_trans; [exact Hlt|].
      apply Z.pow_le_mono_r; lia. }
    assert (He2 : 2 ^ (e + 1074) ≤ 2 ^ 2045) by (apply Z.pow_le_mono_r; lia).
    assert (0 < 2 ^ (e + 1074)) by (apply Z.pow_pos_nonneg; lia).
    change (2 ^ 1024 * 2 ^ 1074) with (2 ^ 53 * 2 ^ 2045).
    eapply Z.le_lt_trans; [apply Z.mul_le_mono_nonneg_l; [lia|exact He2]|].
    apply Z.mul_lt_mono_pos_r; [done|exact Hm].
Qed.

Lemma int_of_float_digits x u :
  float_units x = Some u → Z.abs (Z.quot u (2 ^ 1074)) < 10 ^ max_str_digits.
Proof.
  intros Hu. apply float_units_bound in Hu.
  rewrite <- (Z.abs_eq (2 ^ 1074)) at 1 by done.
  rewrite <- Z.quot_abs by done. rewrite (Z.abs_eq (2 ^ 1074)) by done.
  apply (Z.lt_le_trans _ (2 ^ 1024)).
  - apply Z.quot_lt_upper_bound; [apply Z.abs_nonneg|done|].
    by rewrite Z.mul_comm.
  - apply Z.leb_le. by vm_compute.
Qed.

(** [str(int(x))] *)
Lemma coordinate_text_units x u :
  float_units x = Some u →
  PascalVOCWriter.coordinate_text x = Ok (Str.of_Z (Z.quot u (2 ^ 1074))).
Proof.
  intros Hu. unfold PascalVOCWriter.coordinate_text.
  rewrite (int_of_float_units _ _ Hu). cbn [mbind result_bind].
  apply str_of_int_Ok. by eapply int_of_float_digits.
Qed.

Lemma coordinate_text_not_finite x :
  float_units x = None →
  PascalVOCWriter.coordinate_text x = builtin_error ValueError
  ∨ PascalVOCWriter.coordinate_text x = builtin_error OverflowError.
Proof.
  intros Hu. unfold PascalVOCWriter.coordinate_text.
  destruct (int_of_float_not_finite _ Hu) as [-> | ->]; [by left|by right].
Qed.

Section decimal_float.
Import Decimal DecimalPos.

Ltac each_digit d :=
  destruct d as [|d|d|d|d|d|d|d|d|d|d].

Ltac eval_isdigit :=
  repeat match goal with
  | |- context [Str.isdigit ?c] =>
      let v := eval vm_compute in (Str.isdigit c) in
      change (Str.isdigit c) with v
  end; cbv iota.

Lemma not_underscore_match {A} (prev : option ascii) (a b : A) :
  prev ≠ Some "_"%char →
  match prev with Some "_"%char => a | _ => b end = b.
Proof.
  intros Hp. destruct prev as [[[] [] [] [] [] [] [] []]|]; done.
Qed.

Lemma drop_underscores_string_of_uint (d : uint) : ∀ prev,
  prev ≠ Some "_"%char →
  drop_underscores (NilEmpty.string_of_uint d) prev
  = Some (NilEmpty.string_of_uint d).
Proof.
  induction d as [|d IH|d IH|d IH|d IH|d IH|d IH|d IH|d IH|d IH|d IH];
    intros prev Hprev;
    cbn [NilEmpty.string_of_uint drop_underscores];
    [by rewrite not_underscore_match by done|..];
    match goal with
    | |- context [Ascii.eqb ?c "_"] => change (Ascii.eqb c "_") with false
    end; cbv iota; rewrite not_underscore_match by done; by rewrite IH.
Qed.

Lemma take_digits_string_of_uint (d : uint) : ∀ (d' : uint) (n : Z),
  take_digits (NilEmpty.string_of_uint d) (Z.of_N (Unsigned.of_lu d')) n
  = (Z.of_N (Unsigned.of_lu (revapp d d')),
     n + count_digits (NilEmpty.string_of_uint d), EmptyString).
Proof.
  induction d as [|d IH|d IH|d IH|d IH|d IH|d IH|d IH|d IH|d IH|d IH];
    intros d' n;
    [cbn [NilEmpty.string_of_uint take_digits count_digits revapp];
     by rewrite Z.add_0_r|..];
    cbn [NilEmpty.string_of_uint revapp take_digits count_digits]; eval_isdigit;
    rewrite Z.add_assoc, <- IH;
    destruct (of_lu_cons d') as (H0 & H1 & H2 & H3 & H4 & H5 & H6 & H7 & H8 & H9);
    f_equal;
    unfold Str.digit_value, Str.code;
    match goal with
    | |- context [N_of_ascii ?c] =>
        let v := eval vm_compute in (Z.of_N (N_of_ascii c)) in
        change (Z.of_N (N_of_ascii c)) with v
    end; lia.
Qed.

Lemma decimal_string_of_uint (d : uint) :
  d ≠ Nil →
  Builtins.decimal (NilEmpty.string_of_uint d) = Some (Z.of_N (Pos.of_uint d), 0).
Proof.
  intros Hd. unfold Builtins.decimal.
  pose proof (take_digits_string_of_uint d Nil 0) as Ht. simpl Z.of_N in Ht.
  rewrite Ht. change (revapp d Nil) with (rev d). rewrite <- Unsigned.of_uint_alt.
  assert (Hc : 0 < count_digits (NilEmpty.string_of_uint d)).
  { pose proof (count_digits_nonneg (NilEmpty.string_of_uint d)).
    each_digit d; [done|..]; cbn [NilEmpty.string_of_uint count_digits];
      eval_isdigit; pose proof (count_digits_nonneg (NilEmpty.string_of_uint d)); lia. }
  destruct (Z.ltb_spec 0 (0 + count_digits (NilEmpty.string_of_uint d) + 0)) as [_|?];
    [|lia].
  done.
Qed.

Lemma not_special_string_of_uint (d : uint) (t : string) :
  d ≠ Nil → (∃ c t', t = String c t' ∧ Str.isdigit c = false) →
  String.eqb (Str.lowercase (NilEmpty.string_of_uint d)) t = false.
Proof.
  intros Hd (c & t' & -> & Hc).
  each_digit d; [done|..]; cbn [NilEmpty.string_of_uint Str.lowercase String.eqb];
    match goal with
    | |- context [Ascii.eqb ?a c] =>
        destruct (Ascii.eqb_spec a c) as [<-|_]; [done|done]
    end.
Qed.

Lemma float_literal_to_uint (p : positive) :
  float_literal (NilEmpty.string_of_uint (Pos.to_uint p))
  = Some (SF2Prim (binary_normalize prec emax (Zpos p) 0 false))
  ∧ float_literal (String "-" (NilEmpty.string_of_uint (Pos.to_uint p)))
    = Some (SF2Prim (binary_normalize prec emax (Zneg p) 0 false)).
Proof.
  pose proof (Unsigned.to_uint_nonnil p) as Hnil.
  pose proof (decimal_string_of_uint _ Hnil) as Hdec.
  rewrite Unsigned.of_to in Hdec. simpl Z.of_N in Hdec.
  assert (Hs : ∀ t, (∃ c t', t = String c t' ∧ Str.isdigit c = false) →
            String.eqb (Str.lowercase (NilEmpty.string_of_uint (Pos.to_uint p))) t
            = false) by (intros; by apply not_special_string_of_uint).
  unfold float_literal. split.
  - rewrite strip_string_of_uint, drop_underscores_string_of_uint by done.
    cbn [mbind option_bind]. rewrite split_sign_string_of_uint.
    rewrite !Hs by (by eexists _, _). cbn [orb]. rewrite Hdec.
    cbn [mbind option_bind round_decimal binary_normalize].
    change (0 <=? 0) with true. cbv iota. change (10 ^ 0) with 1.
    change (Z.to_pos 1) with 1%positive. by rewrite Pos.mul_1_r.
  - assert (Str.strip (String "-" (NilEmpty.string_of_uint (Pos.to_uint p)))
            = String "-" (NilEmpty.string_of_uint (Pos.to_uint p))) as ->.
    { unfold Str.strip. cbn [Str.lstrip]. change (Str.isspace "-") with false. cbv iota.
      rewrite rstrip_head by done. by rewrite rstrip_string_of_uint. }
    cbn [drop_underscores]. change (Ascii.eqb "-" "_") with false. cbv iota.
    rewrite drop_underscores_string_of_uint by done.
    cbn [fmap option_fmap option_map mbind option_bind split_sign].
    rewrite !Hs by (by eexists _, _). cbn [orb]. rewrite Hdec.
    cbn [mbind option_bind round_decimal binary_normalize].
    change (0 <=? 0) with true. cbv iota. change (10 ^ 0) with 1.
    change (Z.to_pos 1) with 1%positive. by rewrite Pos.mul_1_r.
Qed.

End decimal_float.

(** [float(str(n))] is [float(n)]: the float nearest to n. *)
Lemma py_float_of_Z (n : Z) :
  py_float (Str.of_Z n) = Ok (SF2Prim (binary_normalize prec emax n 0 false)).
Proof.
  unfold py_float, Str.of_Z.
  destruct n as [|p|p]; [done|..]; simpl Z.to_int;
    destruct (float_literal_to_uint p) as [Hpos Hneg];
    unfold NilZero.string_of_int;
    rewrite string_of_uint_nonnil by apply DecimalPos.Unsigned.to_uint_nonnil.
  - by rewrite Hpos.
  - change (Ascii.Ascii true false true true false true false false) with "-"%char.
    by rewrite Hneg.
Qed.

Lemma py_float_of_Z_units (n : Z) :
  Z.abs n ≤ 2 ^ 53 →
  ∃ y, py_float (Str.of_Z n) = Ok y ∧ float_units y = Some (n * 2 ^ 1074).
Proof.
  intros Hn. rewrite py_float_of_Z. eexists. split; [done|].
  destruct (binary_normalize_int n Hn) as [Vn Un].
  unfold float_units. by rewrite Prim2SF_SF2Prim.
Qed.

(** ** formats/yolo.py: the writer *)

Section yolo_writer.
Variable path_stem : string → string.
Variable format_6f : float → string.

Lemma YOLOWriter_run (ds : Dataset) :
  run (YOLOWriter.write path_stem format_6f) ds
  = ((λ files,
        ((λ category, name category ++ String "010" "")%string
           <$> sorted_by_key id (categories ds), files))
       <$> mapM (λ image,
             (λ lines, ((path_stem (file_name image) ++ ".txt")%string, lines))
               <$> mapM (YOLOWriter.label_line format_6f image) (annotations image))
           (images ds),
     ds).
Proof.
  unfold YOLOWriter.write. rewrite run_bind. cbn [get run].
  rewrite run_bind.
  rewrite (for_each_collect
             (λ image,
                (λ lines, ((path_stem (file_name image) ++ ".txt")%string, lines))
                  <$> mapM (YOLOWriter.label_line format_6f image) (annotations image))).
  - destruct (mapM _ (images ds)); reflexivity.
  - intros acc image s. unfold YOLOWriter.write_image. rewrite run_bind.
    rewrite (for_each_collect (YOLOWriter.label_line format_6f image)).
    + destruct (mapM _ (annotations image)); reflexivity.
    + intros lines a s'. rewrite run_bind. cbn [lift run].
      destruct (YOLOWriter.label_line format_6f image a); reflexivity.
Qed.

Lemma label_line_returns image a :
  Z.abs (width image) ≤ 2 ^ 53 → Z.abs (height image) ≤ 2 ^ 53 →
  width image ≠ 0 → height image ≠ 0 →
  Z.abs (category_id a) < 10 ^ max_str_digits →
  ∃ line, YOLOWriter.label_line format_6f image a = Ok line.
Proof.
  intros Hw Hh Hw0 Hh0 Hc. unfold YOLOWriter.label_line.
  destruct (to_yolo_returns (bbox a) _ _ Hw Hh Hw0 Hh0) as ([[[xc yc] w] h] & ->).
  cbn [mbind result_bind]. rewrite (str_of_int_Ok _ Hc). by eexists.
Qed.

Lemma label_line_raises image a :
  Z.abs (width image) ≤ 2 ^ 53 →
  width image = 0 ∨ height image = 0 →
  YOLOWriter.label_line format_6f image a = builtin_error ZeroDivisionError.
Proof.
  intros Hw Hz. unfold YOLOWriter.label_line.
  by rewrite (to_yolo_raises (bbox a) _ _ Hw Hz).
Qed.

End yolo_writer.







(** X9: the YOLO writer returns when every image that has annotations has
    a non-zero width and height (an image without annotations may have any
    size) and the category ids have at most 4300 digits: it writes one label
    file per image, in the order of the images, named after the stem of the
    image's file name, with one line per annotation; the dataset is as it
    was. *)
Theorem YOLOWriter_write_returns (path_stem : string → string)
    (format_6f : float → string) (ds : Dataset) :
  (∀ image, image ∈ images ds → annotations image ≠ [] →
     width image ≠ 0 ∧ height image ≠ 0
     ∧ Z.abs (width image) ≤ 2 ^ 53 ∧ Z.abs (height image) ≤ 2 ^ 53) →
  (∀ image a, image ∈ images ds → a ∈ annotations image →
     Z.abs (category_id a) < 10 ^ max_str_digits) →
  ∃ classes files,
    run (YOLOWriter.write path_stem format_6f) ds = (Ok (classes, files), ds)
    ∧ Forall2 (λ image file,
         file.1 = (path_stem (file_name image) ++ ".txt")%string
         ∧ length file.2 = length (annotations image))
        (images ds) files.
Proof.
  intros Hsize Hids. rewrite YOLOWriter_run.
  destruct (mapM_returns
              (λ image,
                 (λ lines, ((path_stem (file_name image) ++ ".txt")%string, lines))
                   <$> mapM (YOLOWriter.label_line format_6f image) (annotations image))
              (images ds)) as [files Hfiles].
  { intros image Hin.
    destruct (mapM_returns (YOLOWriter.label_line format_6f image) (annotations image))
      as [lines ->]; [|by eexists].
    intros a Ha.
    destruct (Hsize image Hin) as (Hw0 & Hh0 & Hw & Hh).
    { intros Hnil. rewrite Hnil in Ha. by apply elem_of_nil in Ha. }
    apply label_line_returns; [done..|]. by eapply Hids. }
  rewrite Hfiles. simpl. eexists _, files. split; [done|].
  apply mapM_Ok in Hfiles. eapply Forall2_impl; [exact Hfiles|].
  intros image [fname lines] Hfile. simpl in *.
  destruct (mapM _ (annotations image)) as [lines'|] eqn:Hlines; simplify_eq/=.
  split; [done|]. apply mapM_Ok, Forall2_length in Hlines. done.
Qed.

(** X10: an image of width 0 or height 0 that has an annotation makes the
    YOLO writer raise ZeroDivisionError (the sizes being numbers that a
    float holds, and the category ids having at most 4300 digits, so that
    nothing else is raised before); the dataset is as it was. *)
Theorem YOLOWriter_write_zero_dimension (path_stem : string → string)
    (format_6f : float → string) (ds : Dataset) :
  (∀ image, image ∈ images ds →
     Z.abs (width image) ≤ 2 ^ 53 ∧ Z.abs (height image) ≤ 2 ^ 53) →
  (∀ image a, image ∈ images ds → a ∈ annotations image →
     Z.abs (category_id a) < 10 ^ max_str_digits) →
  (∃ image, image ∈ images ds
            ∧ (width image = 0 ∨ height image = 0) ∧ annotations image ≠ []) →
  run (YOLOWriter.write path_stem format_6f) ds
  = (builtin_error ZeroDivisionError, ds).
Proof.
  intros Hsize Hids (bad & Hbad & Hz & Hanns). rewrite YOLOWriter_run.
  rewrite (mapM_raises _ (images ds) (Exn ZeroDivisionError None)); [done| |].
  - intros image Hin. destruct (Hsize image Hin) as [Hw Hh].
    destruct (decide (width image = 0 ∨ height image = 0)) as [Hz'|Hnz].
    + destruct (annotations image) as [|a anns] eqn:Ha; [right; by eexists|].
      left. rewrite (mapM_raises _ _ (Exn ZeroDivisionError None)); [done| |].
      * intros a' _. left. by apply label_line_raises.
      * exists a. split; [left|]. by apply label_line_raises.
    + right.
      destruct (mapM_returns (YOLOWriter.label_line format_6f image) (annotations image))
        as [lines ->]; [|by eexists].
      intros a Ha. apply label_line_returns; [done..|tauto|tauto|]. by eapply Hids.
  - exists bad. split; [done|]. destruct (Hsize bad Hbad) as [Hw Hh].
    destruct (annotations bad) as [|a anns]; [done|].
    rewrite (mapM_raises _ _ (Exn ZeroDivisionError None)); [done| |].
    + intros a' _. left. by apply label_line_raises.
    + exists a. split; [left|]. by apply label_line_raises.
Qed.



Lemma YOLOWriter_write_returns_witness :
  ((∀ image, image ∈ images Samples.with_empty → annotations image ≠ [] →
      width image ≠ 0 ∧ height image ≠ 0
      ∧ Z.abs (width image) ≤ 2 ^ 53 ∧ Z.abs (height image) ≤ 2 ^ 53)
   ∧ (∀ image a, image ∈ images Samples.with_empty → a ∈ annotations image →
        Z.abs (category_id a) < 10 ^ max_str_digits))
  ∧ ∃ classes files,
      run (YOLOWriter.write (λ p, p) (λ _, "0.5")) Samples.with_empty
      = (Ok (classes, files), Samples.with_empty)
      ∧ Forall2 (λ image file,
           file.1 = (file_name image ++ ".txt")%string
           ∧ length file.2 = length (annotations image))
          (images Samples.with_empty) files.
Proof.
  assert (H1 : ∀ image, image ∈ images Samples.with_empty → annotations image ≠ [] →
     width image ≠ 0 ∧ height image ≠ 0
     ∧ Z.abs (width image) ≤ 2 ^ 53 ∧ Z.abs (height image) ≤ 2 ^ 53).
  { intros image Hin. simpl in Hin. rewrite !elem_of_cons, elem_of_nil in Hin.
    destruct Hin as [->|[->|[]]]; simpl; [lia|done]. }
  assert (H2 : ∀ image a, image ∈ images Samples.with_empty → a ∈ annotations image →
     Z.abs (category_id a) < 10 ^ max_str_digits).
  { intros image a Hin. simpl in Hin. rewrite !elem_of_cons, elem_of_nil in Hin.
    destruct Hin as [->|[->|[]]]; simpl; intros Ha.
    - apply list_elem_of_singleton in Ha as ->. apply Z.ltb_lt. by vm_compute.
    - by apply elem_of_nil in Ha. }
  split; [exact (conj H1 H2)|].
  exact (YOLOWriter_write_returns (λ p, p) (λ _, "0.5") Samples.with_empty H1 H2).
Defined.

Lemma YOLOWriter_write_zero_dimension_witness :
  ((∀ image, image ∈ images Samples.flat →
      Z.abs (width image) ≤ 2 ^ 53 ∧ Z.abs (height image) ≤ 2 ^ 53)
   ∧ (∀ image a, image ∈ images Samples.flat → a ∈ annotations image →
        Z.abs (category_id a) < 10 ^ max_str_digits)
   ∧ (∃ image, image ∈ images Samples.flat
               ∧ (width image = 0 ∨ height image = 0) ∧ annotations image ≠ []))
  ∧ run (YOLOWriter.write (λ p, p) (λ _, "0.5")) Samples.flat
    = (builtin_error ZeroDivisionError, Samples.flat).
Proof.
  assert (H1 : ∀ image, image ∈ images Samples.flat →
      Z.abs (width image) ≤ 2 ^ 53 ∧ Z.abs (height image) ≤ 2 ^ 53).
  { intros image Hin. simpl in Hin. apply list_elem_of_singleton in Hin as ->.
    simpl. lia. }
  assert (H2 : ∀ image a, image ∈ images Samples.flat → a ∈ annotations image →
      Z.abs (category_id a) < 10 ^ max_str_digits).
  { intros image a Hin. simpl in Hin. apply list_elem_of_singleton in Hin as ->.
    simpl. intros Ha. apply list_elem_of_singleton in Ha as ->.
    apply Z.ltb_lt. by vm_compute. }
  assert (H3 : ∃ image, image ∈ images Samples.flat
               ∧ (width image = 0 ∨ height image = 0) ∧ annotations image ≠ []).
  { eexists. split; [left|]. split; [by left|done]. }
  split; [exact (conj H1 (conj H2 H3))|].
  exact (YOLOWriter_write_zero_dimension (λ p, p) (λ _, "0.5") Samples.flat H1 H2 H3).
Defined.

(** ** formats/pascal_voc.py: the writer *)

Lemma object_element_finite (ann : Annotation) (a b c d : Z) :
  float_units (x_min (bbox ann)) = Some a → float_units (y_min (bbox ann)) = Some b →
  float_units (x_max (bbox ann)) = Some c → float_units (y_max (bbox ann)) = Some d →
  PascalVOCWriter.object_element ann
  = Ok (voc_object ann (Z.quot a (2 ^ 1074)) (Z.quot b (2 ^ 1074))
          (Z.quot c (2 ^ 1074)) (Z.quot d (2 ^ 1074))).
Proof.
  intros Ha Hb Hc Hd. unfold PascalVOCWriter.object_element.
  rewrite (coordinate_text_units _ _ Ha), (coordinate_text_units _ _ Hb),
    (coordinate_text_units _ _ Hc), (coordinate_text_units _ _ Hd).
  reflexivity.
Qed.

Lemma object_element_not_finite (ann : Annotation) :
  ¬ finite_box (bbox ann) →
  PascalVOCWriter.object_element ann = builtin_error ValueError
  ∨ PascalVOCWriter.object_element ann = builtin_error OverflowError.
Proof.
  intros Hn. unfold PascalVOCWriter.object_element.
  destruct (float_units (x_min (bbox ann))) as [a|] eqn:Ha.
  2: { destruct (coordinate_text_not_finite _ Ha) as [-> | ->]; [by left|by right]. }
  rewrite (coordinate_text_units _ _ Ha). cbn [mbind result_bind].
  destruct (float_units (y_min (bbox ann))) as [b|] eqn:Hb.
  2: { destruct (coordinate_text_not_finite _ Hb) as [-> | ->]; [by left|by right]. }
  rewrite (coordinate_text_units _ _ Hb). cbn [mbind result_bind].
  destruct (float_units (x_max (bbox ann))) as [c|] eqn:Hc.
  2: { destruct (coordinate_text_not_finite _ Hc) as [-> | ->]; [by left|by right]. }
  rewrite (coordinate_text_units _ _ Hc). cbn [mbind result_bind].
  destruct (float_units (y_max (bbox ann))) as [d|] eqn:Hd.
  2: { destruct (coordinate_text_not_finite _ Hd) as [-> | ->]; [by left|by right]. }
  exfalso. apply Hn. repeat split; by eexists.
Qed.

Lemma finite_cases x : finite x ∨ ¬ finite x.
Proof.
  unfold finite. destruct (float_units x) as [u|]; [left; by eexists|right].
  by intros [u Hu].
Qed.

Lemma finite_box_cases b : finite_box b ∨ ¬ finite_box b.
Proof.
  unfold finite_box.
  destruct (finite_cases (x_min b)), (finite_cases (y_min b)),
    (finite_cases (x_max b)), (finite_cases (y_max b)); tauto.
Qed.

Lemma PascalVOCWriter_run (path_stem : string → string) (ds : Dataset) :
  run (PascalVOCWriter.write path_stem) ds
  = (mapM (written_file path_stem) (images ds), ds).
Proof.
  unfold PascalVOCWriter.write. rewrite run_bind. cbn [get run].
  rewrite (for_each_collect (written_file path_stem)).
  - destruct (mapM _ (images ds)); reflexivity.
  - intros acc image s. unfold PascalVOCWriter.write_image, written_file.
    rewrite run_bind. cbn [lift run].
    destruct (str_of_int (width image)) as [width_text|e]; [|reflexivity].
    rewrite run_bind. cbn [lift run].
    destruct (str_of_int (height image)) as [height_text|e]; [|reflexivity].
    rewrite run_bind.
    rewrite (for_each_collect PascalVOCWriter.object_element).
    + destruct (mapM _ (annotations image)); reflexivity.
    + intros objs a s'. rewrite run_bind. cbn [lift run].
      destruct (PascalVOCWriter.object_element a); reflexivity.
Qed.

(** For sizes of at most 4300 digits, the file of an image is the tree of
    its object elements. *)
Lemma written_file_Ok (path_stem : string → string) image objs :
  Z.abs (width image) < 10 ^ max_str_digits →
  Z.abs (height image) < 10 ^ max_str_digits →
  mapM PascalVOCWriter.object_element (annotations image) = Ok objs →
  written_file path_stem image
  = Ok ((path_stem (file_name image) ++ ".xml")%string, voc_tree image objs).
Proof.
  intros Hw Hh Hobjs. unfold written_file.
  by rewrite (str_of_int_Ok _ Hw), (str_of_int_Ok _ Hh), Hobjs.
Qed.

(** What can be raised for an image is a ValueError or an OverflowError;
    a tree that is built has all its object elements. *)
Lemma object_elements_cases anns :
  mapM PascalVOCWriter.object_element anns = builtin_error ValueError
  ∨ mapM PascalVOCWriter.object_element anns = builtin_error OverflowError
  ∨ ∃ objs, mapM PascalVOCWriter.object_element anns = Ok objs
            ∧ Forall (λ a, finite_box (bbox a)) anns.
Proof.
  induction anns as [|a anns IH]; [right; right; by exists []|]. simpl.
  destruct (finite_box_cases (bbox a)) as [Hf|Hf].
  - destruct Hf as ((ua & Ha) & (ub & Hb) & (uc & Hc) & (ud & Hd)).
    rewrite (object_element_finite a ua ub uc ud Ha Hb Hc Hd). simpl.
    destruct IH as [->|[->|(objs & -> & Hall)]]; [by left|by right; left|].
    right; right. eexists. split; [done|]. constructor; [|done].
    repeat split; by eexists.
  - destruct (object_element_not_finite a Hf) as [-> | ->]; [by left|by right; left].
Qed.

Lemma written_file_cases (path_stem : string → string) image :
  written_file path_stem image = builtin_error ValueError
  ∨ written_file path_stem image = builtin_error OverflowError
  ∨ ∃ objs, written_file path_stem image
            = Ok ((path_stem (file_name image) ++ ".xml")%string, voc_tree image objs)
            ∧ Forall (λ a, finite_box (bbox a)) (annotations image).
Proof.
  unfold written_file.
  destruct (str_of_int_cases (width image)) as [-> | ->]; [|by left].
  destruct (str_of_int_cases (height image)) as [-> | ->]; [|by left].
  cbn [mbind result_bind].
  destruct (object_elements_cases (annotations image))
    as [->|[->|(objs & -> & Hall)]]; [by left|by right; left|].
  right; right. by exists objs.
Qed.

Section voc_round_trip.
Import PascalVOCReader.

Lemma voc_tree_filename image objs :
  child_text (voc_tree image objs) "filename" = Some (file_name image).
Proof. reflexivity. Qed.

Lemma voc_tree_size image objs :
  find_child (voc_tree image objs) "size"
  = Some (mkElement "size" None
            [leaf "width" (Str.of_Z (width image));
             leaf "height" (Str.of_Z (height image));
             leaf "depth" "3"]).
Proof. reflexivity. Qed.

Lemma voc_tree_header image objs :
  image_header (voc_tree image objs)
  = Some (file_name image, Str.of_Z (width image), Str.of_Z (height image)).
Proof. reflexivity. Qed.

Lemma voc_tree_objects image objs :
  Forall (λ o, tag o = "object"%string) objs →
  findall (voc_tree image objs) "object" = objs.
Proof.
  intros Hobjs. unfold findall, voc_tree. cbn [children]. rewrite filter_app.
  assert (filter (λ c, tag c = "object"%string) objs = objs) as ->.
  { induction Hobjs as [|o objs Ho _ IH]; [done|].
    by rewrite filter_cons_True, IH. }
  reflexivity.
Qed.

Lemma voc_object_name ann a b c d :
  child_text (voc_object ann a b c d) "name" = Some (category_name ann).
Proof. reflexivity. Qed.

Lemma voc_object_flags ann a b c d :
  flag (voc_object ann a b c d) "difficult" = Ok (if difficult ann then 1 else 0)
  ∧ flag (voc_object ann a b c d) "truncated" = Ok (if truncated ann then 1 else 0).
Proof. destruct ann as [? ? ? [] [] ? ?]; split; reflexivity. Qed.

Lemma voc_object_bndbox ann a b c d :
  find_child (voc_object ann a b c d) "bndbox"
  = Some (mkElement "bndbox" None
            [leaf "xmin" (Str.of_Z a); leaf "ymin" (Str.of_Z b);
             leaf "xmax" (Str.of_Z c); leaf "ymax" (Str.of_Z d)]).
Proof. reflexivity. Qed.

(** Reading the element of an annotation back. *)
Lemma read_object_voc_object (m : gmap string Z) image ann a b c d cid fa fb fc fd :
  m !! category_name ann = Some cid →
  py_float (Str.of_Z a) = Ok fa → py_float (Str.of_Z b) = Ok fb →
  py_float (Str.of_Z c) = Ok fc → py_float (Str.of_Z d) = Ok fd →
  read_object m image (voc_object ann a b c d)
  = Ok (add_annotation image
          (Annotation_new (mkBBox fa fb fc fd) cid (category_name ann)
             (Some (difficult ann)) (Some (truncated ann)) None None)).
Proof.
  intros Hm Ha Hb Hc Hd. unfold read_object.
  rewrite voc_object_name.
  destruct (voc_object_flags ann a b c d) as [-> ->]. cbn [mbind result_bind].
  rewrite voc_object_bndbox.
  change (child_text (mkElement "bndbox" None
            [leaf "xmin" (Str.of_Z a); leaf "ymin" (Str.of_Z b);
             leaf "xmax" (Str.of_Z c); leaf "ymax" (Str.of_Z d)]) "xmin")
    with (Some (Str.of_Z a)).
  change (child_text (mkElement "bndbox" None
            [leaf "xmin" (Str.of_Z a); leaf "ymin" (Str.of_Z b);
             leaf "xmax" (Str.of_Z c); leaf "ymax" (Str.of_Z d)]) "ymin")
    with (Some (Str.of_Z b)).
  change (child_text (mkElement "bndbox" None
            [leaf "xmin" (Str.of_Z a); leaf "ymin" (Str.of_Z b);
             leaf "xmax" (Str.of_Z c); leaf "ymax" (Str.of_Z d)]) "xmax")
    with (Some (Str.of_Z c)).
  change (child_text (mkElement "bndbox" None
            [leaf "xmin" (Str.of_Z a); leaf "ymin" (Str.of_Z b);
             leaf "xmax" (Str.of_Z c); leaf "ymax" (Str.of_Z d)]) "ymax")
    with (Some (Str.of_Z d)).
  cbv beta iota. rewrite Ha, Hb, Hc, Hd. cbn [mbind result_bind]. rewrite Hm.
  cbn [mbind result_bind]. by destruct (difficult ann), (truncated ann).
Qed.

Lemma quot_units_bound (a : Z) :
  Z.abs a ≤ 2 ^ 30 * 2 ^ 1074 → Z.abs (Z.quot a (2 ^ 1074)) ≤ 2 ^ 53.
Proof.
  intros Ha. rewrite <- (Z.abs_eq (2 ^ 1074)) at 1 by done.
  rewrite <- Z.quot_abs by done. rewrite (Z.abs_eq (2 ^ 1074)) by done.
  etransitivity; [apply Z.quot_le_mono; [done|exact Ha]|].
  rewrite Z.quot_mul by done. done.
Qed.

Lemma write_objects anns :
  Forall (λ a, coordinate_in_range (x_min (bbox a)) ∧ coordinate_in_range (y_min (bbox a))
               ∧ coordinate_in_range (x_max (bbox a))
               ∧ coordinate_in_range (y_max (bbox a))) anns →
  ∃ objs, mapM PascalVOCWriter.object_element anns = Ok objs
          ∧ Forall2 written_object anns objs.
Proof.
  induction 1 as [|ann anns Hann _ (objs & IH & Hobjs)]; [by exists []|].
  destruct Hann as ((a & Ha & Ba) & (b & Hb & Bb) & (c & Hc & Bc) & (d & Hd & Bd)).
  simpl. rewrite (object_element_finite ann a b c d Ha Hb Hc Hd), IH. simpl.
  eexists. split; [done|]. constructor; [|done].
  by exists a, b, c, d.
Qed.

Lemma written_object_tag ann obj : written_object ann obj → tag obj = "object"%string.
Proof. by intros (a & b & c & d & _ & _ & _ & _ & _ & _ & _ & _ & ->). Qed.

Lemma read_written_objects (m : gmap string Z) anns objs :
  Forall2 written_object anns objs →
  (∀ ann, ann ∈ anns → is_Some (m !! category_name ann)) →
  ∀ image, ∃ anns',
    foldM (read_object m) objs image = Ok (with_annotations image anns')
    ∧ Forall2 read_back_annotation anns anns'.
Proof.
  induction 1 as [|ann obj anns objs Hobj _ IH]; intros Hm image.
  - exists []. split; [|done]. simpl. unfold with_annotations.
    rewrite app_nil_r. by destruct image.
  - destruct Hobj as (a & b & c & d & Ha & Hb & Hc & Hd & Ba & Bb & Bc & Bd & ->).
    destruct (Hm ann) as [cid Hcid]; [left|].
    destruct (py_float_of_Z_units _ (quot_units_bound a Ba)) as (fa & Hfa & Ua).
    destruct (py_float_of_Z_units _ (quot_units_bound b Bb)) as (fb & Hfb & Ub).
    destruct (py_float_of_Z_units _ (quot_units_bound c Bc)) as (fc & Hfc & Uc).
    destruct (py_float_of_Z_units _ (quot_units_bound d Bd)) as (fd & Hfd & Ud).
    cbn [foldM].
    rewrite (read_object_voc_object m image ann _ _ _ _ cid fa fb fc fd Hcid Hfa Hfb Hfc Hfd).
    cbn [mbind result_bind].
    destruct (IH (λ x Hx, Hm x (list_elem_of_further _ _ _ Hx))
                (add_annotation image
                   (Annotation_new (mkBBox fa fb fc fd) cid (category_name ann)
                      (Some (difficult ann)) (Some (truncated ann)) None None)))
      as (anns' & -> & Hanns').
    eexists (_ :: anns'). split.
    + unfold with_annotations, add_annotation. simpl. by rewrite <- app_assoc.
    + constructor; [|done]. repeat split; try done; simpl; by eexists.
Qed.

Lemma read_written_tree (m : gmap string Z) image root acc :
  written_tree image root →
  (∀ ann, ann ∈ annotations image → is_Some (m !! category_name ann)) →
  ∃ image', read_file m acc root = Ok (acc ++ [image'])
            ∧ read_back_image image image'.
Proof.
  intros (Hw & Hh & objs & -> & Hobjs) Hm. unfold read_file.
  rewrite voc_tree_filename, voc_tree_size.
  change (child_text (mkElement "size" None
            [leaf "width" (Str.of_Z (width image));
             leaf "height" (Str.of_Z (height image)); leaf "depth" "3"]) "width")
    with (Some (Str.of_Z (width image))).
  change (child_text (mkElement "size" None
            [leaf "width" (Str.of_Z (width image));
             leaf "height" (Str.of_Z (height image)); leaf "depth" "3"]) "height")
    with (Some (Str.of_Z (height image))).
  cbv beta iota. rewrite (py_int_of_Z _ Hw), (py_int_of_Z _ Hh).
  cbn [mbind result_bind]. rewrite voc_tree_objects.
  2: { eapply Forall2_Forall_r; [exact Hobjs|]. apply Forall_forall.
       intros obj _ ann. apply written_object_tag. }
  destruct (read_written_objects m _ _ Hobjs Hm
              (mkImage (file_name image) (width image) (height image) [] None))
    as (anns' & -> & Hanns').
  cbn [mbind result_bind]. eexists. split; [done|]. by repeat split.
Qed.

Lemma read_written_trees (m : gmap string Z) imgs roots :
  Forall2 written_tree imgs roots →
  (∀ image ann, image ∈ imgs → ann ∈ annotations image →
                is_Some (m !! category_name ann)) →
  ∀ acc, ∃ imgs', foldM (read_file m) roots acc = Ok (acc ++ imgs')
                  ∧ Forall2 read_back_image imgs imgs'.
Proof.
  induction 1 as [|image root imgs roots Hroot _ IH]; intros Hm acc.
  - exists []. by rewrite app_nil_r.
  - destruct (read_written_tree m image root acc Hroot) as (image' & Hread & Himage).
    { intros ann. apply Hm. left. }
    cbn [foldM]. rewrite Hread. cbn [mbind result_bind].
    destruct (IH (λ i a Hi, Hm i a (list_elem_of_further _ _ _ Hi)) (acc ++ [image']))
      as (imgs' & -> & Himgs').
    exists (image' :: imgs'). rewrite <- app_assoc. split; [done|]. by constructor.
Qed.

(** The names of the annotations are the names that the first pass finds
    in the trees. *)
Lemma written_trees_declared imgs roots image ann :
  Forall2 written_tree imgs roots → image ∈ imgs → ann ∈ annotations image →
  declared roots (category_name ann).
Proof.
  intros Hall Himage Hann.
  apply list_elem_of_lookup in Himage as [i Hi].
  destruct (Forall2_lookup_l _ _ _ _ _ Hall Hi) as (root & Hroot & _ & _ & objs & -> & Hobjs).
  apply list_elem_of_lookup in Hann as [j Hj].
  destruct (Forall2_lookup_l _ _ _ _ _ Hobjs Hj) as (obj & Hobj & Hw).
  exists (voc_tree image objs), obj.
  split; [by eapply list_elem_of_lookup_2|].
  rewrite voc_tree_objects.
  2: { eapply Forall2_Forall_r; [exact Hobjs|]. apply Forall_forall.
       intros o _ a. apply written_object_tag. }
  split; [by eapply list_elem_of_lookup_2|].
  destruct Hw as (a & b & c & d & _ & _ & _ & _ & _ & _ & _ & _ & ->).
  apply voc_object_name.
Qed.

End voc_round_trip.

(** X19: the Pascal VOC writer writes every coordinate as the decimal text
    of the coordinate without its fraction (truncated towards zero, not
    rounded), and the two flags as "1" or "0". *)
Theorem PascalVOCWriter_truncates (ann : Annotation) (a b c d : Z) :
  float_units (x_min (bbox ann)) = Some a → float_units (y_min (bbox ann)) = Some b →
  float_units (x_max (bbox ann)) = Some c → float_units (y_max (bbox ann)) = Some d →
  ∃ obj bndbox,
    PascalVOCWriter.object_element ann = Ok obj
    ∧ PascalVOCReader.child_text obj "name" = Some (category_name ann)
    ∧ PascalVOCReader.child_text obj "difficult"
      = Some (if difficult ann then "1" else "0")%string
    ∧ PascalVOCReader.child_text obj "truncated"
      = Some (if truncated ann then "1" else "0")%string
    ∧ find_child obj "bndbox" = Some bndbox
    ∧ PascalVOCReader.child_text bndbox "xmin" = Some (Str.of_Z (Z.quot a (2 ^ 1074)))
    ∧ PascalVOCReader.child_text bndbox "ymin" = Some (Str.of_Z (Z.quot b (2 ^ 1074)))
    ∧ PascalVOCReader.child_text bndbox "xmax" = Some (Str.of_Z (Z.quot c (2 ^ 1074)))
    ∧ PascalVOCReader.child_text bndbox "ymax" = Some (Str.of_Z (Z.quot d (2 ^ 1074))).
Proof.
  intros Ha Hb Hc Hd.
  rewrite (object_element_finite ann a b c d Ha Hb Hc Hd).
  eexists _, _. split; [done|]. split; [reflexivity|].
  split; [by destruct ann as [? ? ? [] [] ? ?]|].
  split; [by destruct ann as [? ? ? [] [] ? ?]|].
  split; [apply voc_object_bndbox|]. repeat split.
Qed.

Lemma PascalVOCWriter_truncates_witness :
  (float_units 10.5 = Some (21 * 2 ^ 1073) ∧ float_units (-0.5) = Some (- 2 ^ 1073)
   ∧ float_units 50.75 = Some (203 * 2 ^ 1072) ∧ float_units 80 = Some (80 * 2 ^ 1074))
  ∧ ∃ obj bndbox,
      PascalVOCWriter.object_element Samples.fraction_annotation = Ok obj
      ∧ PascalVOCReader.child_text obj "name" = Some "cat"%string
      ∧ PascalVOCReader.child_text obj "difficult" = Some "1"%string
      ∧ PascalVOCReader.child_text obj "truncated" = Some "0"%string
      ∧ find_child obj "bndbox" = Some bndbox
      ∧ PascalVOCReader.child_text bndbox "xmin" = Some "10"%string
      ∧ PascalVOCReader.child_text bndbox "ymin" = Some "0"%string
      ∧ PascalVOCReader.child_text bndbox "xmax" = Some "50"%string
      ∧ PascalVOCReader.child_text bndbox "ymax" = Some "80"%string.
Proof.
  assert (Ha : float_units 10.5 = Some (21 * 2 ^ 1073)) by reflexivity.
  assert (Hb : float_units (-0.5) = Some (- 2 ^ 1073)) by reflexivity.
  assert (Hc : float_units 50.75 = Some (203 * 2 ^ 1072)) by reflexivity.
  assert (Hd : float_units 80 = Some (80 * 2 ^ 1074)) by reflexivity.
  split; [exact (conj Ha (conj Hb (conj Hc Hd)))|].
  exact (PascalVOCWriter_truncates Samples.fraction_annotation _ _ _ _ Ha Hb Hc Hd).
Defined.

(** X20: when the width and the height of every image have at most 4300
    digits and every coordinate of every annotation is finite, the Pascal
    VOC writer returns: it builds one tree per image, in the order of the
    images, for the file named after the stem of the image's file name; the
    tree has the file name and the decimal texts of width and height, and
    one [object] element per annotation.  The dataset is as it was. *)
Theorem PascalVOCWriter_write_returns (path_stem : string → string) (ds : Dataset) :
  (∀ image, image ∈ images ds →
     Z.abs (width image) < 10 ^ max_str_digits
     ∧ Z.abs (height image) < 10 ^ max_str_digits) →
  (∀ image ann, image ∈ images ds → ann ∈ annotations image → finite_box (bbox ann)) →
  ∃ files,
    run (PascalVOCWriter.write path_stem) ds = (Ok files, ds)
    ∧ Forall2 (λ image file,
         file.1 = (path_stem (file_name image) ++ ".xml")%string
         ∧ image_header file.2
           = Some (file_name image, Str.of_Z (width image), Str.of_Z (height image))
         ∧ length (findall file.2 "object") = length (annotations image))
        (images ds) files.
Proof.
  intros Hsize Hfin. rewrite PascalVOCWriter_run.
  assert (Hobj : ∀ image, image ∈ images ds →
            ∃ objs, mapM PascalVOCWriter.object_element (annotations image) = Ok objs
                    ∧ Forall (λ o, tag o = "object"%string) objs).
  { intros image Himage. specialize (Hfin image).
    induction (annotations image) as [|ann anns IH]; [by exists []|].
    destruct (Hfin ann Himage) as ((a & Ha) & (b & Hb) & (c & Hc) & (d & Hd)); [left|].
    destruct IH as (objs & Hobjs & Htags).
    { intros a' ? Ha'. apply Hfin; [done|by right]. }
    simpl. rewrite (object_element_finite ann a b c d Ha Hb Hc Hd), Hobjs. simpl.
    eexists. split; [done|]. by constructor. }
  destruct (mapM_returns (written_file path_stem) (images ds)) as [files Hfiles].
  { intros image Hin. destruct (Hobj image Hin) as (objs & Hobjs & _).
    destruct (Hsize image Hin) as [Hw Hh].
    rewrite (written_file_Ok path_stem image objs Hw Hh Hobjs). by eexists. }
  exists files. rewrite Hfiles. split; [done|].
  apply mapM_Ok in Hfiles.
  apply Forall2_same_length_lookup. split; [by eapply Forall2_length|].
  intros i image [fname root] Hi Hf.
  destruct (Forall2_lookup_l _ _ _ _ _ Hfiles Hi) as (file & Hf' & Hfile).
  rewrite Hf in Hf'. injection Hf' as <-.
  assert (Hin : image ∈ images ds) by (by eapply list_elem_of_lookup_2).
  destruct (Hobj image Hin) as (objs & Hobjs & Htags).
  destruct (Hsize image Hin) as [Hw Hh].
  rewrite (written_file_Ok path_stem image objs Hw Hh Hobjs) in Hfile.
  injection Hfile as <- <-. simpl.
  split; [done|]. split; [apply voc_tree_header|].
  rewrite voc_tree_objects by done.
  apply mapM_Ok, Forall2_length in Hobjs. done.
Qed.

Lemma PascalVOCWriter_write_returns_witness :
  ((∀ image, image ∈ images Samples.shuffled →
      Z.abs (width image) < 10 ^ max_str_digits
      ∧ Z.abs (height image) < 10 ^ max_str_digits)
   ∧ (∀ image ann, image ∈ images Samples.shuffled → ann ∈ annotations image →
                   finite_box (bbox ann)))
  ∧ ∃ files,
      run (PascalVOCWriter.write (λ p, p)) Samples.shuffled = (Ok files, Samples.shuffled)
      ∧ Forall2 (λ image file,
           file.1 = (file_name image ++ ".xml")%string
           ∧ image_header file.2
             = Some (file_name image, Str.of_Z (width image), Str.of_Z (height image))
           ∧ length (findall file.2 "object") = length (annotations image))
          (images Samples.shuffled) files.
Proof.
  assert (H0 : ∀ image, image ∈ images Samples.shuffled →
      Z.abs (width image) < 10 ^ max_str_digits
      ∧ Z.abs (height image) < 10 ^ max_str_digits).
  { intros image Hi. simpl in Hi. apply list_elem_of_singleton in Hi as ->.
    split; reflexivity. }
  assert (H : ∀ image ann, image ∈ images Samples.shuffled → ann ∈ annotations image →
                finite_box (bbox ann)).
  { intros image ann Hi Ha. simpl in Hi. apply list_elem_of_singleton in Hi as ->.
    simpl in Ha. apply list_elem_of_singleton in Ha as ->.
    repeat split; eexists; reflexivity. }
  split; [exact (conj H0 H)|].
  exact (PascalVOCWriter_write_returns (λ p, p) Samples.shuffled H0 H).
Defined.

(** X21: an annotation with a coordinate that is infinite or not a number
    makes the Pascal VOC writer raise, ValueError or OverflowError as
    [int] does, and no file list is returned; the dataset is as it was. *)
Theorem PascalVOCWriter_write_not_finite (path_stem : string → string) (ds : Dataset) :
  (∃ image ann, image ∈ images ds ∧ ann ∈ annotations image
                ∧ ¬ finite_box (bbox ann)) →
  run (PascalVOCWriter.write path_stem) ds = (builtin_error ValueError, ds)
  ∨ run (PascalVOCWriter.write path_stem) ds = (builtin_error OverflowError, ds).
Proof.
  intros (image & ann & Himage & Hann & Hbad). rewrite PascalVOCWriter_run.
  assert (Hcases : ∀ {A B} (g : A → result B) l,
            (∀ x, x ∈ l → g x = builtin_error ValueError
                          ∨ g x = builtin_error OverflowError ∨ ∃ y, g x = Ok y) →
            (∃ x, x ∈ l ∧ ¬ ∃ y, g x = Ok y) →
            mapM g l = builtin_error ValueError
            ∨ mapM g l = builtin_error OverflowError).
  { intros A B g l. induction l as [|x l IH]; intros Hall (x0 & Hin & Hx0).
    - by apply elem_of_nil in Hin.
    - simpl. destruct (Hall x) as [->|[->|[y Hy]]]; [left|by left|by right|].
      rewrite Hy. simpl.
      destruct IH as [-> | ->]; [| |by left|by right].
      + intros; apply Hall; by right.
      + apply elem_of_cons in Hin as [->|Hin]; [|by exists x0].
        exfalso. apply Hx0. by eexists. }
  destruct (Hcases _ _ (written_file path_stem) (images ds)) as [-> | ->];
    [| |by left|by right].
  - intros image' _.
    destruct (written_file_cases path_stem image') as [->|[->|(objs & -> & _)]];
      [by left|by right; left|right; right; by eexists].
  - exists image. split; [done|]. intros [y Hy].
    destruct (written_file_cases path_stem image) as [H|[H|(objs & _ & Hall)]];
      [by rewrite H in Hy|by rewrite H in Hy|].
    rewrite Forall_forall in Hall. by apply Hbad, Hall.
Qed.

Lemma PascalVOCWriter_write_not_finite_witness :
  (∃ image ann, image ∈ images Samples.open_dataset ∧ ann ∈ annotations image
                ∧ ¬ finite_box (bbox ann))
  ∧ (run (PascalVOCWriter.write (λ p, p)) Samples.open_dataset
     = (builtin_error ValueError, Samples.open_dataset)
     ∨ run (PascalVOCWriter.write (λ p, p)) Samples.open_dataset
       = (builtin_error OverflowError, Samples.open_dataset)).
Proof.
  assert (H : ∃ image ann, image ∈ images Samples.open_dataset ∧ ann ∈ annotations image
                ∧ ¬ finite_box (bbox ann)).
  { eexists _, _. split; [left|]. split; [left|].
    intros (_ & _ & (u & Hu) & _). discriminate Hu. }
  split; [exact H|].
  exact (PascalVOCWriter_write_not_finite (λ p, p) Samples.open_dataset H).
Defined.

(** X22: what the Pascal VOC reader makes of the trees that the Pascal VOC
    writer builds.  For a dataset whose coordinates are of magnitude at most
    2^30 and whose image sizes [str] and [int] accept, the writer returns
    and the reader, given the trees in the same order, returns a dataset
    with the same images in the same order: the same file names, widths and
    heights, no image ids, and for every annotation one with the same
    category name and flags, [iscrowd] 0 and every coordinate without its
    fraction. *)
Theorem PascalVOC_write_read (path_stem : string → string) (ds : Dataset) :
  (∀ image, image ∈ images ds →
     Z.abs (width image) < 10 ^ max_str_digits
     ∧ Z.abs (height image) < 10 ^ max_str_digits
     ∧ ∀ ann, ann ∈ annotations image →
         coordinate_in_range (x_min (bbox ann)) ∧ coordinate_in_range (y_min (bbox ann))
         ∧ coordinate_in_range (x_max (bbox ann))
         ∧ coordinate_in_range (y_max (bbox ann))) →
  ∃ files ds',
    run (PascalVOCWriter.write path_stem) ds = (Ok files, ds)
    ∧ PascalVOCReader.read (snd <$> files) = Ok ds'
    ∧ Forall2 read_back_image (images ds) (images ds').
Proof.
  intros Hds. rewrite PascalVOCWriter_run.
  (* the writer *)
  assert (Hw : ∃ files,
            mapM (written_file path_stem) (images ds) = Ok files
            ∧ Forall2 written_tree (images ds) (snd <$> files)).
  { induction (images ds) as [|image imgs IH]; [by exists []|].
    destruct (Hds image) as (Hwd & Hht & Hanns); [left|].
    destruct (write_objects (annotations image)) as (objs & Hobjs & Hwritten).
    { apply Forall_forall. intros ann Hann. by apply Hanns. }
    destruct IH as (files & Hfiles & Htrees).
    { intros i Hi. apply Hds. by right. }
    simpl. rewrite (written_file_Ok path_stem image objs Hwd Hht Hobjs). simpl.
    rewrite Hfiles. simpl.
    eexists. split; [done|]. simpl. constructor; [|done].
    split; [done|]. split; [done|]. by exists objs. }
  destruct Hw as (files & -> & Htrees). exists files.
  (* the reader *)
  unfold PascalVOCReader.read.
  destruct (PascalVOCReader.make_categories _) as [cats m] eqn:Hmk.
  destruct (read_written_trees m (images ds) (snd <$> files) Htrees) with (acc := @nil Image)
    as (imgs' & Hread & Hback).
  { intros image ann Himage Hann.
    pose proof (category_map_domain
                  (PascalVOCReader.sorted_names
                     (PascalVOCReader.collect_names (snd <$> files)))
                  (category_name ann) 0 [] ∅) as Hd.
    unfold PascalVOCReader.make_categories in Hmk. rewrite Hmk in Hd. apply Hd. left.
    apply sorted_names_spec, elem_of_collect_names.
    by eapply written_trees_declared. }
  rewrite Hread. simpl. eexists. split; [done|]. split; [done|]. done.
Qed.

Lemma PascalVOC_write_read_witness :
  (∀ image, image ∈ images Samples.shuffled →
     Z.abs (width image) < 10 ^ max_str_digits
     ∧ Z.abs (height image) < 10 ^ max_str_digits
     ∧ ∀ ann, ann ∈ annotations image →
         coordinate_in_range (x_min (bbox ann)) ∧ coordinate_in_range (y_min (bbox ann))
         ∧ coordinate_in_range (x_max (bbox ann))
         ∧ coordinate_in_range (y_max (bbox ann)))
  ∧ ∃ files ds',
      run (PascalVOCWriter.write (λ p, p)) Samples.shuffled = (Ok files, Samples.shuffled)
      ∧ PascalVOCReader.read (snd <$> files) = Ok ds'
      ∧ Forall2 read_back_image (images Samples.shuffled) (images ds').
Proof.
  assert (R : ∀ n : Z, Z.abs n ≤ 2 ^ 30 → ∀ x : float,
                float_units x = Some (n * 2 ^ 1074) → coordinate_in_range x).
  { intros n Hn x Hx. exists (n * 2 ^ 1074). split; [exact Hx|].
    rewrite Z.abs_mul. apply Z.mul_le_mono_nonneg_r; lia. }
  assert (H : ∀ image, image ∈ images Samples.shuffled →
     Z.abs (width image) < 10 ^ max_str_digits
     ∧ Z.abs (height image) < 10 ^ max_str_digits
     ∧ ∀ ann, ann ∈ annotations image →
         coordinate_in_range (x_min (bbox ann)) ∧ coordinate_in_range (y_min (bbox ann))
         ∧ coordinate_in_range (x_max (bbox ann))
         ∧ coordinate_in_range (y_max (bbox ann))).
  { intros image Hi. simpl in Hi. apply list_elem_of_singleton in Hi as ->.
    split; [reflexivity|]. split; [reflexivity|].
    intros ann Ha. simpl in Ha. apply list_elem_of_singleton in Ha as ->.
    split; [apply (R 10); [lia|reflexivity]|].
    split; [apply (R 20); [lia|reflexivity]|].
    split; [apply (R 50); [lia|reflexivity]|apply (R 80); [lia|reflexivity]]. }
  split; [exact H|].
  exact (PascalVOC_write_read (λ p, p) Samples.shuffled H).
Defined.

(** ** formats/coco.py: the reader *)

Lemma fold_outcome_invariant {A B} (P : list A → B → Prop)
    (body : B → A → outcome B) (l : list A) (acc r : B) :
  P [] acc →
  (∀ pre x b b', P pre b → body b x = Returns b' → P (pre ++ [x]) b') →
  fold_outcome body l acc = Returns r → P l r.
Proof.
  intros Hacc Hstep.
  assert (H : ∀ l pre b, P pre b → fold_outcome body l b = Returns r → P (pre ++ l) r).
  { clear l. induction l as [|x l IH]; intros pre b Hb; simpl.
    - intros [= <-]. by rewrite app_nil_r.
    - destruct (body b x) as [b'| |] eqn:Hx; simpl; [|done..].
      intros Hl. rewrite (cons_middle x pre l), app_assoc. eapply IH; [|done].
      by eapply Hstep. }
  apply (H l [] acc Hacc).
Qed.

(** A loop that raises nothing but the exceptions of [ok]. *)
Lemma fold_outcome_raises {A B} (ok : exn → Prop)
    (body : B → A → outcome B) (l : list A) :
  (∀ b x e, body b x = Raises e → ok e) →
  ∀ acc e, fold_outcome body l acc = Raises e → ok e.
Proof.
  intros Hbody. induction l as [|x l IH]; intros acc e; simpl; [done|].
  destruct (body acc x) as [b'|e'|] eqn:Hx; simpl; [apply IH| |done].
  intros [= <-]. by eapply Hbody.
Qed.

Section coco_reader.
Import COCOReader.

Lemma bind_Returns {A B} (m : outcome A) (f : A → outcome B) (b : B) :
  m ≫= f = Returns b → ∃ a, m = Returns a ∧ f a = Returns b.
Proof. destruct m as [a| |]; simpl; [by exists a|done..]. Qed.

Lemma subscript_as_int d k n :
  subscript d k ≫= as_int = Returns n → dict_get d k = Some (JInt n).
Proof.
  unfold subscript. destruct (dict_get d k) as [[]|]; simpl; try done. by intros [= ->].
Qed.

Lemma subscript_as_str d k s :
  subscript d k ≫= as_str = Returns s → dict_get d k = Some (JString s).
Proof.
  unfold subscript. destruct (dict_get d k) as [[]|]; simpl; try done. by intros [= ->].
Qed.

Lemma read_category_Returns cats m item cats' m' :
  read_category (cats, m) item = Returns (cats', m') →
  ∃ c, category_of_item item c ∧ cats' = cats ++ [c] ∧ m' = <[id c := name c]> m.
Proof.
  unfold read_category. destruct item as [| | | | | |f]; simpl; try done.
  intros H. apply bind_Returns in H as (i & Hi & H). apply subscript_as_int in Hi.
  apply bind_Returns in H as (n & Hn & H). apply subscript_as_str in Hn.
  apply bind_Returns in H as (s & Hs & H). injection H as <- <-.
  exists (mkCategory i n s). split; [|done]. exists f. repeat split; [done..|]. simpl.
  destruct (dict_get f "supercategory") as [[]|]; simpl in Hs; by simplify_eq.
Qed.

Lemma read_categories_spec items cats m :
  fold_outcome read_category items ([], ∅) = Returns (cats, m) →
  Forall2 category_of_item items cats
  ∧ ∀ i, m !! i = name <$> last (filter (λ c, id c = i) cats).
Proof.
  apply (fold_outcome_invariant
           (λ pre acc, Forall2 category_of_item pre acc.1
                       ∧ ∀ i, acc.2 !! i = name <$> last (filter (λ c, id c = i) acc.1))).
  - split; [constructor|]. intros i. simpl. by rewrite lookup_empty.
  - intros pre item [cats0 m0] [cats1 m1] [Hall Hm] Hstep. simpl in *.
    apply read_category_Returns in Hstep as (c & Hc & -> & ->). split.
    + apply Forall2_app; [done|]. by repeat constructor.
    + intros i. rewrite filter_app, filter_cons, filter_nil.
      destruct (decide (id c = i)) as [<-|Hne].
      * by rewrite lookup_insert_eq, last_snoc.
      * rewrite lookup_insert_ne by done. by rewrite app_nil_r.
Qed.

Lemma read_image_Returns imgs m item imgs' m' :
  read_image (imgs, m) item = Returns (imgs', m') →
  ∃ image i, image_of_item item image ∧ annotations image = [] ∧ image_id image = Some i
             ∧ imgs' = imgs ++ [image] ∧ m' = <[i := length imgs]> m.
Proof.
  unfold read_image. destruct item as [| | | | | |f]; simpl; try done.
  intros H. apply bind_Returns in H as (fn & Hfn & H). apply subscript_as_str in Hfn.
  apply bind_Returns in H as (w & Hw & H). apply subscript_as_int in Hw.
  apply bind_Returns in H as (h & Hh & H). apply subscript_as_int in Hh.
  apply bind_Returns in H as (i & Hi & H). apply subscript_as_int in Hi.
  injection H as <- <-.
  exists (mkImage fn w h [] (Some i)), i. split; [|done]. by exists f, i.
Qed.

(** [image_map] gives an id the last of the positions of the images that
    have it, and has no other ids. *)
Lemma read_images_spec items imgs (m : gmap Z nat) :
  fold_outcome read_image items ([], ∅) = Returns (imgs, m) →
  Forall2 image_of_item items imgs
  ∧ Forall (λ image, annotations image = []) imgs
  ∧ (∀ i pos, m !! i = Some pos →
       (∃ image, imgs !! pos = Some image ∧ image_id image = Some i)
       ∧ ∀ pos' image, (pos < pos')%nat → imgs !! pos' = Some image →
                       image_id image ≠ Some i)
  ∧ (∀ image i, image ∈ imgs → image_id image = Some i → is_Some (m !! i)).
Proof.
  apply (fold_outcome_invariant
           (λ pre acc,
              Forall2 image_of_item pre acc.1
              ∧ Forall (λ image, annotations image = []) acc.1
              ∧ (∀ i pos, acc.2 !! i = Some pos →
                   (∃ image, acc.1 !! pos = Some image ∧ image_id image = Some i)
                   ∧ ∀ pos' image, (pos < pos')%nat → acc.1 !! pos' = Some image →
                                   image_id image ≠ Some i)
              ∧ (∀ image i, image ∈ acc.1 → image_id image = Some i
                            → is_Some (acc.2 !! i)))).
  - split; [constructor|]. split; [constructor|]. split.
    + intros i pos. simpl. by rewrite lookup_empty.
    + intros image i Hin. by apply elem_of_nil in Hin.
  - intros pre item [imgs0 m0] [imgs1 m1] (Hall & Hanns & Hm & Hdom) Hstep. simpl in *.
    apply read_image_Returns in Hstep as (image & i & Hitem & Ha & Hid & -> & ->).
    split; [apply Forall2_app; [done|by repeat constructor]|].
    split; [apply Forall_app; split; [done|by repeat constructor]|]. split.
    + intros j pos Hj. destruct (decide (i = j)) as [<-|Hne].
      * rewrite lookup_insert_eq in Hj. injection Hj as <-. split.
        -- exists image. split; [|done]. by rewrite lookup_app_r, Nat.sub_diag.
        -- intros pos' image' Hlt Hpos'. apply lookup_lt_Some in Hpos'.
           rewrite length_app in Hpos'. simpl in Hpos'. lia.
      * rewrite lookup_insert_ne in Hj by done.
        destruct (Hm j pos Hj) as [(image0 & Hpos & Hid0) Hlast]. split.
        -- exists image0. split; [|done]. by apply lookup_app_l_Some.
        -- intros pos' image' Hlt Hpos'.
           destruct (decide (pos' < length imgs0)%nat) as [Hin|Hout].
           ++ rewrite lookup_app_l in Hpos' by done. by eapply Hlast.
           ++ rewrite lookup_app_r in Hpos' by lia.
              destruct (pos' - length imgs0)%nat; simpl in Hpos'; [|done].
              injection Hpos' as <-. rewrite Hid. by intros [= ->].
    + intros image' j Hin Hj. destruct (decide (i = j)) as [<-|Hne].
      * rewrite lookup_insert_eq. by eexists.
      * rewrite lookup_insert_ne by done.
        apply elem_of_app in Hin as [Hin|Hin]; [by eapply Hdom|].
        apply list_elem_of_singleton in Hin as ->. congruence.
Qed.

Lemma items_entries d k l : items d k = Returns l → entries d k = l.
Proof.
  unfold items, entries. destruct (dict_get d k) as [[]|]; try done; by intros [= ->].
Qed.

Lemma read_Returns d ds :
  read (JObject d) = Returns ds →
  ∃ cm imgs0 im,
    fold_outcome read_category (entries d "categories") ([], ∅)
    = Returns (categories ds, cm)
    ∧ fold_outcome read_image (entries d "images") ([], ∅) = Returns (imgs0, im)
    ∧ fold_outcome (read_annotation cm im) (entries d "annotations") imgs0
      = Returns (images ds)
    ∧ info ds = default (JObject []) (dict_get d "info").
Proof.
  unfold read. cbn [as_dict mbind outcome_bind]. intros H.
  apply bind_Returns in H as (cats_items & Hc & H). apply items_entries in Hc as <-.
  apply bind_Returns in H as ([cats cm] & Hcats & H).
  apply bind_Returns in H as (img_items & Hi & H). apply items_entries in Hi as <-.
  apply bind_Returns in H as ([imgs0 im] & Himgs & H).
  apply bind_Returns in H as (ann_items & Ha & H). apply items_entries in Ha as <-.
  apply bind_Returns in H as (imgs & Hanns & H). injection H as <-.
  by exists cm, imgs0, im.
Qed.

Lemma as_number_Returns v n : as_number v = Returns n → v = json_of_number n.
Proof. destruct v; simpl; try done; by intros [= <-]. Qed.

Lemma unpack_bbox_Returns v x y w h :
  unpack_bbox v = Returns (x, y, w, h) →
  v = JList [json_of_number x; json_of_number y; json_of_number w; json_of_number h].
Proof.
  unfold unpack_bbox.
  destruct v as [| | | | |[|a [|b [|c [|d [|? ?]]]]]|]; try done.
  intros H. apply bind_Returns in H as (x' & Hx & H). apply as_number_Returns in Hx as ->.
  apply bind_Returns in H as (y' & Hy & H). apply as_number_Returns in Hy as ->.
  apply bind_Returns in H as (w' & Hw & H). apply as_number_Returns in Hw as ->.
  apply bind_Returns in H as (h' & Hh & H). apply as_number_Returns in Hh as ->.
  by injection H as -> -> -> ->.
Qed.

Lemma raised_Returns {A} (r : result A) (a : A) : raised r = Returns a → r = Ok a.
Proof. destruct r; simpl; [by intros [= ->]|done]. Qed.

Lemma held_Returns v x : held v = Returns x → is_number x v.
Proof.
  destruct v as [n|y]; simpl; [|by intros [= ->]].
  destruct (float_of_int n) as [x'|e]; [|done].
  destruct (decide (float_units x' = Some (n * 2 ^ 1074))) as [Hu|]; [|done].
  by intros [= <-].
Qed.

Lemma held_box_Returns box b :
  held_box box = Returns b →
  is_number (x_min b) (x_min box) ∧ is_number (y_min b) (y_min box)
  ∧ is_number (x_max b) (x_max box) ∧ is_number (y_max b) (y_max box).
Proof.
  unfold held_box. intros H.
  apply bind_Returns in H as (x1 & H1 & H). apply held_Returns in H1.
  apply bind_Returns in H as (x2 & H2 & H). apply held_Returns in H2.
  apply bind_Returns in H as (x3 & H3 & H). apply held_Returns in H3.
  apply bind_Returns in H as (x4 & H4 & H). apply held_Returns in H4.
  by injection H as <-.
Qed.

Lemma number_op_Ok int_op float_op a b r :
  number_op int_op float_op a b = Ok r → python_arith int_op float_op a b r.
Proof.
  destruct a as [m|x], b as [n|y]; simpl.
  - by intros [= <-].
  - destruct (float_of_int m) as [x|]; simpl; [|done]. intros [= <-]. by exists x.
  - destruct (float_of_int n) as [y|]; simpl; [|done]. intros [= <-]. by exists y.
  - by intros [= <-].
Qed.

Lemma area_of_box_Ok box v :
  area_of_box box = Ok v →
  ∃ dw dh, python_arith Z.sub PrimFloat.sub (x_max box) (x_min box) dw
           ∧ python_arith Z.sub PrimFloat.sub (y_max box) (y_min box) dh
           ∧ python_arith Z.mul PrimFloat.mul dw dh v.
Proof.
  unfold area_of_box.
  destruct (number_sub (x_max box) (x_min box)) as [dw|] eqn:Hw;
    cbn [mbind result_bind]; [|done].
  destruct (number_sub (y_max box) (y_min box)) as [dh|] eqn:Hh;
    cbn [mbind result_bind]; [|done].
  intros Hv. exists dw, dh. split; [by apply number_op_Ok|].
  split; by apply number_op_Ok.
Qed.

Lemma from_xywh_numbers_Ok x y w h box :
  from_xywh_numbers x y w h = Ok box →
  ∃ xw yh, number_add x w = Ok xw ∧ number_add y h = Ok yh ∧ box = mkBBox x y xw yh.
Proof.
  unfold from_xywh_numbers.
  destruct (number_add x w) as [xw|]; [|done].
  destruct (number_add y h) as [yh|]; [|done].
  intros [= <-]. by exists xw, yh.
Qed.

Lemma read_annotation_Returns cm (im : gmap Z nat) imgs item imgs' :
  read_annotation cm im imgs item = Returns imgs' →
  ∃ a i, annotation_of_item item a ∧ item_image_id item = Some i
         ∧ category_name a = default "unknown"%string (cm !! category_id a)
         ∧ imgs' = match im !! i with
                   | Some pos => alter (λ image, add_annotation image a) pos imgs
                   | None => imgs
                   end.
Proof.
  unfold read_annotation. destruct item as [| | | | | |f]; simpl; try done.
  intros H. apply bind_Returns in H as ([[[x y] w] h] & Hb & H).
  apply bind_Returns in Hb as (v & Hv & Hb). apply unpack_bbox_Returns in Hb as ->.
  apply bind_Returns in H as (box & Hbox & H).
  apply raised_Returns, from_xywh_numbers_Ok in Hbox as (xw & yh & Hxw & Hyh & ->).
  apply bind_Returns in H as (cid & Hcid & H). apply subscript_as_int in Hcid.
  apply bind_Returns in H as (ar0 & Har0 & H).
  apply bind_Returns in H as (cr & Hcr & H).
  apply bind_Returns in H as (ar & Har & H).
  apply bind_Returns in H as (i & Hi & H). apply subscript_as_int in Hi.
  apply bind_Returns in H as (b & Hheld & H).
  apply held_box_Returns in Hheld as (H1 & H2 & H3 & H4). simpl in H1, H2, H3, H4.
  apply bind_Returns in H as (arf & Harf & H). apply held_Returns in Harf.
  injection H as <-.
  assert (Hbbox : dict_get f "bbox"
                  = Some (JList [json_of_number x; json_of_number y;
                                 json_of_number w; json_of_number h])).
  { unfold subscript in Hv. destruct (dict_get f "bbox"); by simplify_eq. }
  eexists _, i. split; [|split; [by rewrite Hi|split; [|reflexivity]]]; [|done].
  exists f, x, y, w, h, xw, yh. simpl.
  split; [done|]. split; [done|].
  split; [by apply number_op_Ok|]. split; [by apply number_op_Ok|].
  split; [done|]. split; [done|]. split; [done|]. split; [done|].
  split; [done|]. split.
  { destruct (dict_get f "iscrowd") as [[]|]; simpl in Hcr; by simplify_eq. }
  split; [|done].
  exists arf, ar. split; [done|]. split; [done|].
  destruct (dict_get f "area") as [[]|]; simpl in Har0; try done;
    injection Har0 as <-; simpl in Har;
    first [by apply raised_Returns, area_of_box_Ok in Har | by injection Har as <-].
Qed.

Lemma length_flatten_from n imgs :
  length (flatten_from n imgs) = sum_list_with (λ i, length (annotations i)) imgs.
Proof.
  revert n. induction imgs as [|image imgs IH]; intros n; [done|].
  rewrite length_flatten_from_cons, IH. done.
Qed.

Lemma sum_annotations_alter imgs pos a :
  (pos < length imgs)%nat →
  sum_list_with (λ i, length (annotations i))
    (alter (λ image, add_annotation image a) pos imgs)
  = S (sum_list_with (λ i, length (annotations i)) imgs).
Proof.
  revert pos. induction imgs as [|image imgs IH]; intros pos Hpos; simpl in Hpos; [lia|].
  destruct pos as [|pos].
  - simpl. rewrite length_app. simpl. lia.
  - change (alter (λ image, add_annotation image a) (S pos) (image :: imgs))
      with (image :: alter (λ image, add_annotation image a) pos imgs).
    cbn [sum_list_with]. rewrite IH by lia. lia.
Qed.

Lemma sum_annotations_empty imgs :
  Forall (λ image, annotations image = []) imgs →
  sum_list_with (λ i, length (annotations i)) imgs = 0%nat.
Proof. induction 1 as [|image l Himage _ IH]; [done|]. simpl. by rewrite Himage, IH. Qed.

(** The loop over the annotations. *)
Lemma read_annotations_spec cm (im : gmap Z nat) items imgs0 imgs :
  (∀ i pos, im !! i = Some pos → (pos < length imgs0)%nat) →
  Forall (λ image, annotations image = []) imgs0 →
  fold_outcome (read_annotation cm im) items imgs0 = Returns imgs →
  Forall2 same_header imgs0 imgs
  ∧ (∀ pos image a, imgs !! pos = Some image → a ∈ annotations image →
       ∃ item i, item ∈ items ∧ annotation_of_item item a
                 ∧ item_image_id item = Some i ∧ im !! i = Some pos
                 ∧ category_name a = default "unknown"%string (cm !! category_id a))
  ∧ sum_list_with (λ i, length (annotations i)) imgs
    = length (filter (λ item, is_Some (item_image_id item ≫= (im !!.))) items)
  ∧ Forall (λ item, ∃ a, annotation_of_item item a ∧ is_Some (item_image_id item)) items.
Proof.
  intros Him Hempty.
  apply (fold_outcome_invariant
    (λ pre acc,
       Forall2 same_header imgs0 acc
       ∧ (∀ pos image a, acc !! pos = Some image → a ∈ annotations image →
            ∃ item i, item ∈ pre ∧ annotation_of_item item a
                      ∧ item_image_id item = Some i ∧ im !! i = Some pos
                      ∧ category_name a = default "unknown"%string (cm !! category_id a))
       ∧ sum_list_with (λ i, length (annotations i)) acc
         = length (filter (λ item, is_Some (item_image_id item ≫= (im !!.))) pre)
       ∧ Forall (λ item, ∃ a, annotation_of_item item a
                              ∧ is_Some (item_image_id item)) pre)).
  - split; [by apply Forall_Forall2_diag, Forall_true|]. split.
    + intros pos image a Hpos Ha. rewrite Forall_forall in Hempty.
      rewrite (Hempty image) in Ha by (by eapply list_elem_of_lookup_2).
      by apply elem_of_nil in Ha.
    + split; [|constructor]. simpl. by apply sum_annotations_empty.
  - intros pre item acc acc' (Hh & Hin & Hsum & Hall) Hstep.
    apply read_annotation_Returns in Hstep as (a & i & Hitem & Hid & Hname & ->).
    assert (Hall' : Forall (λ item, ∃ a, annotation_of_item item a
                                        ∧ is_Some (item_image_id item)) (pre ++ [item])).
    { apply Forall_app. split; [done|]. constructor; [|done]. exists a.
      split; [done|]. by rewrite Hid. }
    rewrite filter_app, length_app, filter_cons, filter_nil, Hid. simpl.
    destruct (im !! i) as [pos|] eqn:Hpos.
    + assert (Hlt : (pos < length acc)%nat).
      { rewrite <- (Forall2_length _ _ _ Hh). by eapply Him. }
      split; [|split; [|split; [|done]]].
      * apply Forall2_alter_r; [done|]. intros image0 image _ _ Hsame. done.
      * intros pos' image a' Hpos' Ha'.
        destruct (decide (pos = pos')) as [<-|Hne].
        -- rewrite list_lookup_alter_eq in Hpos'.
           destruct (acc !! pos) as [image1|] eqn:Hacc; [|done].
           injection Hpos' as <-. simpl in Ha'.
           apply elem_of_app in Ha' as [Ha'|Ha'].
           ++ destruct (Hin pos image1 a' Hacc Ha') as (it & j & ? & ? & ? & ? & ?).
              exists it, j. repeat split; try done. apply elem_of_app. by left.
           ++ apply list_elem_of_singleton in Ha' as ->. exists item, i.
              repeat split; try done. apply elem_of_app. right. left.
        -- rewrite list_lookup_alter_ne in Hpos' by done.
           destruct (Hin pos' image a' Hpos' Ha') as (it & j & ? & ? & ? & ? & ?).
           exists it, j. repeat split; try done. apply elem_of_app. by left.
      * rewrite sum_annotations_alter by done. rewrite Hsum.
        destruct (decide (is_Some (Some pos))) as [_|Hn]; [simpl; lia|].
        exfalso. apply Hn. by eexists.
    + split; [done|]. split; [|split; [|done]].
      * intros pos' image a' Hpos' Ha'.
        destruct (Hin pos' image a' Hpos' Ha') as (it & j & ? & ? & ? & ? & ?).
        exists it, j. repeat split; try done. apply elem_of_app. by left.
      * rewrite Hsum. destruct (decide (is_Some (@None nat))) as [[? ?]|_]; [done|].
        simpl. lia.
Qed.

End coco_reader.

Lemma find_last_filter (cats : list Category) (i : Z) :
  NoDup (id <$> cats) →
  find (λ c, id c =? i) cats = last (filter (λ c, id c = i) cats).
Proof.
  induction cats as [|c cats IH]; intros Hnd; [done|].
  apply NoDup_cons in Hnd as [Hc Hnd]. simpl. rewrite filter_cons.
  destruct (Z.eqb_spec (id c) i) as [Hi|Hi].
  - rewrite decide_True by done.
    assert (filter (λ c, id c = i) cats = []) as ->; [|done].
    clear IH Hnd. induction cats as [|c' cats IH]; [done|].
    rewrite filter_cons.
    change (id c ∉ id c' :: (id <$> cats)) in Hc.
    apply not_elem_of_cons in Hc as [Hne Hc].
    rewrite decide_False by congruence. by apply IH.
  - rewrite decide_False by done. by apply IH.
Qed.

(** X23: the images of a dataset that the COCO reader returns are the
    entries of "images", one each and in their order: each has the file
    name, the width, the height and the id of its entry; the loop over the
    annotations changes none of these. *)
Theorem COCOReader_images (d : list (string * json)) (ds : Dataset) :
  COCOReader.read (JObject d) = Returns ds →
  Forall2 image_of_item (entries d "images") (images ds).
Proof.
  intros Hread. apply read_Returns in Hread as (cm & imgs0 & im & _ & Himgs & Hanns & _).
  apply read_images_spec in Himgs as (Hitems & Hempty & Him & _).
  apply read_annotations_spec in Hanns as (Hsame & _); [|clear Hanns|done].
  2: { intros i pos Hi. destruct (Him i pos Hi) as [(image & Hpos & _) _].
       by eapply lookup_lt_Some. }
  apply Forall2_same_length_lookup. split.
  { by rewrite (Forall2_length _ _ _ Hitems), (Forall2_length _ _ _ Hsame). }
  intros pos item image Hitem Himage.
  destruct (Forall2_lookup_l _ _ _ _ _ Hitems Hitem) as (image0 & Himage0 & Hof).
  destruct (Forall2_lookup_l _ _ _ _ _ Hsame Himage0) as (image' & Himage' & Hs).
  rewrite Himage in Himage'. injection Himage' as <-.
  destruct Hof as (f & i & -> & Hfn & Hw & Hh & Hi & Hid).
  destruct Hs as (Sfn & Sw & Sh & Sid).
  exists f, i. rewrite Sfn, Sw, Sh, Sid. done.
Qed.

Lemma COCOReader_images_witness :
  COCOReader.read (JObject Samples.coco_fields) = Returns Samples.coco_dataset
  ∧ Forall2 image_of_item (entries Samples.coco_fields "images")
      (images Samples.coco_dataset).
Proof.
  assert (H : COCOReader.read (JObject Samples.coco_fields)
              = Returns Samples.coco_dataset) by (vm_compute; reflexivity).
  split; [exact H|].
  exact (COCOReader_images _ _ H).
Defined.

(** X24: the categories of a dataset that the COCO reader returns are the
    entries of "categories", one each and in their order, with the id and
    the name of the entry; the supercategory is the string of the entry,
    and None when the entry has none or has null. *)
Theorem COCOReader_categories (d : list (string * json)) (ds : Dataset) :
  COCOReader.read (JObject d) = Returns ds →
  Forall2 category_of_item (entries d "categories") (categories ds).
Proof.
  intros Hread. apply read_Returns in Hread as (cm & imgs0 & im & Hcats & _).
  by apply read_categories_spec in Hcats as [Hall _].
Qed.

Lemma COCOReader_categories_witness :
  COCOReader.read (JObject Samples.coco_fields) = Returns Samples.coco_dataset
  ∧ Forall2 category_of_item (entries Samples.coco_fields "categories")
      (categories Samples.coco_dataset).
Proof.
  assert (H : COCOReader.read (JObject Samples.coco_fields)
              = Returns Samples.coco_dataset) by (vm_compute; reflexivity).
  split; [exact H|].
  exact (COCOReader_categories _ _ H).
Defined.

(** X25: in a dataset that the COCO reader returns, the category name of
    an annotation is the name of the last category that has the
    annotation's category id, and "unknown" when no category has it.  When
    no two categories have the same id, this is the name of the category
    that [get_category_by_id] finds. *)
Theorem COCOReader_annotation_names (d : list (string * json)) (ds : Dataset)
    (image : Image) (a : Annotation) :
  COCOReader.read (JObject d) = Returns ds →
  image ∈ images ds → a ∈ annotations image →
  category_name a = last_category_name (categories ds) (category_id a)
  ∧ (NoDup (id <$> categories ds) →
     match get_category_by_id ds (category_id a) with
     | Some category => category_name a = name category
     | None => category_name a = "unknown"%string
     end).
Proof.
  intros Hread Himage Ha.
  apply read_Returns in Hread as (cm & imgs0 & im & Hcats & Himgs & Hanns & _).
  apply read_categories_spec in Hcats as [_ Hcm].
  apply read_images_spec in Himgs as (_ & Hempty & Him & _).
  apply read_annotations_spec in Hanns as (_ & Hin & _); [|clear Hanns|done].
  2: { intros i pos Hi. destruct (Him i pos Hi) as [(image0 & Hpos & _) _].
       by eapply lookup_lt_Some. }
  apply list_elem_of_lookup in Himage as [pos Hpos].
  destruct (Hin pos image a Hpos Ha) as (item & i & _ & _ & _ & _ & Hname).
  rewrite Hcm in Hname. split; [exact Hname|].
  intros Hnd. unfold get_category_by_id. rewrite (find_last_filter _ _ Hnd).
  rewrite Hname. by destruct (last _).
Qed.

Lemma COCOReader_annotation_names_witness :
  (COCOReader.read (JObject Samples.coco_fields) = Returns Samples.coco_dataset
   ∧ mkImage "b.jpg" 100 200
       [Annotation_new Examples.spec_box 2 "dog" None None (Some 2400%float) (Some 0)]
       (Some 8) ∈ images Samples.coco_dataset
   ∧ Annotation_new Examples.spec_box 2 "dog" None None (Some 2400%float) (Some 0)
     ∈ [Annotation_new Examples.spec_box 2 "dog" None None (Some 2400%float) (Some 0)])
  ∧ "dog"%string = last_category_name (categories Samples.coco_dataset) 2
    ∧ (NoDup (id <$> categories Samples.coco_dataset) →
       match get_category_by_id Samples.coco_dataset 2 with
       | Some category => "dog"%string = name category
       | None => "dog"%string = "unknown"%string
       end).
Proof.
  assert (H : COCOReader.read (JObject Samples.coco_fields)
              = Returns Samples.coco_dataset) by (vm_compute; reflexivity).
  assert (Hi : mkImage "b.jpg" 100 200
       [Annotation_new Examples.spec_box 2 "dog" None None (Some 2400%float) (Some 0)]
       (Some 8) ∈ images Samples.coco_dataset) by (vm_compute; right; left).
  assert (Ha : Annotation_new Examples.spec_box 2 "dog" None None (Some 2400%float) (Some 0)
     ∈ [Annotation_new Examples.spec_box 2 "dog" None None (Some 2400%float) (Some 0)])
    by left.
  split; [exact (conj H (conj Hi Ha))|].
  exact (COCOReader_annotation_names _ _ _ _ H Hi Ha).
Defined.

(** X26: in a dataset that the COCO reader returns, every annotation comes
    from an entry of "annotations" and is in an image that has the id that
    the entry names; it has the category id, the iscrowd flag and the area
    of the entry (the area that [__post_init__] computes of the box when the
    entry has none or null), and the box from (x, y) to (x + w, y + h),
    where the numbers of the entry are ints or floats and Python adds them
    as such.  An entry that names the id of no image gives no annotation:
    there are as many annotations as there are entries that name the id of
    an image. *)
Theorem COCOReader_annotations (d : list (string * json)) (ds : Dataset) :
  COCOReader.read (JObject d) = Returns ds →
  (∀ image a, image ∈ images ds → a ∈ annotations image →
     ∃ item, item ∈ entries d "annotations" ∧ annotation_of_item item a
             ∧ item_image_id item = image_id image)
  ∧ length (flatten_annotations (images ds))
    = length (filter (λ item, item_image_id item ∈ image_id <$> images ds)
                (entries d "annotations")).
Proof.
  intros Hread.
  apply read_Returns in Hread as (cm & imgs0 & im & _ & Himgs & Hanns & _).
  apply read_images_spec in Himgs as (Hitems & Hempty & Him & Hdom).
  apply read_annotations_spec in Hanns as (Hsame & Hin & Hsum & _); [|clear Hanns|done].
  2: { intros i pos Hi. destruct (Him i pos Hi) as [(image0 & Hpos & _) _].
       by eapply lookup_lt_Some. }
  assert (Hids : ∀ pos i, im !! i = Some pos →
            ∃ image, images ds !! pos = Some image ∧ image_id image = Some i).
  { intros pos i Hi. destruct (Him i pos Hi) as [(image0 & Hpos & Hid) _].
    destruct (Forall2_lookup_l _ _ _ _ _ Hsame Hpos) as (image & Himage & (_ & _ & _ & Hs)).
    exists image. split; [done|]. by rewrite Hs. }
  split.
  - intros image a Himage Ha. apply list_elem_of_lookup in Himage as [pos Hpos].
    destruct (Hin pos image a Hpos Ha) as (item & i & Hitem & Hof & Hid & Hi & _).
    exists item. split; [done|]. split; [done|].
    destruct (Hids pos i Hi) as (image' & Himage' & Hid').
    rewrite Hpos in Himage'. injection Himage' as <-. by rewrite Hid, Hid'.
  - unfold flatten_annotations. rewrite length_flatten_from, Hsum. f_equal.
    apply list_filter_iff. intros item. split.
    + intros [pos Hpos]. destruct (item_image_id item) as [i|]; simpl in Hpos; [|done].
      destruct (Hids pos i Hpos) as (image & Himage & Hid).
      apply list_elem_of_fmap. exists image. split; [done|].
      by eapply list_elem_of_lookup_2.
    + intros Hitem. apply list_elem_of_fmap in Hitem as (image & Hid & Himage).
      apply list_elem_of_lookup in Himage as [pos Hpos].
      destruct (Forall2_lookup_r _ _ _ _ _ Hsame Hpos) as (image0 & Hpos0 & (_ & _ & _ & Hs)).
      destruct (Forall2_lookup_r _ _ _ _ _ Hitems Hpos0)
        as (it & _ & (f & i & _ & _ & _ & _ & _ & Hi0)).
      rewrite Hid, Hs, Hi0. simpl. eapply Hdom; [|done]. by eapply list_elem_of_lookup_2.
Qed.

Lemma COCOReader_annotations_witness :
  COCOReader.read (JObject Samples.coco_fields) = Returns Samples.coco_dataset
  ∧ (∀ image a, image ∈ images Samples.coco_dataset → a ∈ annotations image →
       ∃ item, item ∈ entries Samples.coco_fields "annotations"
               ∧ annotation_of_item item a
               ∧ item_image_id item = image_id image)
    ∧ length (flatten_annotations (images Samples.coco_dataset))
      = length (filter (λ item, item_image_id item
                                ∈ image_id <$> images Samples.coco_dataset)
                  (entries Samples.coco_fields "annotations"))
    ∧ (λ image, (λ a, (bbox a, area a)) <$> annotations image)
        <$> images Samples.coco_dataset
      = [[(mkBBox 10 20.5 50.25 80.5, Some 2415)];
         [(mkBBox 10 20 50 80, Some 2400)]]%float.
Proof.
  assert (H : COCOReader.read (JObject Samples.coco_fields)
              = Returns Samples.coco_dataset) by (vm_compute; reflexivity).
  split; [exact H|].
  split; [exact (proj1 (COCOReader_annotations _ _ H))|].
  split; [exact (proj2 (COCOReader_annotations _ _ H))|].
  reflexivity.
Defined.

(** X27: the COCO reader returns a dataset only for a document all of
    whose annotation entries are complete: each, also one that names the id
    of no image and is passed over, has the keys "bbox", "category_id" and
    "image_id", and a box of four items. *)
Theorem COCOReader_complete_entries (d : list (string * json)) (ds : Dataset) :
  COCOReader.read (JObject d) = Returns ds →
  Forall complete_entry (entries d "annotations").
Proof.
  intros Hread.
  apply read_Returns in Hread as (cm & imgs0 & im & _ & Himgs & Hanns & _).
  apply read_images_spec in Himgs as (Hitems & Hempty & Him & Hdom).
  apply read_annotations_spec in Hanns as (_ & _ & _ & Hall); [|clear Hanns|done].
  2: { intros i pos Hi. destruct (Him i pos Hi) as [(image0 & Hpos & _) _].
       by eapply lookup_lt_Some. }
  eapply Forall_impl; [exact Hall|]. simpl.
  intros item (a & (f & x & y & w & h & xw & yh & -> & Hb & _ & _ & _ & _ & _ & _
                    & Hc & _) & [i Hi]).
  exists f, (JList [json_of_number x; json_of_number y;
                    json_of_number w; json_of_number h]).
  split; [done|]. split; [done|]. split; [by intros l [= <-]|].
  split; [by rewrite Hc|].
  simpl in Hi. by destruct (COCOReader.dict_get f "image_id").
Qed.

Lemma COCOReader_complete_entries_witness :
  COCOReader.read (JObject Samples.coco_fields) = Returns Samples.coco_dataset
  ∧ Forall complete_entry (entries Samples.coco_fields "annotations").
Proof.
  assert (H : COCOReader.read (JObject Samples.coco_fields)
              = Returns Samples.coco_dataset) by (vm_compute; reflexivity).
  split; [exact H|].
  exact (COCOReader_complete_entries _ _ H).
Defined.

Section coco_reader_errors.
Import COCOReader.

Lemma bind_Raises {A B} (m : outcome A) (f : A → outcome B) (e : exn) :
  m ≫= f = Raises e → m = Raises e ∨ ∃ a, m = Returns a ∧ f a = Raises e.
Proof.
  destruct m as [a| |]; simpl; intros H;
    [right; by exists a|injection H as ->; by left|done].
Qed.

(** A loop raises what its body raises for one of the items. *)
Lemma fold_outcome_Raises {A B} (body : B → A → outcome B) (l : list A) :
  ∀ acc e, fold_outcome body l acc = Raises e →
           ∃ b x, x ∈ l ∧ body b x = Raises e.
Proof.
  induction l as [|x l IH]; intros acc e; simpl; [done|].
  destruct (body acc x) as [b'|e'|] eqn:Hx; simpl; [| |done].
  - intros H. apply IH in H as (b & x' & Hin & H). exists b, x'. split; [by right|done].
  - intros [= <-]. exists acc, x. split; [left|done].
Qed.

(** A missing key is the one thing that the loops over the categories and
    over the images raise. *)
Lemma subscript_Raises d k e : subscript d k = Raises e → e = Exn KeyError None.
Proof. unfold subscript. destruct (dict_get d k); [done|]. by intros [= <-]. Qed.

Lemma subscript_bind_Raises {A} d k (f : json → outcome A) e :
  (∀ v, f v ≠ Raises e) →
  subscript d k ≫= f = Raises e → e = Exn KeyError None.
Proof.
  intros Hf H. apply bind_Raises in H as [H|(v & _ & H)];
    [by eapply subscript_Raises|by apply Hf in H].
Qed.

Lemma as_int_Raises e v : as_int v ≠ Raises e.
Proof. by destruct v. Qed.
Lemma as_str_Raises e v : as_str v ≠ Raises e.
Proof. by destruct v. Qed.
Lemma as_number_Raises e v : as_number v ≠ Raises e.
Proof. by destruct v. Qed.

Lemma unpack_bbox_Raises v e : unpack_bbox v = Raises e → e = Exn ValueError None.
Proof.
  unfold unpack_bbox.
  destruct v as [| | | | |[|a [|b [|c [|d [|? ?]]]]]|]; try done;
    try (by intros [= <-]).
  intros H.
  apply bind_Raises in H as [H|(x & _ & H)]; [by apply as_number_Raises in H|].
  apply bind_Raises in H as [H|(y & _ & H)]; [by apply as_number_Raises in H|].
  apply bind_Raises in H as [H|(w & _ & H)]; [by apply as_number_Raises in H|].
  apply bind_Raises in H as [H|(h & _ & H)]; [by apply as_number_Raises in H|done].
Qed.

Lemma read_category_Raises acc item e :
  read_category acc item = Raises e → e = Exn KeyError None.
Proof.
  destruct acc as [cats m]. unfold read_category.
  destruct item as [| | | | | |f]; simpl; try done. intros H.
  apply bind_Raises in H as [H|(i & _ & H)];
    [exact (subscript_bind_Raises _ _ _ _ (as_int_Raises e) H)|].
  apply bind_Raises in H as [H|(n & _ & H)];
    [exact (subscript_bind_Raises _ _ _ _ (as_str_Raises e) H)|].
  apply bind_Raises in H as [H|(s & _ & H)]; [|done].
  by destruct (dict_get f "supercategory") as [[]|].
Qed.

Lemma read_image_Raises acc item e :
  read_image acc item = Raises e → e = Exn KeyError None.
Proof.
  destruct acc as [imgs m]. unfold read_image.
  destruct item as [| | | | | |f]; simpl; try done. intros H.
  apply bind_Raises in H as [H|(fn & _ & H)];
    [exact (subscript_bind_Raises _ _ _ _ (as_str_Raises e) H)|].
  apply bind_Raises in H as [H|(w & _ & H)];
    [exact (subscript_bind_Raises _ _ _ _ (as_int_Raises e) H)|].
  apply bind_Raises in H as [H|(h & _ & H)];
    [exact (subscript_bind_Raises _ _ _ _ (as_int_Raises e) H)|].
  apply bind_Raises in H as [H|(i & _ & H)];
    [exact (subscript_bind_Raises _ _ _ _ (as_int_Raises e) H)|done].
Qed.

(** The arithmetic raises when it has to convert an int that is beyond the
    floats, and then only. *)
Lemma float_of_int_cases n :
  (∃ x, float_of_int n = Ok x) ∨ float_of_int n = builtin_error OverflowError.
Proof.
  unfold float_of_int.
  destruct (binary_normalize prec emax n 0 false); [left|by right|left|left]; by eexists.
Qed.

Lemma number_op_Raise int_op float_op a b e :
  number_op int_op float_op a b = Raise e →
  e = Exn OverflowError None ∧ (beyond_floats a ∨ beyond_floats b).
Proof.
  destruct a as [m|x], b as [n|y]; simpl; [done| | |done].
  - destruct (float_of_int_cases m) as [[x' Hm]|Hm]; rewrite Hm; simpl; [done|].
    intros [= <-]. split; [done|]. left. by exists m.
  - destruct (float_of_int_cases n) as [[y' Hn]|Hn]; rewrite Hn; simpl; [done|].
    intros [= <-]. split; [done|]. right. by exists n.
Qed.

Lemma area_of_box_Raise x y w h xw yh e :
  number_add x w = Ok xw → number_add y h = Ok yh →
  area_of_box (mkBBox x y xw yh) = Raise e →
  e = Exn OverflowError None ∧ (beyond_floats w ∨ beyond_floats h).
Proof.
  unfold area_of_box, number_add, number_sub, number_mul. simpl.
  intros Hxw Hyh.
  assert (Hw : ∃ w', number_op Z.sub PrimFloat.sub xw x = Ok w'
                     ∧ (beyond_floats w' → beyond_floats w)).
  { destruct x as [m|a], w as [n|b]; simpl in Hxw.
    - injection Hxw as <-. eexists. split; [done|].
      replace (m + n - m) with n by lia. done.
    - destruct (float_of_int m) as [a|] eqn:Hm; simpl in Hxw; [|done].
      injection Hxw as <-. simpl. rewrite Hm. simpl. eexists. split; [done|].
      by intros (? & ? & _).
    - destruct (float_of_int n) as [b|] eqn:Hn; simpl in Hxw; [|done].
      injection Hxw as <-. simpl. eexists. split; [done|]. by intros (? & ? & _).
    - injection Hxw as <-. simpl. eexists. split; [done|]. by intros (? & ? & _). }
  assert (Hh : ∃ h', number_op Z.sub PrimFloat.sub yh y = Ok h'
                     ∧ (beyond_floats h' → beyond_floats h)).
  { destruct y as [m|a], h as [n|b]; simpl in Hyh.
    - injection Hyh as <-. eexists. split; [done|].
      replace (m + n - m) with n by lia. done.
    - destruct (float_of_int m) as [a|] eqn:Hm; simpl in Hyh; [|done].
      injection Hyh as <-. simpl. rewrite Hm. simpl. eexists. split; [done|].
      by intros (? & ? & _).
    - destruct (float_of_int n) as [b|] eqn:Hn; simpl in Hyh; [|done].
      injection Hyh as <-. simpl. eexists. split; [done|]. by intros (? & ? & _).
    - injection Hyh as <-. simpl. eexists. split; [done|]. by intros (? & ? & _). }
  destruct Hw as (w' & -> & Hw'), Hh as (h' & -> & Hh'). cbn [mbind result_bind].
  intros H. apply number_op_Raise in H as [-> [H|H]]; split; try done; [left|right]; auto.
Qed.

Lemma beyond_floats_member x y w h :
  beyond_floats x ∨ beyond_floats y ∨ beyond_floats w ∨ beyond_floats h →
  ∃ n, JInt n ∈ [json_of_number x; json_of_number y; json_of_number w; json_of_number h]
       ∧ float_of_int n = builtin_error OverflowError.
Proof.
  intros [(n & -> & Hn)|[(n & -> & Hn)|[(n & -> & Hn)|(n & -> & Hn)]]];
    exists n; (split; [|exact Hn]); simpl; rewrite !elem_of_cons; auto.
Qed.

(** What the body of the loop over the annotations raises: KeyError for a
    key that the entry lacks, ValueError for a box that has not four items,
    OverflowError for a box with an int beyond the floats. *)
Lemma read_annotation_Raises cm im imgs item e :
  read_annotation cm im imgs item = Raises e →
  reader_error e
  ∧ (e = Exn OverflowError None →
     ∃ f l n, item = JObject f ∧ dict_get f "bbox" = Some (JList l) ∧ JInt n ∈ l
              ∧ float_of_int n = builtin_error OverflowError).
Proof.
  assert (Hkey : reader_error (Exn KeyError None)
                 ∧ (Exn KeyError None = Exn OverflowError None →
                    ∃ f l n, item = JObject f ∧ dict_get f "bbox" = Some (JList l)
                             ∧ JInt n ∈ l
                             ∧ float_of_int n = builtin_error OverflowError))
    by (split; [by left|done]).
  unfold read_annotation.
  destruct item as [| | | | | |f]; simpl; try done. intros H.
  apply bind_Raises in H as [H|([[[x y] w] h] & Hb & H)].
  { apply bind_Raises in H as [H|(v & _ & H)].
    - apply subscript_Raises in H as ->. exact Hkey.
    - apply unpack_bbox_Raises in H as ->. split; [by right; left|done]. }
  apply bind_Returns in Hb as (v & Hv & Hb). apply unpack_bbox_Returns in Hb as ->.
  assert (Hbbox : dict_get f "bbox"
                  = Some (JList [json_of_number x; json_of_number y;
                                 json_of_number w; json_of_number h])).
  { unfold subscript in Hv. destruct (dict_get f "bbox"); by simplify_eq. }
  assert (Hover : beyond_floats x ∨ beyond_floats y ∨ beyond_floats w ∨ beyond_floats h →
            reader_error (Exn OverflowError None)
            ∧ (Exn OverflowError None = Exn OverflowError None →
               ∃ f0 l n, JObject f = JObject f0 ∧ dict_get f0 "bbox" = Some (JList l)
                         ∧ JInt n ∈ l
                         ∧ float_of_int n = builtin_error OverflowError)).
  { intros Hb. split; [by right; right|]. intros _.
    destruct (beyond_floats_member x y w h Hb) as (n & Hn & Hf).
    by exists f, [json_of_number x; json_of_number y; json_of_number w; json_of_number h],
              n. }
  apply bind_Raises in H as [H|(box & Hbox & H)].
  { unfold from_xywh_numbers in H.
    destruct (number_add x w) as [xw|e'] eqn:Hxw; simpl in H.
    - destruct (number_add y h) as [yh|e'] eqn:Hyh; simpl in H; [done|].
      injection H as ->. apply number_op_Raise in Hyh as [-> [Hy|Hh]]; apply Hover; auto.
    - injection H as ->. apply number_op_Raise in Hxw as [-> [Hx|Hw]]; apply Hover; auto. }
  apply raised_Returns, from_xywh_numbers_Ok in Hbox as (xw & yh & Hxw & Hyh & ->).
  apply bind_Raises in H as [H|(cid & _ & H)].
  { apply (subscript_bind_Raises _ _ _ _ (as_int_Raises e)) in H as ->. exact Hkey. }
  apply bind_Raises in H as [H|(ar0 & _ & H)].
  { destruct (dict_get f "area") as [[]|]; done. }
  apply bind_Raises in H as [H|(cr & _ & H)].
  { by destruct (dict_get f "iscrowd") as [[]|]. }
  apply bind_Raises in H as [H|(ar & _ & H)].
  { destruct ar0 as [a|]; [done|]. simpl in H.
    destruct (area_of_box _) as [v|e'] eqn:Harea; simpl in H; [done|].
    injection H as ->.
    apply (area_of_box_Raise _ _ _ _ _ _ _ Hxw Hyh) in Harea as [-> [Hw|Hh]];
      apply Hover; auto. }
  apply bind_Raises in H as [H|(i & _ & H)].
  { apply (subscript_bind_Raises _ _ _ _ (as_int_Raises e)) in H as ->. exact Hkey. }
  apply bind_Raises in H as [H|(b & _ & H)].
  { unfold held_box in H.
    repeat (apply bind_Raises in H as [H|(? & _ & H)];
            [by (destruct x, y, xw, yh; simpl in H;
                 repeat (destruct (float_of_int _); try done);
                 repeat (destruct (decide _); try done))|]).
    done. }
  apply bind_Raises in H as [H|(arf & _ & H)]; [|done].
  destruct ar as [n|]; simpl in H; [|done].
  destruct (float_of_int n); [|done]. by destruct (decide _).
Qed.

Lemma items_Raises d k e : items d k ≠ Raises e.
Proof. unfold items. by destruct (dict_get d k) as [[]|]. Qed.

(** X28: whatever the COCO reader raises on a document that it reads as
    typed is a KeyError, for a key that an entry lacks, a ValueError, for a
    box that has not four items, or an OverflowError; and an OverflowError
    is raised only for an annotation whose box has an int beyond the range
    of the floats. *)
Theorem COCOReader_raises_only (coco_data : json) (e : exn) :
  read coco_data = Raises e →
  (e = Exn KeyError None ∨ e = Exn ValueError None ∨ e = Exn OverflowError None)
  ∧ (e = Exn OverflowError None →
     ∃ d item f l n,
       coco_data = JObject d ∧ item ∈ entries d "annotations"
       ∧ item = JObject f ∧ dict_get f "bbox" = Some (JList l) ∧ JInt n ∈ l
       ∧ float_of_int n = builtin_error OverflowError).
Proof.
  unfold read. destruct coco_data as [| | | | | |d]; simpl; try done. intros H.
  apply bind_Raises in H as [H|(cats & _ & H)]; [by apply items_Raises in H|].
  apply bind_Raises in H as [H|([cs cm] & _ & H)].
  { apply fold_outcome_Raises in H as (b & x & _ & H).
    apply read_category_Raises in H as ->. split; [by left|done]. }
  apply bind_Raises in H as [H|(imgs & _ & H)]; [by apply items_Raises in H|].
  apply bind_Raises in H as [H|([ims im] & _ & H)].
  { apply fold_outcome_Raises in H as (b & x & _ & H).
    apply read_image_Raises in H as ->. split; [by left|done]. }
  apply bind_Raises in H as [H|(anns & Hanns & H)]; [by apply items_Raises in H|].
  apply items_entries in Hanns as <-.
  apply bind_Raises in H as [H|(ims' & _ & H)]; [|done].
  apply fold_outcome_Raises in H as (b & item & Hin & H).
  apply read_annotation_Raises in H as [Herr Hover]. split; [exact Herr|].
  intros He. destruct (Hover He) as (f & l & n & -> & Hb & Hn & Hf).
  by exists d, (JObject f), f, l, n.
Qed.

End coco_reader_errors.

Lemma COCOReader_raises_only_witness :
  (COCOReader.read Samples.coco_no_bbox = Raises (Exn KeyError None)
   ∧ COCOReader.read Samples.coco_beyond_floats = Raises (Exn OverflowError None))
  ∧ (Exn KeyError None = Exn KeyError None ∨ Exn KeyError None = Exn ValueError None
     ∨ Exn KeyError None = Exn OverflowError None)
  ∧ ∃ d item f l n,
      Samples.coco_beyond_floats = JObject d ∧ item ∈ entries d "annotations"
      ∧ item = JObject f ∧ COCOReader.dict_get f "bbox" = Some (JList l) ∧ JInt n ∈ l
      ∧ float_of_int n = builtin_error OverflowError.
Proof.
  assert (H1 : COCOReader.read Samples.coco_no_bbox = Raises (Exn KeyError None))
    by reflexivity.
  assert (H2 : COCOReader.read Samples.coco_beyond_floats
               = Raises (Exn OverflowError None)) by (vm_compute; reflexivity).
  split; [exact (conj H1 H2)|].
  split; [exact (proj1 (COCOReader_raises_only _ _ H1))|].
  exact (proj2 (COCOReader_raises_only _ _ H2) eq_refl).
Defined.
(** ** formats/coco.py: the reader on what the writer has written *)

Section coco_round_trip.
Import COCOReader.

Lemma read_written_category cats (m : gmap Z string) (c : Category) :
  read_category (cats, m) (COCOWriter.cat_dict c)
  = Returns (cats ++ [coco_category c], <[id c := name c]> m).
Proof.
  destruct c as [i n [[|ch s]|]]; reflexivity.
Qed.

Lemma read_written_categories cats : ∀ acc (m : gmap Z string),
  ∃ m', fold_outcome read_category (COCOWriter.cat_dict <$> cats) (acc, m)
        = Returns (acc ++ (coco_category <$> cats), m').
Proof.
  induction cats as [|c cats IH]; intros acc m.
  - exists m. simpl. by rewrite app_nil_r.
  - destruct (IH (acc ++ [coco_category c]) (<[id c := name c]> m)) as [m' Hm'].
    exists m'. cbn [fmap list_fmap fold_outcome]. rewrite read_written_category.
    cbn [mbind outcome_bind]. rewrite Hm', <- app_assoc. done.
Qed.

Lemma with_assigned_id_Some k image :
  image_id (with_assigned_id k image)
  = Some (default (Z.of_nat k + 1) (image_id image)).
Proof. unfold with_assigned_id. by destruct (image_id image) eqn:Hi; [rewrite Hi|]. Qed.

Lemma read_written_image imgs (m : gmap Z nat) k (image : Image) :
  read_image (imgs, m) (COCOWriter.img_dict (with_assigned_id k image))
  = Returns (imgs ++ [coco_header k image],
             <[default (Z.of_nat k + 1) (image_id image) := length imgs]> m).
Proof.
  unfold coco_header, with_assigned_id, COCOWriter.img_dict.
  destruct (image_id image) eqn:Hi; simpl; rewrite ?Hi; reflexivity.
Qed.

Lemma read_written_images imgs : ∀ n acc (m : gmap Z nat),
  ∃ m', fold_outcome read_image
          (imap (λ k image, COCOWriter.img_dict (with_assigned_id (n + k) image)) imgs)
          (acc, m)
        = Returns (acc ++ imap (λ k, coco_header (n + k)) imgs, m').
Proof.
  induction imgs as [|image imgs IH]; intros n acc m.
  - exists m. simpl. by rewrite app_nil_r.
  - cbn [imap fold_outcome]. rewrite read_written_image. cbn [mbind outcome_bind].
    destruct (IH (S n) (acc ++ [coco_header (n + 0) image])
                (<[default (Z.of_nat (n + 0) + 1) (image_id image) := length acc]> m))
      as [m' Hm'].
    exists m'.
    rewrite (imap_ext _ (λ k image, COCOWriter.img_dict (with_assigned_id (S n + k) image)))
      by (intros; simpl; do 2 f_equal; lia).
    rewrite Hm', <- app_assoc. cbn [imap app].
    rewrite (imap_ext (λ k, coco_header (S n + k)) ((λ k, coco_header (n + k)) ∘ S));
      [done|].
    intros; simpl. f_equal. lia.
Qed.

(** The annotation that the reader makes of an entry of the writer. *)
Lemma read_written_annotation cm (im : gmap Z nat) name_of imgs j k image a :
  (∀ c, default "unknown"%string (cm !! c) = name_of c) →
  im !! default (Z.of_nat k + 1) (image_id image) = Some k →
  read_annotation cm im imgs (COCOWriter.ann_dict j (with_assigned_id k image) a)
  = Returns (place name_of imgs (k, image, a)).
Proof.
  intros Hname Him. unfold COCOWriter.ann_dict, place, coco_annotation, to_xywh.
  rewrite <- Hname.
  assert (Hi : image_id (with_assigned_id k image)
               = Some (default (Z.of_nat k + 1) (image_id image))).
  { unfold with_assigned_id. by destruct (image_id image) eqn:Hi; [rewrite Hi|]. }
  rewrite Hi.
  unfold read_annotation. cbn [as_dict mbind outcome_bind].
  destruct (area a) as [v|] eqn:Ha; simpl; rewrite Him, ?Ha; reflexivity.
Qed.

Lemma read_written_annotations cm (im : gmap Z nat) name_of
    (l : list (nat * Image * Annotation)) :
  (∀ c, default "unknown"%string (cm !! c) = name_of c) →
  (∀ k image a, (k, image, a) ∈ l →
     im !! default (Z.of_nat k + 1) (image_id image) = Some k) →
  ∀ n acc,
    fold_outcome (read_annotation cm im)
      (imap (λ j '(k, image, a),
               COCOWriter.ann_dict (Z.of_nat (n + j) + 1) (with_assigned_id k image) a) l)
      acc
    = Returns (foldl (place name_of) acc l).
Proof.
  intros Hname. induction l as [|[[k image] a] l IH]; intros Hl n acc; [done|].
  cbn [imap fold_outcome foldl].
  rewrite (read_written_annotation cm im name_of _ _ _ _ _ Hname
             (Hl k image a (list_elem_of_here _ _))).
  cbn [mbind outcome_bind].
  rewrite <- (IH (λ k' image' a' Hin, Hl k' image' a' (list_elem_of_further _ _ _ Hin))
                (S n)).
  f_equal. apply imap_ext. intros j [[k' image'] a'] _. simpl. do 2 f_equal. lia.
Qed.

(** The annotations of one image arrive, in their order, in the image at
    its position. *)
Lemma place_annotations name_of pre tl n image (anns : list Annotation) : ∀ h,
  length pre = n →
  foldl (place name_of) (pre ++ h :: tl) ((λ a, (n, image, a)) <$> anns)
  = pre ++ mkImage (file_name h) (width h) (height h)
             (annotations h ++ (coco_annotation name_of <$> anns)) (image_id h) :: tl.
Proof.
  induction anns as [|a anns IH]; intros h Hn.
  - destruct h. simpl. by rewrite app_nil_r.
  - cbn [fmap list_fmap foldl]. unfold place at 2. cbn [fst snd].
    rewrite alter_app_r_alt by lia. rewrite Hn, Nat.sub_diag.
    change (alter ?f 0%nat (h :: tl)) with (f h :: tl).
    rewrite (IH _ Hn). simpl. by rewrite <- app_assoc.
Qed.

Lemma place_flatten name_of rest : ∀ n pre,
  length pre = n →
  foldl (place name_of) (pre ++ imap (λ k, coco_header (n + k)) rest)
    (flatten_from n rest)
  = pre ++ imap (λ k, coco_image name_of (n + k)) rest.
Proof.
  induction rest as [|image rest IH]; intros n pre Hn; [done|].
  rewrite flatten_from_cons, foldl_app. cbn [imap].
  rewrite (place_annotations name_of pre _ n image (annotations image) _ Hn).
  rewrite Nat.add_0_r.
  change (mkImage _ _ _ _ _) with (coco_image name_of n image).
  rewrite (cons_middle (coco_image name_of n image)), !app_assoc.
  rewrite (imap_ext _ (λ k, coco_header (S n + k)))
    by (intros; simpl; f_equal; lia).
  rewrite IH by (rewrite length_app; simpl; lia).
  rewrite <- app_assoc. cbn [app].
  do 2 f_equal. apply imap_ext. intros; simpl. f_equal. lia.
Qed.

Lemma elem_of_flatten_from imgs : ∀ n k image a,
  (k, image, a) ∈ flatten_from n imgs →
  ∃ k', k = (n + k')%nat ∧ imgs !! k' = Some image.
Proof.
  induction imgs as [|image0 imgs IH]; intros n k image a Hin.
  - by apply elem_of_nil in Hin.
  - rewrite flatten_from_cons in Hin. apply elem_of_app in Hin as [Hin|Hin].
    + apply list_elem_of_fmap in Hin as (a' & [= -> -> ->] & _).
      exists 0%nat. split; [lia|done].
    + apply IH in Hin as (k' & -> & Hk'). exists (S k'). split; [lia|done].
Qed.

Lemma read_document inf cats imgs anns :
  read (JObject [("info", inf); ("licenses", JList []); ("categories", JList cats);
                 ("images", JList imgs); ("annotations", JList anns)]%string)
  = ('(dataset_categories, category_map) ← fold_outcome read_category cats ([], ∅);
     '(dataset_images, image_map) ← fold_outcome read_image imgs ([], ∅);
     dataset_images ←
       fold_outcome (read_annotation category_map image_map) anns dataset_images;
     Returns (mkDataset dataset_images dataset_categories inf)).
Proof. reflexivity. Qed.

(** With ids that differ, the reader's [image_map] leads from the id of
    every image to its position. *)
Lemma image_map_position imgs (im : gmap Z nat) k image :
  NoDup (image_id <$> imap with_assigned_id imgs) →
  fold_outcome read_image
    (imap (λ k image, COCOWriter.img_dict (with_assigned_id k image)) imgs) ([], ∅)
  = Returns (imap coco_header imgs, im) →
  imgs !! k = Some image →
  im !! default (Z.of_nat k + 1) (image_id image) = Some k.
Proof.
  intros Hnd Hread Hk.
  apply read_images_spec in Hread as (_ & _ & Hpos & Hdom).
  assert (Hid : ∀ j x, imgs !! j = Some x →
            (image_id <$> imap with_assigned_id imgs) !! j
            = Some (Some (default (Z.of_nat j + 1) (image_id x)))).
  { intros j x Hj. rewrite list_lookup_fmap, list_lookup_imap, Hj. simpl.
    by rewrite with_assigned_id_Some. }
  destruct (Hdom (coco_header k image) (default (Z.of_nat k + 1) (image_id image)))
    as [pos Him].
  { apply list_elem_of_lookup. exists k. by rewrite list_lookup_imap, Hk. }
  { apply with_assigned_id_Some. }
  rewrite Him. f_equal.
  destruct (Hpos _ _ Him) as [(image' & Hpos' & Hid') _].
  rewrite list_lookup_imap in Hpos'.
  destruct (imgs !! pos) as [x|] eqn:Hx; [|done]. injection Hpos' as <-.
  unfold coco_header in Hid'. simpl in Hid'. rewrite with_assigned_id_Some in Hid'.
  apply (NoDup_lookup _ pos k (Some (default (Z.of_nat k + 1) (image_id image))) Hnd);
    [|by apply Hid].
  by rewrite (Hid _ _ Hx), Hid'.
Qed.

(** X29: a dataset that the COCO writer has written, with image ids that
    are pairwise distinct once the writer has given the images without an
    id their position, is read back by the COCO reader as the same images
    in the same order with the ids of the writer, the same categories (an
    empty supercategory as none), the same info, and for every image its
    annotations in their order: boxes by way of (x, y, width, height),
    category ids, areas and iscrowd flags kept, the names taken from the
    category list by id ("unknown" without one), and no flags. *)
Theorem COCO_write_read (ds : Dataset) :
  NoDup (image_id <$> imap with_assigned_id (images ds)) →
  ∃ doc, (run COCOWriter.write ds).1 = Ok doc
         ∧ read doc = Returns (coco_dataset_of ds).
Proof.
  intros Hnd. rewrite run_write. eexists. split; [reflexivity|].
  rewrite read_document.
  destruct (read_written_categories (categories ds) [] ∅) as [cm Hcm].
  rewrite Hcm. cbn [mbind outcome_bind app].
  destruct (read_written_images (images ds) 0 [] ∅) as [im Him].
  change (fold_outcome read_image
            (imap (λ k image, COCOWriter.img_dict (with_assigned_id k image)) (images ds))
            ([], ∅)
          = Returns (imap coco_header (images ds), im)) in Him.
  rewrite Him. cbn [mbind outcome_bind].
  apply read_categories_spec in Hcm as [_ Hcm].
  assert (Hname : ∀ c, default "unknown"%string (cm !! c)
                       = last_category_name (coco_category <$> categories ds) c).
  { intros c. unfold last_category_name. by rewrite Hcm. }
  assert (Hmap : ∀ k image a, (k, image, a) ∈ flatten_annotations (images ds) →
                   im !! default (Z.of_nat k + 1) (image_id image) = Some k).
  { intros k image a Hin. apply elem_of_flatten_from in Hin as (k' & -> & Hk).
    by apply (image_map_position (images ds)). }
  pose proof (read_written_annotations cm im _ _ Hname Hmap 0%nat) as Hanns.
  cbn [Nat.add] in Hanns. rewrite Hanns.
  cbn [mbind outcome_bind]. unfold coco_dataset_of. do 2 f_equal.
  by apply (place_flatten _ (images ds) 0 []).
Qed.

End coco_round_trip.

Lemma COCO_write_read_witness :
  NoDup (image_id <$> imap with_assigned_id (images Samples.two_images))
  ∧ ∃ doc, (run COCOWriter.write Samples.two_images).1 = Ok doc
           ∧ COCOReader.read doc = Returns (coco_dataset_of Samples.two_images).
Proof.
  assert (H : NoDup (image_id <$> imap with_assigned_id (images Samples.two_images)))
    by (apply (bool_decide_unpack _); vm_compute; reflexivity).
  split; [exact H|].
  exact (COCO_write_read _ H).
Defined.

